(** * The natural-language command interpreter of the flow authoring tool

    A shallow embedding of [src/lib/ai-parser.ts] (with the command type of
    [src/types/flow.ts]) and the properties of its specification.

    Strings.  A JavaScript string is modelled as a [string] whose characters
    are the code units 0..255 (the Latin-1 range, which is closed under
    [toLowerCase]).  White space, digits, line terminators and case mapping
    are the ECMAScript ones restricted to that range.

    Regular expressions.  The patterns of the source are regex syntax trees
    run by a backtracking matcher written in continuation-passing style after
    the ECMAScript pattern semantics: leftmost start position first, then
    alternatives left to right, greedy quantifiers longest first, lazy ones
    shortest first.  The loop of a quantifier is bounded by the characters
    left to read, which is enough ([RegExpFacts.starLoop_enough]); the
    captures of a group under a quantifier are not reset between iterations,
    and no pattern of the source has such a group
    ([RegExpFacts.patterns_have_plain_loops]).

    Exceptions.  The rule-based parser runs in an error monad: calling a
    method on [undefined] is a [Throw].

    The remote collaborator.  [parseAICommand] is a function of what the
    surroundings answer during the call: the configured key, the outcome of
    the request and of reading its body, and [JSON.parse].

    The file has three parts: the embedding, the definitions the properties
    are stated with, and the facts, the claims of the specification last. *)

From Stdlib Require Import Bool Arith NArith ZArith List Ascii String Lia.
From Stdlib Require Import DecimalString.
From Stdlib Require DecimalNat DecimalN.
Import ListNotations.

Local Open Scope list_scope.
Local Open Scope string_scope.

Set Implicit Arguments.

(* ================================================================== *)
(** ** JavaScript strings *)

Module JS.

Definition code (c : ascii) : N := N_of_ascii c.

Definition between (lo hi : N) (c : ascii) : bool :=
  (N.leb lo (code c) && N.leb (code c) hi)%bool.

(** [\s]: TAB, LF, VT, FF, CR, SPACE, NBSP. *)
Definition isSpace (c : ascii) : bool :=
  (between 9 13 c || N.eqb (code c) 32 || N.eqb (code c) 160)%bool.

(** [\d] *)
Definition isDigit (c : ascii) : bool := between 48 57 c.

(** Line terminators, which [.] does not match. *)
Definition isLineTerminator (c : ascii) : bool :=
  (N.eqb (code c) 10 || N.eqb (code c) 13)%bool.

Definition lowerChar (c : ascii) : ascii :=
  if (between 65 90 c
      || (between 192 222 c && negb (N.eqb (code c) 215)))%bool
  then ascii_of_N (code c + 32) else c.

(** [Canonicalize] of the pattern semantics under the [i] flag: the code
    unit of the upper-cased character. *)
Definition canonicalize (c : ascii) : N :=
  if (between 97 122 c
      || (between 224 254 c && negb (N.eqb (code c) 247)))%bool
  then code c - 32
  else if N.eqb (code c) 255 then 376
  else if N.eqb (code c) 181 then 924
  else code c.

Fixpoint toLowerCase (s : string) : string :=
  match s with
  | EmptyString => EmptyString
  | String c t => String (lowerChar c) (toLowerCase t)
  end.

Fixpoint trimStart (s : string) : string :=
  match s with
  | EmptyString => EmptyString
  | String c t => if isSpace c then trimStart t else s
  end.

(** [trimEnd] keeps a character when it is not white space or when
    something is kept after it. *)
Fixpoint trimEnd (s : string) : string :=
  match s with
  | EmptyString => EmptyString
  | String c t =>
      match trimEnd t with
      | EmptyString => if isSpace c then EmptyString else String c EmptyString
      | t' => String c t'
      end
  end.

Definition trim (s : string) : string := trimEnd (trimStart s).

Fixpoint startsWith (s p : string) : bool :=
  match p, s with
  | EmptyString, _ => true
  | String a p', String b s' => (Ascii.eqb a b && startsWith s' p')%bool
  | String _ _, EmptyString => false
  end.

Fixpoint includes (s term : string) : bool :=
  (startsWith s term
   || match s with
      | EmptyString => false
      | String _ t => includes t term
      end)%bool.

(** [s.split(/\s+/)]: the fields between maximal runs of white space, the
    empty fields at both ends included. *)
Fixpoint splitAux (s : string) (inRun : bool) (cur : string) : list string :=
  match s with
  | EmptyString => [cur]
  | String c t =>
      if isSpace c
      then if inRun then splitAux t true EmptyString
           else cur :: splitAux t true EmptyString
      else splitAux t false (cur ++ String c EmptyString)
  end.

Definition splitSpaces (s : string) : list string := splitAux s false EmptyString.

Fixpoint join (sep : string) (l : list string) : string :=
  match l with
  | [] => EmptyString
  | [x] => x
  | x :: t => x ++ sep ++ join sep t
  end.

(** Template rendering of a non-negative integer. *)
Definition showNat (n : nat) : string := NilEmpty.string_of_uint (Nat.to_uint n).

(** A string is truthy when it is not empty. *)
Definition truthy (s : string) : bool :=
  match s with EmptyString => false | _ => true end.

Definition digitValue (c : ascii) : Z := Z.of_N (code c) - 48.

Fixpoint digitsAcc (s : string) (acc : option Z) : option Z :=
  match s with
  | EmptyString => acc
  | String c t =>
      if isDigit c
      then digitsAcc t (Some (match acc with
                              | Some a => 10 * a + digitValue c
                              | None => digitValue c
                              end)%Z)
      else acc
  end.

(** [parseInt(x)] without radix, on an argument that may be [undefined]:
    leading white space, an optional sign, then the longest prefix of
    decimal digits; [None] is NaN.  The patterns of the source only capture
    [\d+], so the hexadecimal prefix never occurs.  The value is exact; the
    source's doubles are exact below 2^53 and at least 2^53 for longer digit
    strings, which is beyond the length of any array. *)
Definition parseInt (x : option string) : option Z :=
  match x with
  | None => None
  | Some s =>
      match trimStart s with
      | String "-" t => option_map Z.opp (digitsAcc t None)
      | String "+" t => digitsAcc t None
      | t => digitsAcc t None
      end
  end.

(** [a[k]] on an array, for a number [k] that may be NaN: [undefined]
    outside [0 .. a.length - 1]. *)
Definition at_ (A : Type) (a : list A) (k : option Z) : option A :=
  match k with
  | None => None
  | Some z => if (z <? 0)%Z then None else nth_error a (Z.to_nat z)
  end.

(** [x || y] on values that are an object or [null]/[undefined]. *)
Definition orElse (A : Type) (x y : option A) : option A :=
  match x with Some _ => x | None => y end.

End JS.

(* ================================================================== *)
(** ** Regular expressions *)

Module RegExp.

Inductive classItem : Type :=
| IChar (c : ascii)
| ISpace          (* \s *)
| INotSpace       (* \S *)
| IDigit.         (* \d *)

Inductive regex : Type :=
| Eps
| Chr (c : ascii)
| Dot
| Class (negated : bool) (items : list classItem)
| Seq (r1 r2 : regex)
| Alt (r1 r2 : regex)
| Star (greedy : bool) (r : regex)
| Opt (greedy : bool) (r : regex)
| Group (n : nat) (r : regex)
| EndOfInput.

(** Concrete syntax helpers. *)
Fixpoint lit (s : string) : regex :=
  match s with
  | EmptyString => Eps
  | String c EmptyString => Chr c
  | String c t => Seq (Chr c) (lit t)
  end.

Fixpoint seqs (l : list regex) : regex :=
  match l with
  | [] => Eps
  | [r] => r
  | r :: t => Seq r (seqs t)
  end.

Fixpoint alts (l : list string) : regex :=
  match l with
  | [] => Class false []
  | [s] => lit s
  | s :: t => Alt (lit s) (alts t)
  end.

Fixpoint altr (l : list regex) : regex :=
  match l with
  | [] => Class false []
  | [r] => r
  | r :: t => Alt r (altr t)
  end.

Definition Plus (r : regex) : regex := Seq r (Star true r).
Definition PlusLazy (r : regex) : regex := Seq r (Star false r).
Definition space : regex := Class false [ISpace].
Definition digit : regex := Class false [IDigit].
(** [[\x22']] and [[^\x22']] *)
Definition quote : regex := Class false [IChar "034"; IChar "'"].
Definition notQuote : regex := Class true [IChar "034"; IChar "'"].

(** The state of a match: the input still to read, the index reached, and
    the captures as (start, end) index pairs, slot [n] for group [n]. *)
Record mstate : Type := MState
  { rest : string; pos : nat; caps : list (option (nat * nat)) }.

Fixpoint setNth (A : Type) (n : nat) (v : A) (d : A) (l : list A) : list A :=
  match n, l with
  | O, [] => [v]
  | O, _ :: t => v :: t
  | S n', [] => d :: setNth n' v d []
  | S n', x :: t => x :: setNth n' v d t
  end.

Definition cap (n : nat) (s : mstate) : option (nat * nat) := nth n (caps s) None.

Definition setCap (n : nat) (v : nat * nat) (s : mstate) : mstate :=
  MState (rest s) (pos s) (setNth n (Some v) None (caps s)).

Definition itemMatches (ic : bool) (c : ascii) (i : classItem) : bool :=
  match i with
  | IChar a => if ic then N.eqb (JS.canonicalize c) (JS.canonicalize a)
               else Ascii.eqb c a
  | ISpace => JS.isSpace c
  | INotSpace => negb (JS.isSpace c)
  | IDigit => JS.isDigit c
  end.

(** Reads one character satisfying [p]. *)
Definition step (p : ascii -> bool) (k : mstate -> option mstate) (s : mstate)
  : option mstate :=
  match rest s with
  | EmptyString => None
  | String c t => if p c then k (MState t (S (pos s)) (caps s)) else None
  end.

(** A quantifier is run on the matcher of its body.  An iteration that
    reads nothing is refused, so a loop runs at most once per remaining
    character, which is its fuel. *)
Definition matcher : Type := (mstate -> option mstate) -> mstate -> option mstate.

Definition progress (s : mstate) (k : mstate -> option mstate) (s' : mstate)
  : option mstate :=
  if Nat.eqb (pos s') (pos s) then None else k s'.

Definition choose (greedy : bool) (more stop : unit -> option mstate)
  : option mstate :=
  if greedy
  then match more tt with
       | Some res => Some res
       | None => stop tt
       end
  else match stop tt with
       | Some res => Some res
       | None => more tt
       end.

Fixpoint starLoop (greedy : bool) (body : matcher) (k : mstate -> option mstate)
  (fuel : nat) (s : mstate) {struct fuel} : option mstate :=
  match fuel with
  | O => k s
  | S fuel' =>
      choose greedy
        (fun _ => body (progress s (starLoop greedy body k fuel')) s)
        (fun _ => k s)
  end.

Definition optional (greedy : bool) (body : matcher) : matcher :=
  fun k s => choose greedy (fun _ => body (progress s k) s) (fun _ => k s).

(** The matcher.  [ic] is the [i] flag and [k] the continuation: what has to
    match after [r]. *)
Fixpoint run (ic : bool) (r : regex) (k : mstate -> option mstate) (s : mstate)
  {struct r} : option mstate :=
  match r with
  | Eps => k s
  | Chr a => step (fun c => itemMatches ic c (IChar a)) k s
  | Dot => step (fun c => negb (JS.isLineTerminator c)) k s
  | Class neg items =>
      step (fun c => xorb neg (existsb (itemMatches ic c) items)) k s
  | Seq r1 r2 => run ic r1 (run ic r2 k) s
  | Alt r1 r2 =>
      match run ic r1 k s with
      | Some res => Some res
      | None => run ic r2 k s
      end
  | Star greedy r' => starLoop greedy (run ic r') k (String.length (rest s)) s
  | Opt greedy r' => optional greedy (run ic r') k s
  | Group n r' => run ic r' (fun s' => k (setCap n (pos s, pos s') s')) s
  | EndOfInput =>
      match rest s with
      | EmptyString => k s
      | String _ _ => None
      end
  end.

(** Tries the start positions from left to right; slot 0 of the captures
    receives the whole match. *)
Fixpoint search (ic : bool) (r : regex) (s : string) (i : nat) : option mstate :=
  match run ic (Group 0 r) Some (MState s i []) with
  | Some res => Some res
  | None =>
      match s with
      | EmptyString => None
      | String _ t => search ic r t (S i)
      end
  end.

Record RegExp : Type := { pattern : regex; ignoreCase : bool }.

Definition exec (re : RegExp) (input : string) : option mstate :=
  search (ignoreCase re) (pattern re) input 0.

(** The match array of [input.match(re)] for a pattern without the [g]
    flag is represented by the final state together with the input; [m[n]]
    is the text of group [n], [undefined] when the group took no part. *)
Record MatchArray : Type := { matched : mstate; subject : string }.

Definition match_ (input : string) (re : RegExp) : option MatchArray :=
  option_map (fun m => {| matched := m; subject := input |}) (exec re input).

Definition group (m : MatchArray) (n : nat) : option string :=
  match cap n (matched m) with
  | Some (i, j) => Some (substring i (j - i) (subject m))
  | None => None
  end.

(** [input.match(re)] used as a condition. *)
Definition test (input : string) (re : RegExp) : bool :=
  match match_ input re with Some _ => true | None => false end.

End RegExp.

(* ================================================================== *)
(** ** Completions: a value or a thrown exception *)

Inductive exn : Type :=
| TypeError
| SyntaxError
| NetworkError
| Error (message : string).

Inductive completion (A : Type) : Type :=
| Return (a : A)
| Throw (e : exn).

Arguments Return {A} a.
Arguments Throw {A} e.

Definition bind (A B : Type) (c : completion A) (k : A -> completion B)
  : completion B :=
  match c with
  | Return a => k a
  | Throw e => Throw e
  end.

Notation "x <- c ;; k" := (bind c (fun x => k))
  (at level 61, c at next level, right associativity).

(** [x.trim()] where [x] may be [undefined]. *)
Definition trimOf (x : option string) : completion string :=
  match x with
  | Some s => Return (JS.trim s)
  | None => Throw TypeError
  end.

(* ================================================================== *)
(** ** Data model *)

(** The node view passed to the parser: [{ id, label, index }]. *)
Record Node : Type := { id : string; label : string; index : Z }.

(** [AICommand['type']] of [src/types/flow.ts]. *)
Inductive CommandType : Type :=
| add_node | delete_node | update_node | connect_nodes | disconnect_nodes
| explain | unknown.

(** [AICommand]: every field but [type] is optional. *)
Record AICommand : Type :=
  { type : CommandType;
    nodeId : option string;
    nodeLabel : option string;
    sourceNodeId : option string;
    targetNodeId : option string;
    edgeId : option string;
    message : option string }.

Definition CommandType_eqb (a b : CommandType) : bool :=
  match a, b with
  | add_node, add_node | delete_node, delete_node | update_node, update_node
  | connect_nodes, connect_nodes | disconnect_nodes, disconnect_nodes
  | explain, explain | unknown, unknown => true
  | _, _ => false
  end.

(** Object literals of the source. *)
Definition commandOf (t : CommandType) : AICommand :=
  {| type := t; nodeId := None; nodeLabel := None; sourceNodeId := None;
     targetNodeId := None; edgeId := None; message := None |}.

Definition withNodeId (v : string) (c : AICommand) : AICommand :=
  {| type := type c; nodeId := Some v; nodeLabel := nodeLabel c;
     sourceNodeId := sourceNodeId c; targetNodeId := targetNodeId c;
     edgeId := edgeId c; message := message c |}.

Definition withNodeLabel (v : string) (c : AICommand) : AICommand :=
  {| type := type c; nodeId := nodeId c; nodeLabel := Some v;
     sourceNodeId := sourceNodeId c; targetNodeId := targetNodeId c;
     edgeId := edgeId c; message := message c |}.

Definition withSourceNodeId (v : string) (c : AICommand) : AICommand :=
  {| type := type c; nodeId := nodeId c; nodeLabel := nodeLabel c;
     sourceNodeId := Some v; targetNodeId := targetNodeId c;
     edgeId := edgeId c; message := message c |}.

Definition withTargetNodeId (v : string) (c : AICommand) : AICommand :=
  {| type := type c; nodeId := nodeId c; nodeLabel := nodeLabel c;
     sourceNodeId := sourceNodeId c; targetNodeId := Some v;
     edgeId := edgeId c; message := message c |}.

Definition withMessage (v : string) (c : AICommand) : AICommand :=
  {| type := type c; nodeId := nodeId c; nodeLabel := nodeLabel c;
     sourceNodeId := sourceNodeId c; targetNodeId := targetNodeId c;
     edgeId := edgeId c; message := Some v |}.

(** An optional string field used as a condition. *)
Definition present (x : option string) : bool :=
  match x with Some s => JS.truthy s | None => false end.

Definition dq : string := String "034" EmptyString.
Definition nl : string := String "010" EmptyString.

(** The label between double quotes. *)
Definition quoted (s : string) : string := dq ++ s ++ dq.

(** [nodes.map((n, i) => ...)]: the 1-based position, a dot, a space and
    the quoted label. *)
Fixpoint numberedFrom (i : nat) (nodes : list Node) : list string :=
  match nodes with
  | [] => []
  | n :: t =>
      (JS.showNat (i + 1) ++ ". " ++ quoted (label n))%string
      :: numberedFrom (S i) t
  end.

Definition numbered (nodes : list Node) : list string := numberedFrom 0 nodes.

(* ================================================================== *)
(** ** The patterns of [getEnhancedMockResponse] *)

(** In the comments the double quote of a pattern is written [\x22]. *)
Module Patterns.
Import RegExp.

Definition re (r : regex) : RegExp := {| pattern := r; ignoreCase := false |}.
Definition rei (r : regex) : RegExp := {| pattern := r; ignoreCase := true |}.

Definition anything : regex := Star true Dot.
Definition nodeWord : regex := alts ["node"; "step"; "state"].

(** [\s+[\x22']?([^\x22']+)[\x22']?] *)
Definition labelTail : list regex :=
  [Plus space; Opt true quote; Group 1 (Plus notQuote); Opt true quote].

(** [/(add|create|new|make|insert).*(node|step|state)/] *)
Definition addTrigger : RegExp :=
  re (seqs [Group 1 (alts ["add"; "create"; "new"; "make"; "insert"]);
            anything; Group 2 nodeWord]).

(** [/(?:called|named|with.*label|that.*says|saying|with.*text)\s+[\x22']?([^\x22']+)[\x22']?/i] *)
Definition addLabelPhrase : RegExp :=
  rei (seqs (altr [lit "called"; lit "named";
                   seqs [lit "with"; anything; lit "label"];
                   seqs [lit "that"; anything; lit "says"];
                   lit "saying";
                   seqs [lit "with"; anything; lit "text"]]
             :: labelTail)).

(** [/(?:node|step|state)\s+(?:called|named)\s+[\x22']?([^\x22']+)[\x22']?/i] *)
Definition addLabelNamed : RegExp :=
  rei (seqs (nodeWord :: Plus space :: alts ["called"; "named"] :: labelTail)).

(** [/(?:add|create|new|make)\s+(?:a\s+)?(?:node|step|state)\s+[\x22']?([^\x22']+)[\x22']?/i] *)
Definition addLabelBare : RegExp :=
  rei (seqs (alts ["add"; "create"; "new"; "make"] :: Plus space
             :: Opt true (Seq (lit "a") (Plus space)) :: nodeWord :: labelTail)).

(** [/[\x22']([^\x22']+)[\x22']/] *)
Definition quotedText : RegExp :=
  re (seqs [quote; Group 1 (Plus notQuote); quote]).

(** [/(delete|remove|drop|eliminate|get rid of).*(node|step|state)/] *)
Definition deleteTrigger : RegExp :=
  re (seqs [Group 1 (alts ["delete"; "remove"; "drop"; "eliminate"; "get rid of"]);
            anything; Group 2 nodeWord]).

(** [/(?:node|step|state)\s*(\d+)/i] *)
Definition nodeNumber : RegExp :=
  rei (seqs [nodeWord; Star true space; Group 1 (Plus digit)]).

(** [/(\d+)(?:\s|$)/] *)
Definition trailingNumber : RegExp :=
  re (seqs [Group 1 (Plus digit); Alt space EndOfInput]).

(** [/(?:the|a|an)\s+[\x22']?([^\x22']+?)(?:\s+(?:node|step|state))?[\x22']?$/i] *)
Definition deleteLabelArticle : RegExp :=
  rei (seqs [alts ["the"; "a"; "an"]; Plus space; Opt true quote;
             Group 1 (PlusLazy notQuote);
             Opt true (Seq (Plus space) nodeWord); Opt true quote; EndOfInput]).

(** [/(?:node|step|state)\s+[\x22']?([^\x22']+)[\x22']?/i] *)
Definition deleteLabelAfterWord : RegExp :=
  rei (seqs (nodeWord :: labelTail)).

(** [/(update|change|edit|modify|rename).*(node|step|state)/] *)
Definition updateTrigger : RegExp :=
  re (seqs [Group 1 (alts ["update"; "change"; "edit"; "modify"; "rename"]);
            anything; Group 2 nodeWord]).

(** [/(?:to|say|says|with|as|named|called)\s+[\x22']?([^\x22']+)[\x22']?/i] *)
Definition updateLabelPhrase : RegExp :=
  rei (seqs (alts ["to"; "say"; "says"; "with"; "as"; "named"; "called"]
             :: labelTail)).

(** [/(connect|link|join|attach).*(node|step|state)/] *)
Definition connectTrigger : RegExp :=
  re (seqs [Group 1 (alts ["connect"; "link"; "join"; "attach"]);
            anything; Group 2 nodeWord]).

(** [/(?:node|step|state)\s*(\d+).*(?:node|step|state)\s*(\d+)/i] *)
Definition twoNodeNumbers : RegExp :=
  rei (seqs [nodeWord; Star true space; Group 1 (Plus digit); anything;
             nodeWord; Star true space; Group 2 (Plus digit)]).

(** [/(\d+).*(\d+)/] *)
Definition twoNumbers : RegExp :=
  re (seqs [Group 1 (Plus digit); anything; Group 2 (Plus digit)]).

(** [/(disconnect|unlink|remove.*connection|delete.*edge|break.*connection)/] *)
Definition disconnectTrigger : RegExp :=
  re (Group 1 (altr [lit "disconnect"; lit "unlink";
                     seqs [lit "remove"; anything; lit "connection"];
                     seqs [lit "delete"; anything; lit "edge"];
                     seqs [lit "break"; anything; lit "connection"]])).

(** [/(explain|describe|what|how|tell.*about|show.*me|what.*does|what.*is)/] *)
Definition explainTrigger : RegExp :=
  re (Group 1 (altr [lit "explain"; lit "describe"; lit "what"; lit "how";
                     seqs [lit "tell"; anything; lit "about"];
                     seqs [lit "show"; anything; lit "me"];
                     seqs [lit "what"; anything; lit "does"];
                     seqs [lit "what"; anything; lit "is"]])).

End Patterns.

(* ================================================================== *)
(** ** [validateAndResolveCommand] *)

Definition isSome (A : Type) (x : option A) : bool :=
  match x with Some _ => true | None => false end.

(** The terms of a reference: [ref.toLowerCase().split(/\s+/)] filtered by
    [t.length > minLength]. *)
Definition termsLongerThan (minLength : nat) (ref : string) : list string :=
  filter (fun t => Nat.ltb minLength (String.length t))
         (JS.splitSpaces (JS.toLowerCase ref)).

Definition labelHasEvery (terms : list string) (n : Node) : bool :=
  forallb (fun term => JS.includes (JS.toLowerCase (label n)) term) terms.

Definition labelHasSome (terms : list string) (n : Node) : bool :=
  existsb (fun term => JS.includes (JS.toLowerCase (label n)) term) terms.

(** Lines 143-164: the node for a reference that is not an id, by exact
    label without case, then by every term, then by some term longer than
    two characters. *)
Definition nodeByLabel (ref : string) (nodes : list Node) : option Node :=
  let nodeByLabel :=
    find (fun n => String.eqb (JS.toLowerCase (label n)) (JS.toLowerCase ref)) nodes in
  let nodeByLabel :=
    if (negb (isSome nodeByLabel) && JS.truthy ref)%bool
    then find (labelHasEvery (termsLongerThan 0 ref)) nodes
    else nodeByLabel in
  if (negb (isSome nodeByLabel) && JS.truthy ref)%bool
  then find (labelHasSome (termsLongerThan 2 ref)) nodes
  else nodeByLabel.

(** The message of line 171. *)
Definition notFoundMessage (ref : string) (nodes : list Node) : string :=
  "Node " ++ quoted ref ++ " not found. Available nodes: "
  ++ JS.join ", " (map (fun n => quoted (label n)) nodes).

Definition connectFailure : string :=
  "Could not find one or both nodes to connect/disconnect.".

(** Lines 180-181: the first node whose id or label is the reference. *)
Definition nodeByIdOrLabel (ref : string) (nodes : list Node) : option Node :=
  find (fun n => (String.eqb (id n) ref || String.eqb (label n) ref)%bool) nodes.

Definition isDeleteOrUpdate (t : CommandType) : bool :=
  (CommandType_eqb t delete_node || CommandType_eqb t update_node)%bool.

Definition isConnectOrDisconnect (t : CommandType) : bool :=
  (CommandType_eqb t connect_nodes || CommandType_eqb t disconnect_nodes)%bool.

(** Lines 178-193, on the command as the first block left it. *)
Definition resolveEndpoints (command : AICommand) (nodes : list Node) : AICommand :=
  if isConnectOrDisconnect (type command)
  then
    match sourceNodeId command, targetNodeId command with
    | Some source, Some target =>
        if (JS.truthy source && JS.truthy target)%bool
        then
          match nodeByIdOrLabel source nodes, nodeByIdOrLabel target nodes with
          | Some sourceNode, Some targetNode =>
              withTargetNodeId (id targetNode)
                (withSourceNodeId (id sourceNode) command)
          | _, _ => withMessage connectFailure (commandOf unknown)
          end
        else command
    | _, _ => command
    end
  else command.

Definition validateAndResolveCommand (command : AICommand) (nodes : list Node)
  : AICommand :=
  if (isDeleteOrUpdate (type command) && present (nodeId command))%bool
  then
    match nodeId command with
    | Some ref =>
        match find (fun n => String.eqb (id n) ref) nodes with
        | Some nodeExists => resolveEndpoints command nodes
        | None =>
            match nodeByLabel ref nodes with
            | Some node => resolveEndpoints (withNodeId (id node) command) nodes
            | None => withMessage (notFoundMessage ref nodes) (commandOf unknown)
            end
        end
    | None => resolveEndpoints command nodes
    end
  else resolveEndpoints command nodes.

(* ================================================================== *)
(** ** [getEnhancedMockResponse] *)

Import Patterns.

(** [nodes[nodeNumber - 1]], where [nodeNumber] may be NaN. *)
Definition byOrdinal (nodes : list Node) (nodeNumber : option Z) : option Node :=
  JS.at_ nodes (option_map (fun z => z - 1)%Z nodeNumber).

(** [nodes[parseInt(m[n]) - 1]] *)
Definition nodeAtOrdinal (m : RegExp.MatchArray) (n : nat) (nodes : list Node)
  : option Node :=
  byOrdinal nodes (JS.parseInt (RegExp.group m n)).

Definition commonWords : list string :=
  ["the"; "a"; "an"; "node"; "step"; "state"; "nodes"; "steps"; "states"].

Definition isCommonWord (term : string) : bool :=
  existsb (String.eqb term) commonWords.

(** Lines 248-277: the node for the lower-cased search label of a delete
    command. *)
Definition nodeBySearchLabel (searchLabel : string) (nodes : list Node)
  : option Node :=
  let searchTerms :=
    filter (fun t => Nat.ltb 0 (String.length t)) (JS.splitSpaces searchLabel) in
  let filteredTerms := filter (fun term => negb (isCommonWord term)) searchTerms in
  let finalTerms :=
    if Nat.ltb 0 (List.length filteredTerms) then filteredTerms else searchTerms in
  let node :=
    find (fun n => String.eqb (JS.toLowerCase (label n)) searchLabel) nodes in
  let node :=
    if (negb (isSome node) && Nat.ltb 0 (List.length finalTerms))%bool
    then find (labelHasEvery finalTerms) nodes
    else node in
  if (negb (isSome node) && Nat.ltb 0 (List.length finalTerms))%bool
  then
    let significantTerms :=
      filter (fun t => Nat.ltb 2 (String.length t)) finalTerms in
    if Nat.ltb 0 (List.length significantTerms)
    then find (labelHasSome significantTerms) nodes
    else node
  else node.

Definition deleteFailure (nodes : list Node) : string :=
  "Could not find the node to delete. Available nodes: "
  ++ (if Nat.ltb 0 (List.length nodes) then JS.join ", " (numbered nodes)
      else "none").

Definition updateFailure : string :=
  "Could not parse update command. Format: " ++ quoted "Update node 1 to say Welcome".

Definition connectUsage : string :=
  "Could not find the nodes to connect. Format: " ++ quoted "Connect node 1 to node 2".

Definition disconnectUsage : string := "Could not find the nodes to disconnect.".

Definition emptyFlow : string :=
  "The flow is currently empty. Add some nodes to get started!".

Definition flowStructure (nodes : list Node) : string :=
  "Current flow structure:" ++ nl ++ nl ++ "Nodes:" ++ nl
  ++ JS.join nl (numbered nodes) ++ nl ++ nl ++ "Total: "
  ++ JS.showNat (List.length nodes) ++ " node(s)".

Definition notUnderstood : string :=
  "I didn't understand that command. Try: " ++ quoted "Add a node called X"
  ++ ", " ++ quoted "Delete node 1" ++ ", " ++ quoted "Delete the end call node"
  ++ ", " ++ quoted "Connect node 1 to node 2" ++ ", or "
  ++ quoted "Update node 1 to say Y".

(** Lines 208-220 *)
Definition addDetector (input : string) (nodes : list Node) : completion AICommand :=
  let labelMatch :=
    JS.orElse (RegExp.match_ input addLabelPhrase)
      (JS.orElse (RegExp.match_ input addLabelNamed)
         (JS.orElse (RegExp.match_ input addLabelBare)
            (RegExp.match_ input quotedText))) in
  label <- match labelMatch with
           | Some m => trimOf (RegExp.group m 1)
           | None => Return ("Node " ++ JS.showNat (List.length nodes + 1))
           end ;;
  Return (withNodeLabel label (commandOf add_node)).

(** Lines 223-291 *)
Definition deleteDetector (input : string) (nodes : list Node) : completion AICommand :=
  let nodeIdMatch :=
    JS.orElse (RegExp.match_ input nodeNumber) (RegExp.match_ input trailingNumber) in
  let byNumber :=
    match nodeIdMatch with
    | Some m => nodeAtOrdinal m 1 nodes
    | None => None
    end in
  match byNumber with
  | Some node => Return (withNodeId (id node) (commandOf delete_node))
  | None =>
      let labelMatch :=
        JS.orElse (RegExp.match_ input deleteLabelArticle)
          (JS.orElse (RegExp.match_ input deleteLabelAfterWord)
             (RegExp.match_ input quotedText)) in
      byLabel <- match labelMatch with
                 | Some m =>
                     trimmed <- trimOf (RegExp.group m 1) ;;
                     Return (nodeBySearchLabel (JS.toLowerCase trimmed) nodes)
                 | None => Return None
                 end ;;
      match byLabel with
      | Some node => Return (withNodeId (id node) (commandOf delete_node))
      | None => Return (withMessage (deleteFailure nodes) (commandOf unknown))
      end
  end.

(** Lines 294-317 *)
Definition updateDetector (input : string) (nodes : list Node) : completion AICommand :=
  let nodeIdMatch := RegExp.match_ input nodeNumber in
  let labelMatch :=
    JS.orElse (RegExp.match_ input updateLabelPhrase) (RegExp.match_ input quotedText) in
  let failure := Return (withMessage updateFailure (commandOf unknown)) in
  match nodeIdMatch, labelMatch with
  | Some idMatch, Some m =>
      let node := nodeAtOrdinal idMatch 1 nodes in
      newLabel <- trimOf (RegExp.group m 1) ;;
      match node with
      | Some node =>
          Return (withNodeLabel newLabel (withNodeId (id node) (commandOf update_node)))
      | None => failure
      end
  | _, _ => failure
  end.

(** Lines 321-337 and 347-363: both endpoints by number. *)
Definition endpointsDetector (t : CommandType) (usage : string)
  (input : string) (nodes : list Node) : completion AICommand :=
  let nodesMatch :=
    JS.orElse (RegExp.match_ input twoNodeNumbers) (RegExp.match_ input twoNumbers) in
  let failure := Return (withMessage usage (commandOf unknown)) in
  match nodesMatch with
  | Some m =>
      match nodeAtOrdinal m 1 nodes, nodeAtOrdinal m 2 nodes with
      | Some sourceNode, Some targetNode =>
          Return (withTargetNodeId (id targetNode)
                    (withSourceNodeId (id sourceNode) (commandOf t)))
      | _, _ => failure
      end
  | None => failure
  end.

(** Lines 373-386 *)
Definition explainDetector (nodes : list Node) : completion AICommand :=
  if Nat.eqb (List.length nodes) 0
  then Return (withMessage emptyFlow (commandOf explain))
  else Return (withMessage (flowStructure nodes) (commandOf explain)).

Definition getEnhancedMockResponse (userInput : string) (nodes : list Node)
  : completion AICommand :=
  let input := JS.trim (JS.toLowerCase userInput) in
  if RegExp.test input addTrigger then addDetector input nodes
  else if RegExp.test input deleteTrigger then deleteDetector input nodes
  else if RegExp.test input updateTrigger then updateDetector input nodes
  else if RegExp.test input connectTrigger
       then endpointsDetector connect_nodes connectUsage input nodes
  else if RegExp.test input disconnectTrigger
       then endpointsDetector disconnect_nodes disconnectUsage input nodes
  else if RegExp.test input explainTrigger then explainDetector nodes
  else Return (withMessage notUnderstood (commandOf unknown)).

Definition twoNodes : list Node :=
  [ {| id := "n1"; label := "Start"; index := 0 |};
    {| id := "n2"; label := "End Call"; index := 1 |} ].

Definition phaseNodes : list Node :=
  [ {| id := "n1"; label := "Start"; index := 0 |};
    {| id := "n2"; label := "Phase 5"; index := 1 |} ].


(* ================================================================== *)
(** ** [parseAICommand] and the remote collaborator *)

(** The values a response body or a parsed text can hold.  Numbers are only
    inspected as conditions or handed on, so an integer stands for each of
    them. *)
Local Unset Elimination Schemes.
Inductive JSValue : Type :=
| JUndefined
| JNull
| JBool (b : bool)
| JNum (n : Z)
| JStr (s : string)
| JArr (items : list JSValue)
| JObj (fields : list (string * JSValue)).
Local Set Elimination Schemes.

Definition truthyValue (v : JSValue) : bool :=
  match v with
  | JUndefined | JNull => false
  | JBool b => b
  | JNum n => negb (Z.eqb n 0)
  | JStr s => JS.truthy s
  | JArr _ | JObj _ => true
  end.

Fixpoint lookupField (name : string) (fields : list (string * JSValue)) : JSValue :=
  match fields with
  | [] => JUndefined
  | (k, v) :: t => if String.eqb k name then v else lookupField name t
  end.

(** [v.name] for the property names read by the source ([success],
    [error], [data], [generated_text], [type]): a [TypeError] on [null] and
    [undefined], [undefined] on values without such a property. *)
Definition getProp (v : JSValue) (name : string) : completion JSValue :=
  match v with
  | JUndefined | JNull => Throw TypeError
  | JObj fields => Return (lookupField name fields)
  | _ => Return JUndefined
  end.

(** [v[0]?.name] *)
Definition firstProp (items : list JSValue) (name : string) : completion JSValue :=
  match items with
  | [] | JUndefined :: _ | JNull :: _ => Return JUndefined
  | first :: _ => getProp first name
  end.

(** [apiResponse]: only its [json()] is used, which resolves or rejects. *)
Record Response : Type := { json : completion JSValue }.

(** What the surroundings answer during one call: the configured key and
    the outcome of the single [fetch('/api/ai', ...)]. *)
Record Remote : Type :=
  { apiKey : option string;
    fetch : completion Response }.

Module CleanUp.
Import RegExp.

Definition fence : string := "```".

(** [/```json\n?/g] *)
Definition jsonFence : regex := Seq (lit "```json") (Opt true (Chr "010")).
(** [/```\n?/g] *)
Definition anyFence : regex := Seq (lit "```") (Opt true (Chr "010")).
(** [/\{[\s\S]*\}/] *)
Definition braces : RegExp :=
  {| pattern := seqs [Chr "{"; Star true (Class false [ISpace; INotSpace]); Chr "}"];
     ignoreCase := false |}.

(** [s.replace(/r/g, '')]: every match is dropped, left to right; [skip]
    counts the characters of the current match still to drop. *)
Fixpoint removeAll (r : regex) (s : string) (i : nat) (skip : nat) : string :=
  match s with
  | EmptyString => EmptyString
  | String c t =>
      match skip with
      | S k => removeAll r t (S i) k
      | O =>
          match run false (Group 0 r) Some (MState s i []) with
          | Some res =>
              match pos res - i with
              | O => String c (removeAll r t (S i) 0)
              | S k => removeAll r t (S i) k
              end
          | None => String c (removeAll r t (S i) 0)
          end
      end
  end.

(** Lines 107-116, from the trimmed text on. *)
Definition jsonTextOf (trimmed : string) : string :=
  let jsonText := trimmed in
  let jsonText :=
    if JS.startsWith jsonText fence
    then JS.trim (removeAll anyFence (removeAll jsonFence jsonText 0 0) 0 0)
    else jsonText in
  match match_ jsonText braces with
  | Some jsonMatch =>
      match group jsonMatch 0 with
      | Some whole => whole
      | None => jsonText
      end
  | None => jsonText
  end.

End CleanUp.

(* ================================================================== *)
(** ** [validateAndResolveCommand] on the value [JSON.parse] returns *)

(** The cast of line 118, [const command: AICommand = JSON.parse(jsonText)],
    checks nothing: [validateAndResolveCommand] receives whatever value the
    text holds.  [validateValue] is lines 133-196 on such a value.  On an
    object whose [type] is one of the seven names and whose other fields are
    strings or absent it does what [validateAndResolveCommand] above does on
    the command of the declared type. *)

(** [v.name] on a value that is neither [null] nor [undefined]. *)
Definition field (v : JSValue) (name : string) : JSValue :=
  match v with
  | JObj fields => lookupField name fields
  | _ => JUndefined
  end.

(** [a === v] for a string [a]. *)
Definition isString (a : string) (v : JSValue) : bool :=
  match v with
  | JStr s => String.eqb a s
  | _ => false
  end.

(** [command.name = v] on an object: the property is replaced where it is,
    or added last. *)
Fixpoint setField (name : string) (v : JSValue) (fields : list (string * JSValue))
  : list (string * JSValue) :=
  match fields with
  | [] => [(name, v)]
  | (k, old) :: t =>
      if String.eqb k name then (k, v) :: t else (k, old) :: setField name v t
  end.

Definition assign (command : JSValue) (name : string) (v : JSValue) : JSValue :=
  match command with
  | JObj fields => JObj (setField name v fields)
  | _ => command
  end.

(** The names of [AICommand['type']]. *)
Definition typeName (t : CommandType) : string :=
  match t with
  | add_node => "add_node"
  | delete_node => "delete_node"
  | update_node => "update_node"
  | connect_nodes => "connect_nodes"
  | disconnect_nodes => "disconnect_nodes"
  | explain => "explain"
  | unknown => "unknown"
  end.

(** The object literal [{ type: 'unknown', message }]. *)
Definition unknownValue (text : string) : JSValue :=
  JObj [("type", JStr "unknown"); ("message", JStr text)].

(** Lines 178-193. *)
Definition resolveEndpointsValue (command : JSValue) (nodes : list Node) : JSValue :=
  let type := field command "type" in
  if (isString "connect_nodes" type || isString "disconnect_nodes" type)%bool
  then
    let source := field command "sourceNodeId" in
    let target := field command "targetNodeId" in
    if (truthyValue source && truthyValue target)%bool
    then
      match find (fun n => (isString (id n) source || isString (label n) source)%bool)
              nodes,
            find (fun n => (isString (id n) target || isString (label n) target)%bool)
              nodes with
      | Some sourceNode, Some targetNode =>
          assign (assign command "sourceNodeId" (JStr (id sourceNode)))
            "targetNodeId" (JStr (id targetNode))
      | _, _ => unknownValue connectFailure
      end
    else command
  else command.

(** Lines 133-196.  [command.type] throws on [null].  When no node has
    [command.nodeId] as its id, the label lookups call [toLowerCase] on it,
    in the callback of line 144 when there are nodes and on line 149 when
    there are none: a [TypeError] unless it is a string. *)
Definition validateValue (command : JSValue) (nodes : list Node)
  : completion JSValue :=
  type <- getProp command "type" ;;
  let nodeId := field command "nodeId" in
  if ((isString "delete_node" type || isString "update_node" type)
      && truthyValue nodeId)%bool
  then
    match find (fun n => isString (id n) nodeId) nodes with
    | Some nodeExists => Return (resolveEndpointsValue command nodes)
    | None =>
        match nodeId with
        | JStr ref =>
            match nodeByLabel ref nodes with
            | Some node =>
                Return (resolveEndpointsValue
                          (assign command "nodeId" (JStr (id node))) nodes)
            | None => Return (unknownValue (notFoundMessage ref nodes))
            end
        | _ => Throw TypeError
        end
    end
  else Return (resolveEndpointsValue command nodes).

(** A command of the rule-based parser as the object literal the source
    returns: [type] and the fields that are set. *)
Definition optionalField (name : string) (x : option string)
  : list (string * JSValue) :=
  match x with
  | Some s => [(name, JStr s)]
  | None => []
  end.

Definition valueOf (c : AICommand) : JSValue :=
  JObj ((("type", JStr (typeName (type c))) :: optionalField "nodeId" (nodeId c))
        ++ optionalField "nodeLabel" (nodeLabel c)
        ++ optionalField "sourceNodeId" (sourceNodeId c)
        ++ optionalField "targetNodeId" (targetNodeId c)
        ++ optionalField "edgeId" (edgeId c)
        ++ optionalField "message" (message c))%list.

Definition answer (c : completion AICommand) : completion JSValue :=
  command <- c ;; Return (valueOf command).

Section ParseAICommand.

(** [JSON.parse]: the value a text holds; [None] is a [SyntaxError]. *)
Variable JSON_parse : string -> option JSValue.

Definition failedBody : JSValue :=
  JObj [("success", JBool false); ("error", JStr "Failed to parse response")].

(** Lines 94-104: the text of the response; [None] is the early return of
    line 103. *)
Definition textOf (data : JSValue) : completion (option JSValue) :=
  generated <- getProp data "generated_text" ;;
  if truthyValue generated then Return (Some generated)
  else
    match data with
    | JStr _ => Return (Some data)
    | JArr items =>
        first <- firstProp items "generated_text" ;;
        if truthyValue first then Return (Some first) else Return None
    | _ => Return None
    end.

(** [text.trim()]: only strings have the method. *)
Definition trimValue (text : JSValue) : completion string :=
  match text with
  | JStr s => Return (JS.trim s)
  | _ => Throw TypeError
  end.

Definition errorOf (apiData : JSValue) : exn :=
  match apiData with
  | JObj fields =>
      match lookupField "error" fields with
      | JStr m => if JS.truthy m then Error m else Error "API request failed"
      | _ => Error "API request failed"
      end
  | _ => Error "API request failed"
  end.

(** The body of the [try] block, lines 20-121; [None] is the early return
    of line 103. *)
Definition attempt (remote : Remote) (nodes : list Node)
  : completion (option JSValue) :=
  apiResponse <- fetch remote ;;
  let apiData :=
    match json apiResponse with
    | Return v => v
    | Throw _ => failedBody
    end in
  success <- getProp apiData "success" ;;
  if negb (truthyValue success) then Throw (errorOf apiData)
  else
    data <- getProp apiData "data" ;;
    text <- textOf data ;;
    match text with
    | None => Return None
    | Some text =>
        trimmed <- trimValue text ;;
        match JSON_parse (CleanUp.jsonTextOf trimmed) with
        | Some command =>
            validated <- validateValue command nodes ;;
            Return (Some validated)
        | None => Throw SyntaxError
        end
    end.

(** The promise resolves with the value the validator returned, or with the
    object literal of the rule-based parser. *)
Definition parseAICommand (remote : Remote) (userInput : string)
  (nodes : list Node) : completion JSValue :=
  if negb (present (apiKey remote))
  then answer (getEnhancedMockResponse userInput nodes)
  else
    match attempt remote nodes with
    | Return (Some command) => Return command
    | Return None => answer (getEnhancedMockResponse userInput nodes)
    | Throw _ => answer (getEnhancedMockResponse userInput nodes)
    end.

End ParseAICommand.

(* ================================================================== *)
(** ** The flow and its owner: [Home] of [src/app/page.tsx], with
       [handleConnect] of [src/components/FlowCanvas.tsx] and the id
       generators of [src/lib/utils.ts] *)

(** A node of the canvas.  Of the library's node only the properties this
    code reads or writes are kept: [id], [type], [position] and
    [data.label]. *)
Module FlowNode.
Record t (XYPosition : Type) : Type :=
  { id : string; type : option string; position : XYPosition; label : string }.
End FlowNode.

(** An edge: [id], [source], [target] and [type]. *)
Module FlowEdge.
Record t : Type :=
  { id : string; source : string; target : string; type : option string }.
End FlowEdge.

(** The connection the canvas reports: each end is a node id or [null]. *)
Module Connection.
Record t : Type := { source : option string; target : option string }.
End Connection.

Module Utils.

(** [`node-${Date.now()}-${Math.random().toString(36).substr(2, 9)}`], as a
    function of the clock and of the base-36 rendering of the random
    number. *)
Definition generateNodeId (now : N) (random36 : string) : string :=
  "node-" ++ NilEmpty.string_of_uint (N.to_uint now) ++ "-"
  ++ String.substring 2 9 random36.

Definition generateEdgeId (now : N) (random36 : string) : string :=
  "edge-" ++ NilEmpty.string_of_uint (N.to_uint now) ++ "-"
  ++ String.substring 2 9 random36.

End Utils.

Module Home.

Section Canvas.

(** [{ x: number, y: number }] *)
Variable XYPosition : Type.

(** The state of the component: [nodes] and [edges].

    A callback is made during a render and reads the state of that render:
    [rendered] below is the state its closure holds, of which the source
    reads [edges] and [nodes.length].  The updater a callback gives to
    [setNodes] or [setEdges] runs on [current], the state at the time of the
    update.  The two are the same flow when the callback of the last render
    is called and no update is pending; they differ when a callback is called
    again before the component has rendered. *)
Record Flow : Type :=
  { nodes : list (FlowNode.t XYPosition); edges : list FlowEdge.t }.

(** What the surroundings give a handler: the clock, the rendering of
    [Math.random()] in base 36, and the random position. *)
Record Chance : Type :=
  { now : N; random36 : string; position : XYPosition }.

(** [edge.source === s && edge.target === t] for ends that may be [null]. *)
Definition joins (s t : option string) (edge : FlowEdge.t) : bool :=
  match s, t with
  | Some s, Some t =>
      (String.eqb (FlowEdge.source edge) s && String.eqb (FlowEdge.target edge) t)%bool
  | _, _ => false
  end.

Definition newEdge (chance : Chance) (s t : string) : FlowEdge.t :=
  {| FlowEdge.id := Utils.generateEdgeId (now chance) (random36 chance);
     FlowEdge.source := s; FlowEdge.target := t;
     FlowEdge.type := Some "smoothstep" |}.

Definition newNode (chance : Chance) (text : string) : FlowNode.t XYPosition :=
  {| FlowNode.id := Utils.generateNodeId (now chance) (random36 chance);
     FlowNode.type := Some "custom";
     FlowNode.position := position chance;
     FlowNode.label := text |}.

(** [`Node ${nodes.length + 1}`] *)
Definition defaultLabel (flow : Flow) : string :=
  "Node " ++ JS.showNat (List.length (nodes flow) + 1).

(** Lines 111-126: [edges.some] reads the closure, [setEdges] appends to the
    current edges. *)
Definition onConnect (connection : Connection.t) (chance : Chance)
  (rendered current : Flow) : Flow :=
  let edgeExists :=
    existsb (joins (Connection.source connection) (Connection.target connection))
      (edges rendered) in
  match Connection.source connection, Connection.target connection with
  | Some s, Some t =>
      if (negb edgeExists && JS.truthy s && JS.truthy t)%bool
      then {| nodes := nodes current;
              edges := edges current ++ [newEdge chance s t] |}
      else current
  | _, _ => current
  end.

(** [handleConnect] of the canvas, lines 136-147: the connection goes on to
    [onConnect] when both ends are there; the id it adds is not read. *)
Definition handleConnect (params : Connection.t) (chance : Chance)
  (rendered current : Flow) : Flow :=
  if (present (Connection.source params) && present (Connection.target params))%bool
  then onConnect params chance rendered current
  else current.

(** Lines 129-137: the label counts the nodes of the closure, [setNodes]
    appends to the current nodes. *)
Definition handleAddNode (chance : Chance) (rendered current : Flow) : Flow :=
  {| nodes := nodes current ++ [newNode chance (defaultLabel rendered)];
     edges := edges current |}.

(** Lines 140-144: two updaters, no read of the closure. *)
Definition handleDeleteNode (nodeId : string) (flow : Flow) : Flow :=
  {| nodes := filter (fun node => negb (String.eqb (FlowNode.id node) nodeId))
                (nodes flow);
     edges := filter (fun edge =>
                        (negb (String.eqb (FlowEdge.source edge) nodeId)
                         && negb (String.eqb (FlowEdge.target edge) nodeId))%bool)
                (edges flow) |}.

Definition relabel (text : string) (node : FlowNode.t XYPosition)
  : FlowNode.t XYPosition :=
  {| FlowNode.id := FlowNode.id node; FlowNode.type := FlowNode.type node;
     FlowNode.position := FlowNode.position node; FlowNode.label := text |}.

(** Lines 147-153: an updater, no read of the closure. *)
Definition handleUpdateNodeLabel (nodeId text : string) (flow : Flow) : Flow :=
  {| nodes := map (fun node => if String.eqb (FlowNode.id node) nodeId
                               then relabel text node else node)
                (nodes flow);
     edges := edges flow |}.

(** Lines 156-161, with the answer to [confirm]. *)
Definition handleClearAll (confirmed : bool) (flow : Flow) : Flow :=
  if confirmed then {| nodes := []; edges := [] |} else flow.

(** Lines 205-269.  The [add_node] case reads [nodes.length] of the closure
    and the [connect_nodes] case its [edges]; every change is an updater on
    the current state. *)
Definition handleAICommand (command : AICommand) (chance : Chance)
  (rendered current : Flow) : Flow :=
  match type command with
  | add_node =>
      let text :=
        match nodeLabel command with
        | Some text => if JS.truthy text then text else defaultLabel rendered
        | None => defaultLabel rendered
        end in
      {| nodes := nodes current ++ [newNode chance text]; edges := edges current |}
  | delete_node =>
      match nodeId command with
      | Some nodeId =>
          if JS.truthy nodeId then handleDeleteNode nodeId current else current
      | None => current
      end
  | update_node =>
      match nodeId command, nodeLabel command with
      | Some nodeId, Some text =>
          if (JS.truthy nodeId && JS.truthy text)%bool
          then handleUpdateNodeLabel nodeId text current
          else current
      | _, _ => current
      end
  | connect_nodes =>
      match sourceNodeId command, targetNodeId command with
      | Some s, Some t =>
          if (JS.truthy s && JS.truthy t)%bool
          then
            let edgeExists := existsb (joins (Some s) (Some t)) (edges rendered) in
            if negb edgeExists
            then {| nodes := nodes current;
                    edges := edges current ++ [newEdge chance s t] |}
            else current
          else current
      | _, _ => current
      end
  | disconnect_nodes =>
      match sourceNodeId command, targetNodeId command with
      | Some s, Some t =>
          if (JS.truthy s && JS.truthy t)%bool
          then {| nodes := nodes current;
                  edges := filter (fun edge => negb (joins (Some s) (Some t) edge))
                             (edges current) |}
          else current
      | _, _ => current
      end
  | explain | unknown => current
  end.

End Canvas.

End Home.

(* ================================================================== *)
(** ** The server route: [POST] of [src/app/api/ai/route.ts] *)

Module Route.

(** The answer of the model provider: [response.ok], [response.status],
    [response.statusText] and the outcome of [response.json()]. *)
Record Upstream : Type :=
  { ok : bool; status : nat; statusText : string; json : completion JSValue }.

(** What the surroundings answer during one request: the outcome of
    [request.json()], the two environment variables and the outcome of the
    request to the provider. *)
Record Server : Type :=
  { requestBody : completion JSValue;
    publicKey : option string;      (* NEXT_PUBLIC_SARVAM_API_KEY *)
    secretKey : option string;      (* SARVAM_API_KEY *)
    upstream : completion Upstream }.

(** [v[0]] on a value that is not [null] or [undefined]. *)
Definition first (v : JSValue) : JSValue :=
  match v with
  | JArr (x :: _) => x
  | JStr (String c _) => JStr (String c EmptyString)
  | JObj fields => lookupField "0" fields
  | _ => JUndefined
  end.

(** [x || text] where [text] is a string that is not empty. *)
Definition orText (x : JSValue) (text : string) : JSValue :=
  if truthyValue x then x else JStr text.

Definition failure (error : JSValue) : JSValue :=
  JObj [("error", error); ("success", JBool false)].

Definition success (text : JSValue) : JSValue :=
  JObj [("success", JBool true); ("data", JObj [("generated_text", text)])].

(** Lines 53-64: the text of the provider's answer; [None] is the
    unexpected format. *)
Definition textOfAnswer (data : JSValue) : completion (option JSValue) :=
  let fromContent :=
    content <- getProp data "content" ;;
    if truthyValue content then Return (Some content) else Return None in
  choices <- getProp data "choices" ;;
  if truthyValue choices
  then
    if truthyValue (first choices)
    then
      message <- getProp (first choices) "message" ;;
      if truthyValue message
      then content <- getProp message "content" ;; Return (Some content)
      else fromContent
    else fromContent
  else fromContent.

Section Post.

(** [error.message] of what was thrown. *)
Variable messageOf : exn -> string.

(** [try { ... } catch (error) { ... error.message || text ... }] *)
Definition caught (text : string) (body : completion JSValue) : completion JSValue :=
  match body with
  | Return v => Return v
  | Throw e => Return (failure (orText (JStr (messageOf e)) text))
  end.

(** Lines 17-68, the inner [try] block. *)
Definition ask (server : Server) : completion JSValue :=
  response <- upstream server ;;
  if negb (ok response)
  then
    let errorData :=
      match json response with
      | Return v => v
      | Throw _ =>
          JObj [("error", JStr ("HTTP " ++ JS.showNat (status response) ++ ": "
                                ++ statusText response))]
      end in
    error <- getProp errorData "error" ;;
    Return (failure (orText error "API request failed"))
  else
    data <- json response ;;
    text <- textOfAnswer data ;;
    match text with
    | Some text => Return (success text)
    | None => Return (failure (JStr "Unexpected API response format"))
    end.

(** Lines 3-81: the body of the answer, always sent with status 200. *)
Definition POST (server : Server) : completion JSValue :=
  caught "Internal server error"
    (body <- requestBody server ;;
     _ <- getProp body "prompt" ;;
     let apiKey := if present (publicKey server) then publicKey server
                   else secretKey server in
     if negb (present apiKey)
     then Return (failure (JStr "API key not configured"))
     else caught "API request failed" (ask server)).

End Post.

(** What [JSON.stringify] and [JSON.parse] make of a value on its way to the
    browser: a property that is [undefined] is left out, an element that is
    [undefined] becomes [null]. *)
Fixpoint wire (v : JSValue) : JSValue :=
  match v with
  | JArr items =>
      JArr (map (fun x => match x with JUndefined => JNull | _ => wire x end) items)
  | JObj fields =>
      JObj ((fix go (fs : list (string * JSValue)) : list (string * JSValue) :=
               match fs with
               | [] => []
               | (k, x) :: t =>
                   match x with
                   | JUndefined => go t
                   | _ => (k, wire x) :: go t
                   end
               end) fields)
  | _ => v
  end.

End Route.

(** The remote collaborator of a browser whose request reaches this route:
    the body the route answers is what [apiResponse.json()] resolves to. *)
Definition viaRoute (messageOf : exn -> string) (clientKey : option string)
  (server : Route.Server) : Remote :=
  {| apiKey := clientKey;
     fetch := match Route.POST messageOf server with
              | Return body => Return {| json := Return (Route.wire body) |}
              | Throw e => Throw e
              end |}.

(* ================================================================== *)
(** * Specification *)

(** ** Properties of matches *)

Module RegExpSpec.
Import RegExp.

(** [sets g r]: every successful match of [r] goes through group [g]. *)
Fixpoint sets (g : nat) (r : regex) : bool :=
  match r with
  | Seq r1 r2 => sets g r1 || sets g r2
  | Alt r1 r2 => sets g r1 && sets g r2
  | Group n r' => Nat.eqb n g || sets g r'
  | _ => false
  end.

(** Captures are never erased. *)
Definition keeps (s s' : mstate) : Prop :=
  forall i, cap i s <> None -> cap i s' <> None.

(** What a successful run guarantees: the continuation was entered, in a
    state that kept the captures and went through the groups [r] sets. *)
Definition entered (r : regex) (k : mstate -> option mstate) (s res : mstate) : Prop :=
  exists s', k s' = Some res /\ keeps s s'
             /\ forall g, sets g r = true -> cap g s' <> None.

(** A body that enters its continuation makes the quantifiers do so. *)
Definition enters (body : matcher) : Prop :=
  forall k s res, body k s = Some res -> exists s', k s' = Some res /\ keeps s s'.

(** [reach s s']: [s'] reads the same input as [s], further on. *)
Definition reach (s s' : mstate) : Prop :=
  String.length (rest s') <= String.length (rest s)
  /\ pos s' + String.length (rest s') = pos s + String.length (rest s).

(** A matcher only looks at its continuation further on in the input. *)
Definition local (body : matcher) : Prop :=
  forall k1 k2 s, (forall s', reach s s' -> k1 s' = k2 s') -> body k1 s = body k2 s.

(** [r] contains a capturing group. *)
Fixpoint hasGroup (r : regex) : bool :=
  match r with
  | Seq r1 r2 | Alt r1 r2 => hasGroup r1 || hasGroup r2
  | Star _ r' | Opt _ r' => hasGroup r'
  | Group _ _ => true
  | _ => false
  end.

(** The matcher does not reset the captures of a quantified group at each
    iteration; [plainLoops r] says that [r] has no such group. *)
Fixpoint plainLoops (r : regex) : bool :=
  match r with
  | Seq r1 r2 | Alt r1 r2 => plainLoops r1 && plainLoops r2
  | Star _ r' | Opt _ r' => negb (hasGroup r')
  | Group _ r' => plainLoops r'
  | _ => true
  end.

End RegExpSpec.

(** ** Properties of commands, drafts and responses *)

(** [x] is the id of a node of the list. *)
Definition knownId (nodes : list Node) (x : option string) : Prop :=
  exists n, In n nodes /\ x = Some (id n).

(** The node identifiers a command of its type carries are ids of nodes of
    the list. *)
Definition resolved (nodes : list Node) (c : AICommand) : Prop :=
  match type c with
  | delete_node | update_node => knownId nodes (nodeId c)
  | connect_nodes | disconnect_nodes =>
      knownId nodes (sourceNodeId c) /\ knownId nodes (targetNodeId c)
  | add_node | explain | unknown => True
  end.

(** The references a draft of its type needs are present and not empty. *)
Definition referencesPresent (c : AICommand) : bool :=
  match type c with
  | delete_node | update_node => present (nodeId c)
  | connect_nodes | disconnect_nodes =>
      present (sourceNodeId c) && present (targetNodeId c)
  | add_node | explain | unknown => true
  end.

(** An [unknown] command that carries a diagnostic. *)
Definition diagnostic (c : AICommand) : Prop :=
  type c = unknown /\ exists text, message c = Some text /\ JS.truthy text = true.

(** The cascade of lines 140-164 as one lookup: a known id first, then the
    label. *)
Definition resolveReference (ref : string) (nodes : list Node) : option Node :=
  match find (fun n => String.eqb (id n) ref) nodes with
  | Some nodeExists => Some nodeExists
  | None => nodeByLabel ref nodes
  end.

(** Group [g] is defined in the match array [x], when there is one. *)
Definition captured (g : nat) (x : option RegExp.MatchArray) : Prop :=
  forall m, x = Some m -> exists text, RegExp.group m g = Some text.

(** [on input trigger]: the trigger matches the input. *)
Definition on (input : string) (trigger : RegExp.RegExp) : bool :=
  RegExp.test input trigger.

(** The detector that handled [input], with what it can return. *)
Inductive Classified (input : string) (nodes : list Node) (c : AICommand) : Prop :=
| ByAdd :
    on input addTrigger = true ->
    type c = add_node -> (exists text, nodeLabel c = Some text) ->
    Classified input nodes c
| ByDelete :
    on input addTrigger = false -> on input deleteTrigger = true ->
    (type c = delete_node /\ knownId nodes (nodeId c))
    \/ c = withMessage (deleteFailure nodes) (commandOf unknown) ->
    Classified input nodes c
| ByUpdate :
    on input addTrigger = false -> on input deleteTrigger = false ->
    on input updateTrigger = true ->
    (type c = update_node /\ knownId nodes (nodeId c)
     /\ exists text, nodeLabel c = Some text)
    \/ c = withMessage updateFailure (commandOf unknown) ->
    Classified input nodes c
| ByConnect :
    on input addTrigger = false -> on input deleteTrigger = false ->
    on input updateTrigger = false -> on input connectTrigger = true ->
    (type c = connect_nodes /\ knownId nodes (sourceNodeId c)
     /\ knownId nodes (targetNodeId c))
    \/ c = withMessage connectUsage (commandOf unknown) ->
    Classified input nodes c
| ByDisconnect :
    on input addTrigger = false -> on input deleteTrigger = false ->
    on input updateTrigger = false -> on input connectTrigger = false ->
    on input disconnectTrigger = true ->
    (type c = disconnect_nodes /\ knownId nodes (sourceNodeId c)
     /\ knownId nodes (targetNodeId c))
    \/ c = withMessage disconnectUsage (commandOf unknown) ->
    Classified input nodes c
| ByExplain :
    on input addTrigger = false -> on input deleteTrigger = false ->
    on input updateTrigger = false -> on input connectTrigger = false ->
    on input disconnectTrigger = false -> on input explainTrigger = true ->
    type c = explain ->
    Classified input nodes c
| ByNone :
    on input addTrigger = false -> on input deleteTrigger = false ->
    on input updateTrigger = false -> on input connectTrigger = false ->
    on input disconnectTrigger = false -> on input explainTrigger = false ->
    c = withMessage notUnderstood (commandOf unknown) ->
    Classified input nodes c.

(** The seven variants of a command. *)
Definition commandTypes : list CommandType :=
  [add_node; delete_node; update_node; connect_nodes; disconnect_nodes;
   explain; unknown].

(** A field of [AICommand] in a parsed value: a string or absent. *)
Definition stringField (v : JSValue) : option (option string) :=
  match v with
  | JUndefined => Some None
  | JStr s => Some (Some s)
  | _ => None
  end.

Definition typeOfName (name : string) : option CommandType :=
  find (fun t => String.eqb (typeName t) name) commandTypes.

(** The command a parsed value is when it has the declared type: an object
    whose [type] is one of the seven names and whose other fields of
    [AICommand] are strings or absent. *)
Definition asCommand (v : JSValue) : option AICommand :=
  match field v "type" with
  | JStr name =>
      match typeOfName name,
            stringField (field v "nodeId"), stringField (field v "nodeLabel"),
            stringField (field v "sourceNodeId"),
            stringField (field v "targetNodeId"),
            stringField (field v "edgeId"), stringField (field v "message") with
      | Some t, Some a, Some b, Some c, Some d, Some e, Some f =>
          Some {| type := t; nodeId := a; nodeLabel := b; sourceNodeId := c;
                  targetNodeId := d; edgeId := e; message := f |}
      | _, _, _, _, _, _, _ => None
      end
  | _ => None
  end.

(** The JSON text of a deletion and the object it holds. *)
Definition deleteText (ref : string) : string :=
  "{" ++ quoted "type" ++ ":" ++ quoted "delete_node" ++ ","
  ++ quoted "nodeId" ++ ":" ++ quoted ref ++ "}".

Definition deleteObject (ref : string) : JSValue :=
  JObj [("type", JStr "delete_node"); ("nodeId", JStr ref)].

(** [JSON.parse] on the texts of the examples, which are the only texts it
    is applied to there. *)
Definition parseExample (text : string) : option JSValue :=
  if String.eqb text (deleteText "End Call") then Some (deleteObject "End Call")
  else if String.eqb text (deleteText "n2") then Some (deleteObject "n2")
  else if String.eqb text "null" then Some JNull
  else if String.eqb text "5" then Some (JNum 5)
  else None.

(** A delete draft that names its node by label. *)
Definition labelDraft : AICommand := withNodeId "end call" (commandOf delete_node).

(** The non-empty fields of the search label (line 248). *)
Definition searchTermsOf (searchLabel : string) : list string :=
  filter (fun t => Nat.ltb 0 (String.length t)) (JS.splitSpaces searchLabel).

(** The terms the search runs on: the common words are dropped unless every
    term is one. *)
Definition finalTermsOf (searchLabel : string) : list string :=
  match filter (fun term => negb (isCommonWord term)) (searchTermsOf searchLabel) with
  | [] => searchTermsOf searchLabel
  | filteredTerms => filteredTerms
  end.

(** The terms longer than two characters (line 270). *)
Definition longTerms (terms : list string) : list string :=
  filter (fun t => Nat.ltb 2 (String.length t)) terms.

(** The stop-list of the specification, with the plural forms. *)
Definition stopList : list string :=
  ["the"; "a"; "an"; "node"; "step"; "state"; "nodes"; "steps"; "states"].

(** The specification's [resolveByFuzzyLabel], in its words: the search text
    is split on white space, the words of the stop-list are discarded, tier 1
    is the first node whose lower-cased label contains every remaining token
    and tier 2, when tier 1 finds nothing, the first node whose label
    contains any remaining token longer than two characters. *)
Definition spec_resolveByFuzzyLabel (text : string) (nodes : list Node)
  : option Node :=
  let tokens :=
    filter (fun t => negb (existsb (String.eqb t) stopList)) (searchTermsOf text) in
  match find (labelHasEvery tokens) nodes with
  | Some node => Some node
  | None => find (labelHasSome (longTerms tokens)) nodes
  end.

(** Nodes and drafts of the examples. *)
Definition startNode : Node := {| id := "n1"; label := "Start"; index := 0 |}.
Definition stateMachine : Node :=
  {| id := "n2"; label := "State Machine"; index := 1 |}.
Definition otherNode : Node := {| id := "n1"; label := "Other"; index := 0 |}.
Definition endNode : Node := {| id := "n2"; label := "End"; index := 1 |}.

Definition caseDraft : AICommand :=
  withTargetNodeId "n2" (withSourceNodeId "start" (commandOf connect_nodes)).

Definition labelledDraft : AICommand :=
  withTargetNodeId "n1" (withSourceNodeId "End Call" (commandOf disconnect_nodes)).

(** [v.name] read as a value: [undefined] where there is no such property. *)
Definition propOf (v : JSValue) (name : string) : JSValue :=
  match v with
  | JObj fields => lookupField name fields
  | _ => JUndefined
  end.

(** The text a response carries: a non-empty string under [generated_text]
    of the data or of its first element, or the data itself when it is a
    string. *)
Definition generatedText (data : JSValue) : option string :=
  let ofField (v : JSValue) :=
    match v with
    | JStr s => if JS.truthy s then Some s else None
    | _ => None
    end in
  match data with
  | JStr s => Some s
  | JObj fields => ofField (lookupField "generated_text" fields)
  | JArr (JObj fields :: _) => ofField (lookupField "generated_text" fields)
  | _ => None
  end.

(** The ways the remote attempt fails. *)
Inductive RemoteFailure (JSON_parse : string -> option JSValue) (remote : Remote)
  : Prop :=
| NoApiKey :
    present (apiKey remote) = false -> RemoteFailure JSON_parse remote
| NetworkFailure e :
    fetch remote = Throw e -> RemoteFailure JSON_parse remote
| UnreadableBody response e :
    fetch remote = Return response -> json response = Throw e ->
    RemoteFailure JSON_parse remote
| NonSuccess response body :
    fetch remote = Return response -> json response = Return body ->
    truthyValue (propOf body "success") = false ->
    RemoteFailure JSON_parse remote
| UnparsableText response body :
    fetch remote = Return response -> json response = Return body ->
    truthyValue (propOf body "success") = true ->
    generatedText (propOf body "data") = None ->
    RemoteFailure JSON_parse remote
| UnparsableJSON response body text :
    fetch remote = Return response -> json response = Return body ->
    truthyValue (propOf body "success") = true ->
    generatedText (propOf body "data") = Some text ->
    JSON_parse (CleanUp.jsonTextOf (JS.trim text)) = None ->
    RemoteFailure JSON_parse remote.

(** The same surroundings without an API key. *)
Definition unconfigured (remote : Remote) : Remote :=
  {| apiKey := None; fetch := fetch remote |}.

(** A remote collaborator that answers with a failure. *)
Definition refusing : Remote :=
  {| apiKey := Some "key";
     fetch := Return {| json := Return (JObj [("success", JBool false);
                                              ("error", JStr "quota")]) |} |}.

(** ** Properties of inputs *)

(** A string of white space only, the empty string included. *)
Fixpoint blank (s : string) : bool :=
  match s with
  | EmptyString => true
  | String c t => JS.isSpace c && blank t
  end.

(** The five diagnostics of the rule-based parser. *)
Definition diagnostics (nodes : list Node) : list string :=
  [deleteFailure nodes; updateFailure; connectUsage; disconnectUsage; notUnderstood].

(** The type, the new label, the edge id and the message of the draft are
    those of the result. *)
Definition keepsPayload (draft result : AICommand) : Prop :=
  type result = type draft /\ nodeLabel result = nodeLabel draft
  /\ edgeId result = edgeId draft /\ message result = message draft.

(** Nodes on which resolving a connection twice differs from once. *)
Definition crossedNodes : list Node :=
  [ {| id := "a"; label := "b"; index := 0 |};
    {| id := "b"; label := "x"; index := 1 |} ].
Definition crossedDraft : AICommand :=
  withTargetNodeId "a" (withSourceNodeId "x" (commandOf connect_nodes)).

(** Nodes and a remote answer of the examples. *)
Definition shadowNodes : list Node :=
  [ {| id := "n1"; label := "n2 backup"; index := 0 |};
    {| id := "n2"; label := "End"; index := 1 |};
    {| id := "n3"; label := "end"; index := 2 |} ].

(** The body of a successful answer with the given text. *)
Definition generated (text : string) : list (string * JSValue) :=
  [("success", JBool true); ("data", JObj [("generated_text", JStr text)])].

(** A remote collaborator that answers with the given text. *)
Definition answeringWith (text : string) : Remote :=
  {| apiKey := Some "key";
     fetch := Return {| json := Return (JObj (generated text)) |} |}.

Definition answering : Remote := answeringWith (deleteText "End Call").

(** ** Properties of flows *)

Section FlowSpec.

Variable XYPosition : Type.

(** The ids of the nodes, in order. *)
Definition flowIds (flow : Home.Flow XYPosition) : list string :=
  map (@FlowNode.id XYPosition) (Home.nodes flow).

(** The ends of an edge. *)
Definition ends (edge : FlowEdge.t) : string * string :=
  (FlowEdge.source edge, FlowEdge.target edge).

(** No two nodes share an id. *)
Definition uniqueIds (flow : Home.Flow XYPosition) : Prop := NoDup (flowIds flow).

(** No edge dangles: both ends of every edge are ids of nodes. *)
Definition edgesClosed (flow : Home.Flow XYPosition) : Prop :=
  forall edge, In edge (Home.edges flow) ->
    In (FlowEdge.source edge) (flowIds flow) /\ In (FlowEdge.target edge) (flowIds flow).

(** No two edges join the same source to the same target. *)
Definition simpleEdges (flow : Home.Flow XYPosition) : Prop :=
  NoDup (map ends (Home.edges flow)).

Definition wellFormed (flow : Home.Flow XYPosition) : Prop :=
  uniqueIds flow /\ edgesClosed flow /\ simpleEdges flow.

(** The id a new node would get is the id of no node. *)
Definition freshNode (chance : Home.Chance XYPosition) (flow : Home.Flow XYPosition)
  : Prop :=
  ~ In (Utils.generateNodeId (Home.now chance) (Home.random36 chance)) (flowIds flow).

(** The parser's view of the nodes names the nodes of the flow, in order. *)
Definition viewOf (view : list Node) (flow : Home.Flow XYPosition) : Prop :=
  map id view = flowIds flow.

End FlowSpec.

(** The commands of the examples. *)
Definition connectCommand (s t : string) : AICommand :=
  withTargetNodeId t (withSourceNodeId s (commandOf connect_nodes)).

Definition disconnectCommand (s t : string) : AICommand :=
  withTargetNodeId t (withSourceNodeId s (commandOf disconnect_nodes)).

Definition someChance : Home.Chance (Z * Z) :=
  {| Home.now := 1700000000000%N; Home.random36 := "0.4fzyo82mvyr";
     Home.position := (10, 20)%Z |}.

Definition laterChance : Home.Chance (Z * Z) :=
  {| Home.now := 1700000000123%N; Home.random36 := "0.k2j9x1";
     Home.position := (0, 0)%Z |}.

Definition twoNodeFlow : Home.Flow (Z * Z) :=
  {| Home.nodes :=
       [ {| FlowNode.id := "n1"; FlowNode.type := Some "custom";
            FlowNode.position := (0, 0)%Z; FlowNode.label := "Start" |};
         {| FlowNode.id := "n2"; FlowNode.type := Some "custom";
            FlowNode.position := (0, 100)%Z; FlowNode.label := "End Call" |} ];
     Home.edges :=
       [ {| FlowEdge.id := "e1"; FlowEdge.source := "n1"; FlowEdge.target := "n2";
            FlowEdge.type := Some "smoothstep" |} ] |}.

(** ** Properties of the route *)

(** The text of a successful answer of the route, when it is a string that
    is not empty. *)
Definition answeredText (body : JSValue) : option string :=
  match propOf body "success", propOf (propOf body "data") "generated_text" with
  | JBool true, JStr s => if JS.truthy s then Some s else None
  | _, _ => None
  end.

(** A key is configured on the server. *)
Definition serverKey (server : Route.Server) : bool :=
  (present (Route.publicKey server) || present (Route.secretKey server))%bool.

(** Servers of the examples: without a key, and with an answering provider. *)
Definition keyless : Route.Server :=
  {| Route.requestBody := Return (JObj [("prompt", JStr "add a node")]);
     Route.publicKey := None; Route.secretKey := Some "";
     Route.upstream := Throw NetworkError |}.

Definition providerAnswer : JSValue :=
  JObj [("choices",
         JArr [JObj [("message",
                      JObj [("role", JStr "assistant");
                            ("content", JStr (" " ++ deleteText "End Call" ++ " "))])]])].

Definition served : Route.Server :=
  {| Route.requestBody := Return (JObj [("prompt", JStr "remove the last one")]);
     Route.publicKey := None; Route.secretKey := Some "secret";
     Route.upstream :=
       Return {| Route.ok := true; Route.status := 200; Route.statusText := "OK";
                 Route.json := Return providerAnswer |} |}.

Definition noMessage : exn -> string := fun _ => EmptyString.

(** ** Properties of texts *)

(** The character [c] does not occur in [s]. *)
Fixpoint lacks (c : ascii) (s : string) : bool :=
  match s with
  | EmptyString => true
  | String a t => negb (Ascii.eqb a c) && lacks c t
  end.

(** [{][body][}] *)
Definition braced (body : string) : string := "{" ++ body ++ "}".

(** [[\s\S]], the class of every character. *)
Definition anyChar : RegExp.regex :=
  RegExp.Class false [RegExp.ISpace; RegExp.INotSpace].

(** ** Properties of numerals *)

(** Every character of [s] satisfies [p]. *)
Fixpoint every (p : ascii -> bool) (s : string) : bool :=
  match s with
  | EmptyString => true
  | String c t => p c && every p t
  end.

(** [s] has a first character, which satisfies [p]. *)
Definition headIs (p : ascii -> bool) (s : string) : bool :=
  match s with
  | EmptyString => false
  | String c _ => p c
  end.

(** A decimal numeral: one digit or more. *)
Definition numeral (s : string) : bool :=
  (headIs JS.isDigit s && every JS.isDigit s)%bool.

(** The continuation [k] finds no match at [t], nor at any later position
    of [t], its end included. *)
Fixpoint nowhere (k : RegExp.mstate -> option RegExp.mstate) (t : string)
  (p : nat) (caps : list (option (nat * nat))) : Prop :=
  k (RegExp.MState t p caps) = None
  /\ match t with
     | EmptyString => True
     | String _ t' => nowhere k t' (S p) caps
     end.

(** ** Properties of labels *)

(** [s'] reads a tail of the input of [s]. *)
Definition ahead (s s' : RegExp.mstate) : Prop :=
  exists pre, RegExp.rest s = pre ++ RegExp.rest s'.

(** A label that the update sentence carries as it is: not empty, without
    white space around it, without a quote and without a node word. *)
Definition plainLabel (y : string) : bool :=
  (JS.truthy y && negb (headIs JS.isSpace y) && String.eqb (JS.trimEnd y) y
   && lacks "034" y && lacks "'" y
   && negb (JS.includes y "node") && negb (JS.includes y "step")
   && negb (JS.includes y "state"))%bool.

(** ** Properties of the toolbar *)

Section OwnerSpec.

Variable XYPosition : Type.

(** The button of the toolbar pressed once for each draw, the first draw
    first, each press on the callback of the last render. *)
Definition addEach (chances : list (Home.Chance XYPosition))
  (flow : Home.Flow XYPosition) : Home.Flow XYPosition :=
  fold_left (fun flow chance => Home.handleAddNode chance flow flow) chances flow.

(** The labels of the nodes, in order. *)
Definition flowLabels (flow : Home.Flow XYPosition) : list string :=
  map (@FlowNode.label XYPosition) (Home.nodes flow).

(** ["Node k+1"] for each [k] of [count] numbers from [first] on. *)
Definition defaultLabels (first count : nat) : list string :=
  map (fun k => "Node " ++ JS.showNat (k + 1)) (seq first count).

End OwnerSpec.

(* ================================================================== *)
(** * Facts *)

(** ** Facts about the matcher *)

Module RegExpFacts.
Import RegExp.
Export RegExpSpec.

Lemma keeps_refl s : keeps s s.
Proof. intros i H; exact H. Qed.

Lemma keeps_trans s1 s2 s3 : keeps s1 s2 -> keeps s2 s3 -> keeps s1 s3.
Proof. intros H12 H23 i H; apply H23, H12, H. Qed.

Lemma nth_setNth (A : Type) (d v : A) n : forall l i,
  nth i (setNth n v d l) d = if Nat.eqb i n then v else nth i l d.
Proof.
  induction n as [|n IH]; intros [|x l] [|i]; simpl; try reflexivity.
  - destruct i; reflexivity.
  - rewrite IH. destruct (Nat.eqb i n); [reflexivity | destruct i; reflexivity].
  - apply IH.
Qed.

Lemma cap_setCap n v s i :
  cap i (setCap n v s) = if Nat.eqb i n then Some v else cap i s.
Proof. unfold cap, setCap; simpl. apply nth_setNth. Qed.

Lemma keeps_setCap n v s : keeps s (setCap n v s).
Proof.
  intros i H. rewrite cap_setCap. destruct (Nat.eqb i n); [discriminate | exact H].
Qed.

Lemma step_entered p k s res (r : regex) :
  (forall g, sets g r = false) ->
  step p k s = Some res -> entered r k s res.
Proof.
  intros Hr. unfold step. destruct (rest s) as [|c t]; [discriminate|].
  destruct (p c); [|discriminate]. intros H.
  exists (MState t (S (pos s)) (caps s)). split; [exact H|]. split.
  - intros i Hi; exact Hi.
  - intros g Hg. rewrite Hr in Hg. discriminate.
Qed.

Lemma choose_cases greedy more stop res :
  choose greedy more stop = Some res -> more tt = Some res \/ stop tt = Some res.
Proof.
  unfold choose. destruct greedy.
  - destruct (more tt); intros H; [left | right]; exact H.
  - destruct (stop tt); intros H; [right | left]; exact H.
Qed.

Lemma progress_some s k s' res : progress s k s' = Some res -> k s' = Some res.
Proof. unfold progress. destruct (Nat.eqb (pos s') (pos s)); [discriminate | auto]. Qed.

Lemma starLoop_entered greedy body k :
  enters body -> forall fuel s res,
  starLoop greedy body k fuel s = Some res ->
  exists s', k s' = Some res /\ keeps s s'.
Proof.
  intros Hbody. induction fuel as [|fuel IHf]; intros s res H; simpl in H.
  - exists s. split; [exact H | apply keeps_refl].
  - apply choose_cases in H. destruct H as [H|H].
    + apply Hbody in H. destruct H as (s1 & H1 & K1).
      apply progress_some, IHf in H1. destruct H1 as (s2 & H2 & K2).
      exists s2. split; [exact H2 | eapply keeps_trans; eassumption].
    + exists s. split; [exact H | apply keeps_refl].
Qed.

Lemma optional_entered greedy body k s res :
  enters body -> optional greedy body k s = Some res ->
  exists s', k s' = Some res /\ keeps s s'.
Proof.
  intros Hbody H. apply choose_cases in H. destruct H as [H|H].
  - apply Hbody in H. destruct H as (s1 & H1 & K1).
    apply progress_some in H1. exists s1. split; assumption.
  - exists s. split; [exact H | apply keeps_refl].
Qed.

Lemma run_entered ic r : forall k s res,
  run ic r k s = Some res -> entered r k s res.
Proof.
  induction r as [ | a | | neg items | r1 IH1 r2 IH2 | r1 IH1 r2 IH2
                 | greedy r' IH | greedy r' IH | n r' IH | ]; intros k s res; simpl.
  - intros H. exists s. repeat split; [exact H | apply keeps_refl | discriminate].
  - apply step_entered. reflexivity.
  - apply step_entered. reflexivity.
  - apply step_entered. reflexivity.
  - intros H. apply IH1 in H. destruct H as (s1 & H1 & K1 & G1).
    apply IH2 in H1. destruct H1 as (s2 & H2 & K2 & G2).
    exists s2. split; [exact H2|]. split; [eapply keeps_trans; eassumption|].
    intros g Hg. apply orb_true_iff in Hg. destruct Hg as [Hg|Hg].
    + apply K2, G1, Hg.
    + apply G2, Hg.
  - destruct (run ic r1 k s) as [res1|] eqn:E1.
    + intros H. injection H as <-. apply IH1 in E1.
      destruct E1 as (s1 & H1 & K1 & G1). exists s1. repeat split; try assumption.
      intros g Hg. apply andb_true_iff in Hg. apply G1, Hg.
    + intros H. apply IH2 in H.
      destruct H as (s2 & H2 & K2 & G2). exists s2. repeat split; try assumption.
      intros g Hg. apply andb_true_iff in Hg. apply G2, Hg.
  - intros H. apply starLoop_entered in H.
    + destruct H as (s' & H & K). exists s'. repeat split; try assumption.
      discriminate.
    + intros k' s1 res1 H1. apply IH in H1. destruct H1 as (s2 & H2 & K2 & _).
      exists s2. split; assumption.
  - intros H. apply optional_entered in H.
    + destruct H as (s' & H & K). exists s'. repeat split; try assumption.
      discriminate.
    + intros k' s1 res1 H1. apply IH in H1. destruct H1 as (s2 & H2 & K2 & _).
      exists s2. split; assumption.
  - intros H. apply IH in H. destruct H as (s1 & H1 & K1 & G1).
    exists (setCap n (pos s, pos s1) s1). split; [exact H1|]. split.
    + eapply keeps_trans; [exact K1 | apply keeps_setCap].
    + intros g Hg. rewrite cap_setCap. destruct (Nat.eqb g n) eqn:E; [discriminate|].
      apply orb_true_iff in Hg. destruct Hg as [Hg|Hg].
      * rewrite Nat.eqb_sym in Hg. congruence.
      * apply G1, Hg.
  - destruct (rest s); [|discriminate]. intros H.
    exists s. repeat split; [exact H | apply keeps_refl | discriminate].
Qed.

Lemma search_unfold ic r s i :
  search ic r s i =
  match run ic (Group 0 r) Some (MState s i []) with
  | Some res => Some res
  | None =>
      match s with
      | EmptyString => None
      | String _ t => search ic r t (S i)
      end
  end.
Proof. destruct s; reflexivity. Qed.

Lemma search_sets ic r g : forall s i res,
  search ic r s i = Some res -> sets g r = true -> cap g res <> None.
Proof.
  induction s as [|c t IH]; intros i res H Hg; rewrite search_unfold in H;
    match type of H with
    | match ?x with _ => _ end = _ => destruct x as [res1|] eqn:E
    end; try discriminate.
  1, 2: injection H as <-; apply run_entered in E;
        destruct E as (s' & H' & _ & G); injection H' as <-;
        apply G; simpl; rewrite Hg; apply orb_true_r.
  eapply IH; eassumption.
Qed.

(** A group the pattern always sets is defined in every match array. *)
Lemma match_group input re g m :
  match_ input re = Some m -> sets g (pattern re) = true ->
  exists text, group m g = Some text.
Proof.
  unfold match_, exec, group. intros H Hg.
  destruct (search (ignoreCase re) (pattern re) input 0) as [res|] eqn:E;
    [|discriminate].
  injection H as <-. simpl. eapply search_sets in E; [|exact Hg].
  destruct (cap g res) as [[i j]|]; [eexists; reflexivity | congruence].
Qed.

(** *** The fuel of a loop is enough *)

Lemma reach_refl s : reach s s.
Proof. split; reflexivity. Qed.

Lemma reach_trans s1 s2 s3 : reach s1 s2 -> reach s2 s3 -> reach s1 s3.
Proof. unfold reach. intros [H1 H2] [H3 H4]. split; lia. Qed.

Lemma reach_setCap n v s s' : reach s s' -> reach s (setCap n v s').
Proof. intros H. exact H. Qed.

Lemma step_local p : local (step p).
Proof.
  intros k1 k2 s H. unfold step. destruct (rest s) as [|c t] eqn:E; [reflexivity|].
  destruct (p c); [|reflexivity]. apply H. unfold reach. simpl. rewrite E. simpl.
  split; lia.
Qed.

Lemma choose_ext greedy more1 more2 stop1 stop2 :
  more1 tt = more2 tt -> stop1 tt = stop2 tt ->
  choose greedy more1 stop1 = choose greedy more2 stop2.
Proof. unfold choose. intros -> ->. reflexivity. Qed.

Lemma starLoop_local greedy body :
  local body -> forall fuel, local (fun k => starLoop greedy body k fuel).
Proof.
  intros Hbody. induction fuel as [|fuel IH]; intros k1 k2 s H; simpl.
  - apply H, reach_refl.
  - apply choose_ext; [|apply H, reach_refl].
    apply Hbody. intros s' Hs'. unfold progress.
    destruct (Nat.eqb (pos s') (pos s)); [reflexivity|].
    apply IH. intros s'' Hs''. apply H. eapply reach_trans; eassumption.
Qed.

Lemma optional_local greedy body : local body -> local (optional greedy body).
Proof.
  intros Hbody k1 k2 s H. unfold optional.
  apply choose_ext; [|apply H, reach_refl].
  apply Hbody. intros s' Hs'. unfold progress.
  destruct (Nat.eqb (pos s') (pos s)); [reflexivity | apply H, Hs'].
Qed.

Lemma run_local ic r : local (run ic r).
Proof.
  induction r as [ | a | | neg items | r1 IH1 r2 IH2 | r1 IH1 r2 IH2
                 | greedy r' IH | greedy r' IH | n r' IH | ]; intros k1 k2 s H; simpl.
  - apply H, reach_refl.
  - apply step_local, H.
  - apply step_local, H.
  - apply step_local, H.
  - apply IH1. intros s' Hs'. apply IH2. intros s'' Hs''.
    apply H. eapply reach_trans; eassumption.
  - rewrite (IH1 k1 k2 s H), (IH2 k1 k2 s H). reflexivity.
  - apply (starLoop_local greedy IH). exact H.
  - apply (optional_local greedy IH). exact H.
  - apply IH. intros s' Hs'. apply H. apply reach_setCap, Hs'.
  - destruct (rest s); [apply H, reach_refl | reflexivity].
Qed.

Lemma run_nowhere ic r s : run ic r (fun _ => None) s = None.
Proof.
  destruct (run ic r (fun _ => None) s) as [res|] eqn:E; [|reflexivity].
  apply run_entered in E. destruct E as (s' & H & _). discriminate.
Qed.

(** One more unit of fuel than there are characters left changes nothing:
    the loop never stops for lack of fuel. *)
Lemma starLoop_fuel ic greedy r k : forall fuel s,
  String.length (rest s) <= fuel ->
  starLoop greedy (run ic r) k (S fuel) s = starLoop greedy (run ic r) k fuel s.
Proof.
  induction fuel as [|fuel IH]; intros s Hlen.
  - assert (forall k', run ic r (progress s k') s = None) as Hnone.
    { intros k'. rewrite <- (run_nowhere ic r s). apply run_local.
      intros s' [H1 H2]. unfold progress.
      destruct (Nat.eqb (pos s') (pos s)) eqn:E; [reflexivity|].
      apply Nat.eqb_neq in E. lia. }
    change (starLoop greedy (run ic r) k 1 s)
      with (choose greedy
              (fun _ => run ic r (progress s (starLoop greedy (run ic r) k 0)) s)
              (fun _ => k s)).
    unfold choose. rewrite Hnone. simpl. destruct greedy; [reflexivity|].
    destruct (k s); reflexivity.
  - change (starLoop greedy (run ic r) k (S (S fuel)) s)
      with (choose greedy
              (fun _ => run ic r
                          (progress s (starLoop greedy (run ic r) k (S fuel))) s)
              (fun _ => k s)).
    change (starLoop greedy (run ic r) k (S fuel) s)
      with (choose greedy
              (fun _ => run ic r (progress s (starLoop greedy (run ic r) k fuel)) s)
              (fun _ => k s)).
    apply choose_ext; [|reflexivity]. apply run_local.
    intros s' [H1 H2]. unfold progress.
    destruct (Nat.eqb (pos s') (pos s)) eqn:E; [reflexivity|].
    apply Nat.eqb_neq in E. apply IH. lia.
Qed.

Lemma starLoop_enough ic greedy r k s more :
  starLoop greedy (run ic r) k (String.length (rest s) + more) s
  = run ic (Star greedy r) k s.
Proof.
  simpl. induction more as [|more IH].
  - rewrite Nat.add_0_r. reflexivity.
  - rewrite Nat.add_succ_r, starLoop_fuel by lia. exact IH.
Qed.

(** *** No group inside a quantifier *)

Lemma patterns_have_plain_loops :
  forallb (fun re => plainLoops (pattern re))
    [ Patterns.addTrigger; Patterns.addLabelPhrase; Patterns.addLabelNamed;
      Patterns.addLabelBare; Patterns.quotedText; Patterns.deleteTrigger;
      Patterns.nodeNumber; Patterns.trailingNumber; Patterns.deleteLabelArticle;
      Patterns.deleteLabelAfterWord; Patterns.updateTrigger;
      Patterns.updateLabelPhrase; Patterns.connectTrigger;
      Patterns.twoNodeNumbers; Patterns.twoNumbers; Patterns.disconnectTrigger;
      Patterns.explainTrigger; CleanUp.braces;
      {| pattern := CleanUp.jsonFence; ignoreCase := false |};
      {| pattern := CleanUp.anyFence; ignoreCase := false |} ] = true.
Proof. reflexivity. Qed.

End RegExpFacts.

(* ================================================================== *)
(** ** Resolved commands *)

Section Lookups.

Variable nodes : list Node.

Lemma byOrdinal_In k n : byOrdinal nodes k = Some n -> In n nodes.
Proof.
  unfold byOrdinal, JS.at_. destruct k as [z|]; simpl; [|discriminate].
  destruct (z - 1 <? 0)%Z; [discriminate|]. apply nth_error_In.
Qed.

Lemma find_In (p : Node -> bool) n : find p nodes = Some n -> In n nodes.
Proof. intros H. apply find_some in H. apply H. Qed.

Lemma nodeByLabel_In ref n : nodeByLabel ref nodes = Some n -> In n nodes.
Proof.
  unfold nodeByLabel.
  repeat match goal with
         | |- context [if ?b then _ else _] => destruct b
         end; apply find_In.
Qed.

Lemma nodeBySearchLabel_In searchLabel n :
  nodeBySearchLabel searchLabel nodes = Some n -> In n nodes.
Proof.
  unfold nodeBySearchLabel. cbv zeta.
  repeat match goal with
         | |- context [if ?b then _ else _] => destruct b
         end; apply find_In.
Qed.

Lemma resolveReference_In ref n : resolveReference ref nodes = Some n -> In n nodes.
Proof.
  unfold resolveReference.
  destruct (find (fun n0 => String.eqb (id n0) ref) nodes) eqn:E.
  - intros H; injection H as <-. eapply find_In, E.
  - apply nodeByLabel_In.
Qed.

Lemma nodeByIdOrLabel_In ref n : nodeByIdOrLabel ref nodes = Some n -> In n nodes.
Proof. apply find_In. Qed.

End Lookups.

(* ================================================================== *)
(** ** The detectors return *)

Section Detectors.
Import RegExp RegExpFacts.

Lemma captured_match input re g :
  sets g (pattern re) = true -> captured g (match_ input re).
Proof. intros Hg m H. eapply match_group; eassumption. Qed.

Lemma captured_orElse g x y :
  captured g x -> captured g y -> captured g (JS.orElse x y).
Proof. intros Hx Hy. destruct x; simpl; assumption. Qed.

Ltac captures :=
  repeat apply captured_orElse; apply captured_match; reflexivity.

Variable input : string.
Variable nodes : list Node.

Lemma addDetector_returns :
  exists c, addDetector input nodes = Return c
            /\ type c = add_node /\ exists text, nodeLabel c = Some text.
Proof.
  unfold addDetector.
  match goal with
  | |- context [match ?x with Some _ => _ | None => _ end] =>
      assert (captured 1 x) as Hc by captures; destruct x as [m|]
  end.
  - destruct (Hc m eq_refl) as [text ->]. simpl.
    eexists; split; [reflexivity|]. split; [reflexivity | eexists; reflexivity].
  - simpl.
    eexists; split; [reflexivity|]. split; [reflexivity | eexists; reflexivity].
Qed.

Lemma deleteDetector_returns :
  exists c, deleteDetector input nodes = Return c
            /\ ((type c = delete_node /\ knownId nodes (nodeId c))
                \/ c = withMessage (deleteFailure nodes) (commandOf unknown)).
Proof.
  unfold deleteDetector.
  match goal with
  | |- context [match ?x with Some m => nodeAtOrdinal m 1 nodes | None => None end] =>
      destruct x as [idMatch|]
  end.
  1: destruct (nodeAtOrdinal idMatch 1 nodes) as [node|] eqn:E;
     [ eexists; split; [reflexivity|]; left; split; [reflexivity|];
       exists node; split; [eapply byOrdinal_In, E | reflexivity] | ].
  all: match goal with
       | |- context [match ?x with Some _ => _ | None => Return None end] =>
           assert (captured 1 x) as Hc by captures; destruct x as [m|]
       end.
  all: try (destruct (Hc m eq_refl) as [text ->]; simpl;
            destruct (nodeBySearchLabel (JS.toLowerCase (JS.trim text)) nodes)
              as [node|] eqn:E';
            [ eexists; split; [reflexivity|]; left; split; [reflexivity|];
              exists node; split; [eapply nodeBySearchLabel_In, E' | reflexivity]
            | eexists; split; [reflexivity | right; reflexivity] ]).
  all: simpl; eexists; split; [reflexivity | right; reflexivity].
Qed.

Lemma updateDetector_returns :
  exists c, updateDetector input nodes = Return c
            /\ ((type c = update_node /\ knownId nodes (nodeId c)
                 /\ exists text, nodeLabel c = Some text)
                \/ c = withMessage updateFailure (commandOf unknown)).
Proof.
  unfold updateDetector. cbv zeta.
  destruct (match_ input nodeNumber) as [idMatch|];
    [|eexists; split; [reflexivity | right; reflexivity]].
  match goal with
  | |- context [match ?x with Some _ => _ | None => _ end] =>
      assert (captured 1 x) as Hc by captures; destruct x as [m|]
  end; [|eexists; split; [reflexivity | right; reflexivity]].
  destruct (Hc m eq_refl) as [text ->]. simpl.
  destruct (nodeAtOrdinal idMatch 1 nodes) as [node|] eqn:E;
    [|eexists; split; [reflexivity | right; reflexivity]].
  eexists; split; [reflexivity|]. left. repeat split.
  - exists node. split; [eapply byOrdinal_In, E | reflexivity].
  - eexists; reflexivity.
Qed.

Lemma endpointsDetector_returns t usage :
  exists c, endpointsDetector t usage input nodes = Return c
            /\ ((type c = t /\ knownId nodes (sourceNodeId c)
                 /\ knownId nodes (targetNodeId c))
                \/ c = withMessage usage (commandOf unknown)).
Proof.
  unfold endpointsDetector. cbv zeta.
  match goal with
  | |- context [match ?x with Some _ => _ | None => _ end] => destruct x as [m|]
  end; [|eexists; split; [reflexivity | right; reflexivity]].
  destruct (nodeAtOrdinal m 1 nodes) as [sourceNode|] eqn:E1;
    [|eexists; split; [reflexivity | right; reflexivity]].
  destruct (nodeAtOrdinal m 2 nodes) as [targetNode|] eqn:E2;
    [|eexists; split; [reflexivity | right; reflexivity]].
  eexists; split; [reflexivity|]. left. repeat split.
  - exists sourceNode. split; [eapply byOrdinal_In, E1 | reflexivity].
  - exists targetNode. split; [eapply byOrdinal_In, E2 | reflexivity].
Qed.

Lemma explainDetector_returns :
  exists c, explainDetector nodes = Return c /\ type c = explain.
Proof.
  unfold explainDetector.
  destruct (Nat.eqb (List.length nodes) 0); eexists; split; reflexivity.
Qed.

End Detectors.

(* ================================================================== *)
(** ** Classification by the first matching trigger *)

Section Classification.
Import RegExp.

Lemma classify userInput nodes :
  exists c, getEnhancedMockResponse userInput nodes = Return c
            /\ Classified (JS.trim (JS.toLowerCase userInput)) nodes c.
Proof.
  unfold getEnhancedMockResponse. cbv zeta.
  set (input := JS.trim (JS.toLowerCase userInput)).
  destruct (test input addTrigger) eqn:Ta.
  { destruct (addDetector_returns input nodes) as (c & -> & Hc).
    exists c. split; [reflexivity|]. apply ByAdd; tauto. }
  destruct (test input deleteTrigger) eqn:Td.
  { destruct (deleteDetector_returns input nodes) as (c & -> & Hc).
    exists c. split; [reflexivity|]. apply ByDelete; assumption. }
  destruct (test input updateTrigger) eqn:Tu.
  { destruct (updateDetector_returns input nodes) as (c & -> & Hc).
    exists c. split; [reflexivity|]. apply ByUpdate; assumption. }
  destruct (test input connectTrigger) eqn:Tc.
  { destruct (endpointsDetector_returns input nodes connect_nodes connectUsage)
      as (c & -> & Hc).
    exists c. split; [reflexivity|]. apply ByConnect; assumption. }
  destruct (test input disconnectTrigger) eqn:Tx.
  { destruct (endpointsDetector_returns input nodes disconnect_nodes disconnectUsage)
      as (c & -> & Hc).
    exists c. split; [reflexivity|]. apply ByDisconnect; assumption. }
  destruct (test input explainTrigger) eqn:Te.
  { destruct (explainDetector_returns nodes) as (c & -> & Hc).
    exists c. split; [reflexivity|]. apply ByExplain; assumption. }
  eexists. split; [reflexivity|]. apply ByNone; auto.
Qed.

Lemma Classified_resolved input nodes c : Classified input nodes c -> resolved nodes c.
Proof.
  unfold resolved.
  intros [ _ -> _ | _ _ [[-> H]| ->] | _ _ _ [(-> & H & _)| ->]
         | _ _ _ _ [(-> & H)| ->] | _ _ _ _ _ [(-> & H)| ->]
         | _ _ _ _ _ _ -> | _ _ _ _ _ _ -> ]; simpl; auto.
Qed.

End Classification.

(* ================================================================== *)
(** ** Facts about [validateAndResolveCommand] *)

Section Validator.

Variable nodes : list Node.

Lemma resolveEndpoints_other command :
  isConnectOrDisconnect (type command) = false ->
  resolveEndpoints command nodes = command.
Proof. unfold resolveEndpoints. intros ->. reflexivity. Qed.

Lemma find_id_eq ref n :
  find (fun n0 => String.eqb (id n0) ref) nodes = Some n -> In n nodes /\ id n = ref.
Proof.
  intros H. apply find_some in H. destruct H as [Hin Heq].
  apply String.eqb_eq in Heq. split; assumption.
Qed.

Lemma present_some x : present x = true -> exists ref, x = Some ref /\ JS.truthy ref = true.
Proof. destruct x as [ref|]; simpl; [eauto | discriminate]. Qed.

(** A delete or update draft with a reference: the cascade decides. *)
Lemma validate_node_reference command ref :
  isDeleteOrUpdate (type command) = true ->
  nodeId command = Some ref -> JS.truthy ref = true ->
  validateAndResolveCommand command nodes =
  match resolveReference ref nodes with
  | Some node => withNodeId (id node) command
  | None => withMessage (notFoundMessage ref nodes) (commandOf unknown)
  end.
Proof.
  intros Ht Hid Href. unfold validateAndResolveCommand, resolveReference.
  assert (isConnectOrDisconnect (type command) = false) as Hc
    by (revert Ht; destruct (type command); cbv; congruence).
  rewrite Ht, Hid. simpl. rewrite Href.
  destruct (find (fun n => String.eqb (id n) ref) nodes) as [nodeExists|] eqn:E.
  - rewrite (resolveEndpoints_other _ Hc). apply find_id_eq in E.
    destruct E as [_ ->]. destruct command; unfold withNodeId; simpl in *.
    congruence.
  - destruct (nodeByLabel ref nodes) as [node|]; [|reflexivity].
    apply resolveEndpoints_other. exact Hc.
Qed.

(** A connect or disconnect draft with both references. *)
Lemma validate_endpoints command source target :
  isConnectOrDisconnect (type command) = true ->
  sourceNodeId command = Some source -> targetNodeId command = Some target ->
  JS.truthy source = true -> JS.truthy target = true ->
  validateAndResolveCommand command nodes =
  match nodeByIdOrLabel source nodes, nodeByIdOrLabel target nodes with
  | Some sourceNode, Some targetNode =>
      withTargetNodeId (id targetNode) (withSourceNodeId (id sourceNode) command)
  | _, _ => withMessage connectFailure (commandOf unknown)
  end.
Proof.
  intros Ht Hs Htg Hts Htt. unfold validateAndResolveCommand.
  assert (isDeleteOrUpdate (type command) = false) as Hd
    by (revert Ht; destruct (type command); cbv; congruence).
  rewrite Hd. simpl. unfold resolveEndpoints. rewrite Ht, Hs, Htg, Hts, Htt.
  reflexivity.
Qed.

(** A draft without the references of its type is returned as it is. *)
Lemma validate_unchanged command :
  referencesPresent command = false ->
  validateAndResolveCommand command nodes = command.
Proof.
  unfold referencesPresent, validateAndResolveCommand, resolveEndpoints.
  destruct command as [t nid nl src tgt eid msg]; simpl.
  destruct t; simpl; try discriminate; intros H; try rewrite H; simpl;
    try reflexivity.
  all: destruct src as [source|]; [|reflexivity];
       destruct tgt as [target|]; [|reflexivity]; simpl in H; rewrite H;
       reflexivity.
Qed.

Lemma validate_resolved command :
  referencesPresent command = true ->
  resolved nodes (validateAndResolveCommand command nodes)
  /\ (type (validateAndResolveCommand command nodes) = type command
      \/ diagnostic (validateAndResolveCommand command nodes)).
Proof.
  intros Hp. unfold referencesPresent in Hp.
  destruct (type command) eqn:Ht.
  1, 6, 7: unfold validateAndResolveCommand, resolveEndpoints, resolved;
           rewrite Ht; simpl; rewrite Ht; auto.
  1, 2: apply present_some in Hp; destruct Hp as (ref & Hid & Href);
        rewrite (@validate_node_reference command ref)
          by (try rewrite Ht; auto);
        destruct (resolveReference ref nodes) as [node|] eqn:E;
        [ split; [|left; simpl; exact Ht]; unfold resolved; simpl; rewrite Ht;
          exists node; split; [eapply resolveReference_In, E | reflexivity]
        | split; [exact I|]; right; split; [reflexivity|];
          eexists; split; reflexivity ].
  all: apply andb_true_iff in Hp; destruct Hp as [Hs Htg];
       apply present_some in Hs; destruct Hs as (source & Hs & Hts);
       apply present_some in Htg; destruct Htg as (target & Htg & Htt);
       rewrite (@validate_endpoints command source target)
         by (try rewrite Ht; auto);
       destruct (nodeByIdOrLabel source nodes) as [sourceNode|] eqn:E1;
       [ destruct (nodeByIdOrLabel target nodes) as [targetNode|] eqn:E2 | ];
       try (split; [exact I|]; right; split; [reflexivity|];
            eexists; split; reflexivity);
       split; [|left; simpl; exact Ht]; unfold resolved; simpl; rewrite Ht; split;
       [ exists sourceNode; split; [eapply nodeByIdOrLabel_In, E1 | reflexivity]
       | exists targetNode; split; [eapply nodeByIdOrLabel_In, E2 | reflexivity] ].
Qed.

End Validator.

(* ================================================================== *)
(** * The claims *)

(** C1.  Totality of the rule-based interpreter: for every input string and
    every node list, the empty one included, [getEnhancedMockResponse]
    returns a command, whose type is one of the seven variants, and throws
    no exception. *)
Theorem interpreter_total (userInput : string) (nodes : list Node) :
  (exists c, getEnhancedMockResponse userInput nodes = Return c
             /\ In (type c) commandTypes)
  /\ (forall e, getEnhancedMockResponse userInput nodes <> Throw e)
  /\ (exists c, getEnhancedMockResponse userInput [] = Return c).
Proof.
  destruct (classify userInput nodes) as (c & Hc & _).
  destruct (classify userInput []) as (c0 & Hc0 & _).
  split; [|split].
  - exists c. split; [exact Hc|]. unfold commandTypes.
    destruct (type c); simpl; tauto.
  - intros e He. rewrite Hc in He. discriminate.
  - exists c0. exact Hc0.
Qed.

(** C2, the claim as stated fails: a delete draft that carries no reference
    leaves the validator as it came, a [delete_node] without any node id. *)
Lemma draft_without_reference_passes :
  validateAndResolveCommand (commandOf delete_node) twoNodes = commandOf delete_node
  /\ ~ resolved twoNodes (validateAndResolveCommand (commandOf delete_node) twoNodes).
Proof.
  split; [reflexivity|]. unfold resolved. simpl. intros (n & _ & H). discriminate.
Qed.

(** C2, amended.  The rule-based parser only returns resolved commands.  A
    draft that carries the references of its type leaves the validator
    resolved: either with its type kept and its node identifiers the ids of
    nodes of the list, or downgraded to [unknown] with a diagnostic.  A draft
    that lacks a reference is returned unchanged. *)
Theorem resolved_identifiers (draft : AICommand) (nodes : list Node)
  (userInput : string) :
  (referencesPresent draft = true ->
   resolved nodes (validateAndResolveCommand draft nodes)
   /\ (type (validateAndResolveCommand draft nodes) = type draft
       \/ diagnostic (validateAndResolveCommand draft nodes)))
  /\ (referencesPresent draft = false ->
      validateAndResolveCommand draft nodes = draft)
  /\ (forall c, getEnhancedMockResponse userInput nodes = Return c ->
      resolved nodes c).
Proof.
  split; [|split].
  - apply validate_resolved.
  - apply validate_unchanged.
  - intros c Hc. destruct (classify userInput nodes) as (c' & Hc' & Hcl).
    rewrite Hc in Hc'. injection Hc' as <-. eapply Classified_resolved, Hcl.
Qed.

Lemma resolved_identifiers_witness :
  resolved twoNodes (validateAndResolveCommand labelDraft twoNodes)
  /\ validateAndResolveCommand (commandOf connect_nodes) twoNodes
     = commandOf connect_nodes
  /\ resolved twoNodes (withNodeId "n2" (commandOf delete_node)).
Proof.
  destruct (resolved_identifiers labelDraft twoNodes "delete node 2")
    as (H1 & _ & H3).
  destruct (resolved_identifiers (commandOf connect_nodes) twoNodes "")
    as (_ & H2 & _).
  split; [|split].
  - apply H1. reflexivity.
  - apply H2. reflexivity.
  - apply H3. vm_compute. reflexivity.
Defined.

(* ================================================================== *)
(** ** Evaluating the patterns on a given input *)

Ltac evaluate t :=
  let v := eval vm_compute in t in
  replace t with v by (vm_compute; reflexivity).

(** Replaces the closed pattern matches of the goal by their results. *)
Ltac run_patterns :=
  repeat match goal with
         | |- context [JS.trim (JS.toLowerCase ?s)] =>
             evaluate (JS.trim (JS.toLowerCase s))
         | |- context [RegExp.test ?s ?re] => evaluate (RegExp.test s re)
         | |- context [RegExp.match_ ?s ?re] => evaluate (RegExp.match_ s re)
         end.

Ltac run_groups :=
  repeat match goal with
         | |- context [JS.parseInt (RegExp.group ?m ?n)] =>
             evaluate (JS.parseInt (RegExp.group m n))
         | |- context [trimOf (RegExp.group ?m ?n)] =>
             evaluate (trimOf (RegExp.group m n))
         end.

(* ================================================================== *)
(** ** The label search of the delete detector *)

Lemma find_labelHasSome_nil nodes : find (labelHasSome []) nodes = None.
Proof. induction nodes as [|n l IH]; simpl; [reflexivity | exact IH]. Qed.

(** The guard of line 271 changes nothing: no label has one of no terms. *)
Lemma significant_guard (significantTerms : list string) nodes :
  (if Nat.ltb 0 (List.length significantTerms)
   then find (labelHasSome significantTerms) nodes else None)
  = find (labelHasSome significantTerms) nodes.
Proof.
  destruct significantTerms; simpl;
    [symmetry; apply find_labelHasSome_nil | reflexivity].
Qed.

Lemma nodeBySearchLabel_tiers searchLabel nodes :
  nodeBySearchLabel searchLabel nodes =
  match find (fun n => String.eqb (JS.toLowerCase (label n)) searchLabel) nodes with
  | Some node => Some node
  | None =>
      match finalTermsOf searchLabel with
      | [] => None
      | finalTerms =>
          match find (labelHasEvery finalTerms) nodes with
          | Some node => Some node
          | None => find (labelHasSome (longTerms finalTerms)) nodes
          end
      end
  end.
Proof.
  unfold nodeBySearchLabel, finalTermsOf, longTerms. cbv zeta.
  fold (searchTermsOf searchLabel).
  generalize (searchTermsOf searchLabel) as terms. intros terms.
  generalize (filter (fun term => negb (isCommonWord term)) terms) as filtered.
  intros filtered.
  destruct (find (fun n => String.eqb (JS.toLowerCase (label n)) searchLabel) nodes)
    as [exact|]; [reflexivity|].
  assert (tiers : forall t final,
    (if (negb (isSome (if (negb (@isSome Node None)
                           && Nat.ltb 0 (List.length (t :: final)))%bool
                       then find (labelHasEvery (t :: final)) nodes else None))
         && Nat.ltb 0 (List.length (t :: final)))%bool
     then if Nat.ltb 0 (List.length (filter (fun t => Nat.ltb 2 (String.length t))
                                            (t :: final)))
          then find (labelHasSome (filter (fun t => Nat.ltb 2 (String.length t))
                                          (t :: final))) nodes
          else if (negb (@isSome Node None)
                   && Nat.ltb 0 (List.length (t :: final)))%bool
               then find (labelHasEvery (t :: final)) nodes else None
     else if (negb (@isSome Node None) && Nat.ltb 0 (List.length (t :: final)))%bool
          then find (labelHasEvery (t :: final)) nodes else None)
    = match find (labelHasEvery (t :: final)) nodes with
      | Some node => Some node
      | None => find (labelHasSome (filter (fun t => Nat.ltb 2 (String.length t))
                                           (t :: final))) nodes
      end).
  { intros t final.
    change (Nat.ltb 0 (List.length (t :: final))) with true.
    cbv beta iota delta [negb andb isSome].
    destruct (find (labelHasEvery (t :: final)) nodes); [reflexivity|].
    cbv iota.
    destruct (filter (fun t0 => Nat.ltb 2 (String.length t0)) (t :: final));
      [symmetry; apply find_labelHasSome_nil | reflexivity]. }
  destruct filtered as [|t rest].
  - change (Nat.ltb 0 (List.length (@nil string))) with false. cbv iota.
    destruct terms as [|t terms]; [reflexivity | apply tiers].
  - change (Nat.ltb 0 (List.length (t :: rest))) with true. cbv iota.
    apply tiers.
Qed.


Lemma byOrdinal_out_of_range nodes (n : Z) :
  (n <= 0 \/ Z.of_nat (List.length nodes) < n)%Z -> byOrdinal nodes (Some n) = None.
Proof.
  intros Hn. unfold byOrdinal, JS.at_. simpl.
  destruct (n - 1 <? 0)%Z eqn:E; [reflexivity|].
  apply Z.ltb_ge in E. apply nth_error_None. lia.
Qed.

(** "delete node 5" on fewer than five nodes: the number finds no node and
    the digit is searched as a label. *)
Lemma delete_node_5 nodes :
  (List.length nodes < 5)%nat ->
  getEnhancedMockResponse "delete node 5" nodes =
  match nodeBySearchLabel "5" nodes with
  | Some node => Return (withNodeId (id node) (commandOf delete_node))
  | None => Return (withMessage (deleteFailure nodes) (commandOf unknown))
  end.
Proof.
  intros Hlen. unfold getEnhancedMockResponse. cbv zeta. run_patterns. cbv iota.
  unfold deleteDetector. run_patterns. cbv beta iota delta [JS.orElse].
  unfold nodeAtOrdinal. run_groups.
  rewrite byOrdinal_out_of_range by lia.
  unfold bind. change (JS.toLowerCase "5") with "5".
  destruct (nodeBySearchLabel "5" nodes); reflexivity.
Qed.

(** C6, the code at the failing input: "remove the connection between
    node 1 and node 2" matches the trigger of the disconnect detector, whose
    pattern on line 346 lists [remove.*connection], and also the trigger of
    the delete detector on line 223, which is tried first.  The answer is the
    deletion of the first node, whatever the nodes are, and the failure
    message of the delete detector when there are none; it is never a
    disconnection.  The same input without the word [node] is not taken by
    the delete detector and disconnects the two numbered nodes. *)
Theorem remove_connection_is_read_as_delete (node next : Node)
  (others : list Node) :
  let input := "remove the connection between node 1 and node 2" in
  RegExp.test input disconnectTrigger = true
  /\ RegExp.test input deleteTrigger = true
  /\ getEnhancedMockResponse input (node :: others)
     = Return (withNodeId (id node) (commandOf delete_node))
  /\ getEnhancedMockResponse input []
     = Return (withMessage (deleteFailure []) (commandOf unknown))
  /\ RegExp.test "remove the connection between 1 and 2" deleteTrigger = false
  /\ getEnhancedMockResponse "remove the connection between 1 and 2"
       (node :: next :: others)
     = Return (withTargetNodeId (id next)
                 (withSourceNodeId (id node) (commandOf disconnect_nodes))).
Proof.
  cbv zeta. split; [vm_compute; reflexivity|]. split; [vm_compute; reflexivity|].
  split; [|split; [vm_compute; reflexivity|split; [vm_compute; reflexivity|]]].
  - unfold getEnhancedMockResponse. cbv zeta. run_patterns. cbv iota.
    unfold deleteDetector. run_patterns. cbv beta iota delta [JS.orElse].
    unfold nodeAtOrdinal. run_groups. reflexivity.
  - unfold getEnhancedMockResponse. cbv zeta. run_patterns. cbv iota.
    unfold endpointsDetector. run_patterns. cbv beta iota zeta delta [JS.orElse].
    unfold nodeAtOrdinal. run_groups. reflexivity.
Qed.

Lemma eqb_5_includes s : String.eqb s "5" = true -> JS.includes s "5" = true.
Proof. intros H. apply String.eqb_eq in H. subst s. reflexivity. Qed.

Lemma labelHasEvery_5 n :
  labelHasEvery ["5"] n = JS.includes (JS.toLowerCase (label n)) "5".
Proof. unfold labelHasEvery. simpl. apply andb_true_r. Qed.

Lemma search_5 nodes :
  nodeBySearchLabel "5" nodes =
  match find (fun n => String.eqb (JS.toLowerCase (label n)) "5") nodes with
  | Some node => Some node
  | None => find (labelHasEvery ["5"]) nodes
  end.
Proof.
  rewrite nodeBySearchLabel_tiers. evaluate (finalTermsOf "5"). cbv zeta.
  evaluate (longTerms ["5"]).
  destruct (find (fun n => String.eqb (JS.toLowerCase (label n)) "5") nodes);
    [reflexivity|].
  destruct (find (labelHasEvery ["5"]) nodes); [reflexivity|].
  induction nodes as [|n l IH]; simpl; [reflexivity | exact IH].
Qed.

(* ================================================================== *)
(** * The claims, continued *)

(** C8, the claim as stated fails: with two nodes of which one is labelled
    "Phase 5", "delete node 5" is no [unknown] command but the deletion of
    that node. *)
Lemma delete_node_5_finds_a_label :
  List.length phaseNodes = 2%nat
  /\ getEnhancedMockResponse "delete node 5" phaseNodes
     = Return (withNodeId "n2" (commandOf delete_node)).
Proof. vm_compute. split; reflexivity. Qed.

(** C8, amended.  A delete or update draft whose reference resolves to no
    node leaves the validator as the [unknown] command with the message
    Node "<ref>" not found. Available nodes: and the quoted labels joined
    by commas; "delete node 5" on a two-node list none of whose labels
    contains the digit 5 is an [unknown] command whose message lists both
    labels. *)
Theorem not_found_paths (draft : AICommand) (nodes : list Node) (ref : string)
  (a b : Node) :
  (isDeleteOrUpdate (type draft) = true -> nodeId draft = Some ref ->
   JS.truthy ref = true -> resolveReference ref nodes = None ->
   validateAndResolveCommand draft nodes
   = withMessage ("Node " ++ quoted ref ++ " not found. Available nodes: "
                  ++ JS.join ", " (map (fun n => quoted (label n)) nodes))
       (commandOf unknown))
  /\ (JS.includes (JS.toLowerCase (label a)) "5" = false ->
      JS.includes (JS.toLowerCase (label b)) "5" = false ->
      getEnhancedMockResponse "delete node 5" [a; b]
      = Return (withMessage
                  ("Could not find the node to delete. Available nodes: "
                   ++ JS.join ", " ["1. " ++ quoted (label a);
                                    "2. " ++ quoted (label b)])
                  (commandOf unknown))).
Proof.
  split.
  - intros Ht Hid Href Hnone.
    rewrite (@validate_node_reference nodes draft ref) by assumption.
    rewrite Hnone. reflexivity.
  - intros Ha Hb. rewrite delete_node_5 by (simpl; lia). rewrite search_5.
    cbn [find]. rewrite !labelHasEvery_5, Ha, Hb.
    destruct (String.eqb (JS.toLowerCase (label a)) "5") eqn:Ea;
      [apply eqb_5_includes in Ea; congruence|].
    destruct (String.eqb (JS.toLowerCase (label b)) "5") eqn:Eb;
      [apply eqb_5_includes in Eb; congruence|].
    reflexivity.
Qed.

Lemma not_found_paths_witness :
  validateAndResolveCommand (withNodeId "zzz" (commandOf delete_node)) twoNodes
  = withMessage ("Node " ++ dq ++ "zzz" ++ dq ++ " not found. Available nodes: "
                 ++ dq ++ "Start" ++ dq ++ ", " ++ dq ++ "End Call" ++ dq)
      (commandOf unknown)
  /\ getEnhancedMockResponse "delete node 5" twoNodes
     = Return (withMessage
                 ("Could not find the node to delete. Available nodes: 1. "
                  ++ dq ++ "Start" ++ dq ++ ", 2. " ++ dq ++ "End Call" ++ dq)
                 (commandOf unknown)).
Proof.
  destruct (not_found_paths (withNodeId "zzz" (commandOf delete_node)) twoNodes "zzz"
              {| id := "n1"; label := "Start"; index := 0 |}
              {| id := "n2"; label := "End Call"; index := 1 |}) as [Hv Hd].
  split.
  - apply Hv; reflexivity.
  - apply Hd; reflexivity.
Defined.

(** C9, the code at the failing input: the label of "add a node called
    Hello" is taken from the lower-cased input and comes out as "hello",
    whatever the nodes.  Without a label phrase the label is "Node " and the
    node count plus one, "Node 3" after two nodes, and an [add_node] command
    never lacks its label. *)
Theorem add_node_labeling (userInput : string) (nodes : list Node) :
  getEnhancedMockResponse "add a node called Hello" nodes
  = Return (withNodeLabel "hello" (commandOf add_node))
  /\ getEnhancedMockResponse "add a node" nodes
     = Return (withNodeLabel ("Node " ++ JS.showNat (List.length nodes + 1))
                 (commandOf add_node))
  /\ getEnhancedMockResponse "add a node" twoNodes
     = Return (withNodeLabel "Node 3" (commandOf add_node))
  /\ (forall c, getEnhancedMockResponse userInput nodes = Return c ->
      type c = add_node -> exists text, nodeLabel c = Some text).
Proof.
  split; [|split; [|split]].
  - unfold getEnhancedMockResponse. cbv zeta. run_patterns. cbv iota.
    unfold addDetector. run_patterns. cbv beta iota zeta delta [JS.orElse].
    run_groups. reflexivity.
  - unfold getEnhancedMockResponse. cbv zeta. run_patterns. cbv iota.
    unfold addDetector. run_patterns. reflexivity.
  - vm_compute. reflexivity.
  - intros c Hc Ht. destruct (classify userInput nodes) as (c' & Hc' & Hcl).
    rewrite Hc in Hc'. injection Hc' as <-.
    destruct Hcl as [ _ _ Hl | _ _ [[Ht' _]| ->] | _ _ _ [(Ht' & _)| ->]
                    | _ _ _ _ [(Ht' & _)| ->] | _ _ _ _ _ [(Ht' & _)| ->]
                    | _ _ _ _ _ _ Ht' | _ _ _ _ _ _ -> ];
      try exact Hl; try (rewrite Ht in Ht'; discriminate);
      simpl in Ht; discriminate.
Qed.

Lemma add_node_labeling_witness :
  exists text, nodeLabel (withNodeLabel "x" (commandOf add_node)) = Some text.
Proof.
  destruct (add_node_labeling "add a node 'x'" twoNodes) as (_ & _ & _ & H).
  apply H; reflexivity.
Defined.

(** C10.  An ordinal outside the list falls through to the label search of
    the delete detector: on fewer than five nodes, "delete node 5" finds no
    node by number and deletes a node whose label contains the digit 5 when
    there is one, as with a node labelled "Phase 5" among two. *)
Theorem out_of_range_ordinal_is_searched_as_label (nodes : list Node) :
  (List.length nodes < 5)%nat ->
  (exists n, In n nodes /\ JS.includes (JS.toLowerCase (label n)) "5" = true) ->
  byOrdinal nodes (Some 5%Z) = None
  /\ (exists n, In n nodes
                /\ JS.includes (JS.toLowerCase (label n)) "5" = true
                /\ getEnhancedMockResponse "delete node 5" nodes
                   = Return (withNodeId (id n) (commandOf delete_node)))
  /\ getEnhancedMockResponse "delete node 5" phaseNodes
     = Return (withNodeId "n2" (commandOf delete_node)).
Proof.
  intros Hlen (n0 & Hin & Hinc). split; [|split].
  - apply byOrdinal_out_of_range. lia.
  - rewrite delete_node_5 by exact Hlen. rewrite search_5.
    destruct (find (fun n => String.eqb (JS.toLowerCase (label n)) "5") nodes)
      as [n|] eqn:E.
    + apply find_some in E. destruct E as [Hn He]. exists n.
      repeat split; [exact Hn | apply eqb_5_includes, He].
    + destruct (find (labelHasEvery ["5"]) nodes) as [n|] eqn:E'.
      * apply find_some in E'. destruct E' as [Hn He]. exists n.
        rewrite labelHasEvery_5 in He. repeat split; assumption.
      * eapply find_none in E'; [|exact Hin].
        rewrite labelHasEvery_5 in E'. congruence.
  - vm_compute. reflexivity.
Qed.

Lemma out_of_range_ordinal_is_searched_as_label_witness :
  byOrdinal phaseNodes (Some 5%Z) = None
  /\ exists n, In n phaseNodes
               /\ getEnhancedMockResponse "delete node 5" phaseNodes
                  = Return (withNodeId (id n) (commandOf delete_node)).
Proof.
  destruct (@out_of_range_ordinal_is_searched_as_label phaseNodes)
    as (Hnone & (n & Hin & _ & Hdel) & _).
  - simpl. lia.
  - exists {| id := "n2"; label := "Phase 5"; index := 1 |}.
    split; [simpl; auto | reflexivity].
  - split; [exact Hnone|]. exists n. split; assumption.
Defined.

(* ================================================================== *)
(** ** Fuzzy label resolution *)

(** C5, the claim as stated fails.  In the delete detector a search text
    made of stop words only is searched by those very words: "state" finds
    the node labelled "State Machine", where the discarded token leaves the
    specification's tiers nothing to find it by.  In the validator no word
    is discarded at all: "the end" finds the node labelled "Other", by
    "the". *)
Lemma stop_words_are_searched :
  filter (fun t => negb (existsb (String.eqb t) stopList)) (searchTermsOf "state") = []
  /\ nodeBySearchLabel "state" [startNode; stateMachine] = Some stateMachine
  /\ spec_resolveByFuzzyLabel "state" [startNode; stateMachine] = Some startNode
  /\ getEnhancedMockResponse "delete the state node" [startNode; stateMachine]
     = Return (withNodeId "n2" (commandOf delete_node))
  /\ nodeByLabel "the end" [otherNode; endNode] = Some otherNode
  /\ spec_resolveByFuzzyLabel "the end" [otherNode; endNode] = Some endNode.
Proof. vm_compute. repeat split. Qed.

(** C5, amended.  The label search of the delete detector splits the
    lower-cased search text on white space and drops the words of the
    stop-list unless every word is one; a node whose lower-cased label is the
    search text comes first, then tier 1, the first node whose lower-cased
    label contains every remaining term, then, only when tier 1 finds
    nothing, tier 2, the first node whose label contains some remaining term
    longer than two characters; without terms or without a match no node is
    found.  "delete the end call node" on the two-node example deletes
    [n2]. *)
Theorem fuzzy_label_resolution (searchLabel : string) (nodes : list Node) :
  finalTermsOf searchLabel
  = (if forallb isCommonWord (searchTermsOf searchLabel)
     then searchTermsOf searchLabel
     else filter (fun t => negb (isCommonWord t)) (searchTermsOf searchLabel))
  /\ nodeBySearchLabel searchLabel nodes
     = match find (fun n => String.eqb (JS.toLowerCase (label n)) searchLabel) nodes with
       | Some node => Some node
       | None =>
           match finalTermsOf searchLabel with
           | [] => None
           | finalTerms =>
               match find (labelHasEvery finalTerms) nodes with
               | Some node => Some node
               | None => find (labelHasSome (longTerms finalTerms)) nodes
               end
           end
       end
  /\ isCommonWord = (fun t => existsb (String.eqb t) stopList)
  /\ getEnhancedMockResponse "delete the end call node" twoNodes
     = Return (withNodeId "n2" (commandOf delete_node)).
Proof.
  split; [|split; [apply nodeBySearchLabel_tiers | split; [reflexivity|]]].
  - unfold finalTermsOf. generalize (searchTermsOf searchLabel) as terms.
    induction terms as [|t terms IH]; [reflexivity|]. simpl.
    destruct (isCommonWord t); simpl; [|reflexivity].
    destruct (filter (fun term => negb (isCommonWord term)) terms) as [|f rest] eqn:E.
    + destruct (forallb isCommonWord terms) eqn:F; [reflexivity|].
      exfalso. clear IH. induction terms as [|u terms IHt]; [discriminate|].
      simpl in E, F. destruct (isCommonWord u); simpl in *;
        [apply IHt; assumption | discriminate].
    + destruct (forallb isCommonWord terms) eqn:F; [|reflexivity].
      exfalso. clear IH. revert f rest E.
      induction terms as [|u terms IHt]; intros f rest E; [discriminate|].
      simpl in E, F. destruct (isCommonWord u); simpl in *;
        [eapply IHt; eauto | discriminate].
  - vm_compute. reflexivity.
Qed.

(* ================================================================== *)
(** ** Connect and disconnect drafts *)

Lemma nodeByLabel_none_exact ref nodes :
  nodeByLabel ref nodes = None ->
  find (fun n => String.eqb (JS.toLowerCase (label n)) (JS.toLowerCase ref)) nodes
  = None.
Proof.
  unfold nodeByLabel.
  destruct (find (fun n => String.eqb (JS.toLowerCase (label n)) (JS.toLowerCase ref))
              nodes) as [n|]; [|reflexivity].
  simpl. discriminate.
Qed.

(** A reference the cascade cannot resolve is neither an id nor a label. *)
Lemma unresolved_is_no_id_or_label ref nodes :
  resolveReference ref nodes = None -> nodeByIdOrLabel ref nodes = None.
Proof.
  unfold resolveReference, nodeByIdOrLabel. intros H.
  destruct (find (fun n => String.eqb (id n) ref) nodes) as [n|] eqn:Eid;
    [discriminate|].
  apply nodeByLabel_none_exact in H.
  destruct (find (fun n => (String.eqb (id n) ref || String.eqb (label n) ref)%bool)
              nodes) as [n|] eqn:E; [|reflexivity].
  apply find_some in E. destruct E as [Hin Hn].
  apply orb_true_iff in Hn. destruct Hn as [Hn|Hn].
  - eapply find_none in Eid; [|exact Hin]. simpl in Eid. congruence.
  - eapply find_none in H; [|exact Hin]. simpl in H.
    apply String.eqb_eq in Hn. rewrite Hn, String.eqb_refl in H. discriminate.
Qed.

(** C4, the claim as stated fails: the cascade resolves "start" to the node
    labelled "Start", by the label without case, but the connect draft from
    "start" to "n2" is replaced by the [unknown] command; and a draft without
    a target is returned as it came. *)
Lemma connect_label_case_matters :
  option_map id (resolveReference "start" twoNodes) = Some "n1"
  /\ option_map id (resolveReference "n2" twoNodes) = Some "n2"
  /\ validateAndResolveCommand caseDraft twoNodes
     = withMessage connectFailure (commandOf unknown)
  /\ validateAndResolveCommand (withSourceNodeId "n1" (commandOf connect_nodes))
       twoNodes
     = withSourceNodeId "n1" (commandOf connect_nodes).
Proof. vm_compute. repeat split. Qed.

(** C4, amended.  For a connect or disconnect draft whose source and target
    are both present, the validator looks each of them up on its own: a
    reference that is the id or the exact label of a node resolves to the
    first such node, both ids are written back, and the result carries ids
    of nodes of the list; a reference that no tier of the cascade resolves
    replaces the command by unknown, "Could not find one or both nodes to
    connect/disconnect.".  A draft that lacks a reference is returned
    unchanged. *)
Theorem connect_resolution_policy (draft : AICommand) (nodes : list Node) :
  isConnectOrDisconnect (type draft) = true ->
  (forall source target,
     sourceNodeId draft = Some source -> targetNodeId draft = Some target ->
     JS.truthy source = true -> JS.truthy target = true ->
     (forall sourceNode targetNode,
        nodeByIdOrLabel source nodes = Some sourceNode ->
        nodeByIdOrLabel target nodes = Some targetNode ->
        validateAndResolveCommand draft nodes
        = withTargetNodeId (id targetNode) (withSourceNodeId (id sourceNode) draft))
     /\ (resolveReference source nodes = None \/ resolveReference target nodes = None ->
         validateAndResolveCommand draft nodes
         = withMessage "Could not find one or both nodes to connect/disconnect."
             (commandOf unknown))
     /\ resolved nodes (validateAndResolveCommand draft nodes))
  /\ ((present (sourceNodeId draft) && present (targetNodeId draft))%bool = false ->
      validateAndResolveCommand draft nodes = draft).
Proof.
  intros Ht. split.
  - intros source target Hs Htg Hts Htt.
    rewrite (@validate_endpoints nodes draft source target) by assumption.
    split; [|split].
    + intros sourceNode targetNode -> ->. reflexivity.
    + intros [H|H]; apply unresolved_is_no_id_or_label in H; rewrite H;
        [reflexivity | destruct (nodeByIdOrLabel source nodes); reflexivity].
    + rewrite <- (@validate_endpoints nodes draft source target) by assumption.
      apply validate_resolved. unfold referencesPresent.
      revert Ht. destruct (type draft); try discriminate; intros _;
        rewrite Hs, Htg; simpl; rewrite Hts, Htt; reflexivity.
  - intros Hp. apply validate_unchanged. unfold referencesPresent.
    revert Ht. destruct (type draft); try discriminate; intros _; exact Hp.
Qed.

Lemma connect_resolution_policy_witness :
  validateAndResolveCommand labelledDraft twoNodes
  = withTargetNodeId "n1" (withSourceNodeId "n2" (commandOf disconnect_nodes))
  /\ validateAndResolveCommand
       (withTargetNodeId "zzz" (withSourceNodeId "n1" (commandOf connect_nodes)))
       twoNodes
     = withMessage connectFailure (commandOf unknown).
Proof.
  split.
  - destruct (@connect_resolution_policy labelledDraft twoNodes eq_refl) as [H _].
    destruct (H "End Call" "n1" eq_refl eq_refl eq_refl eq_refl) as (Hok & _).
    exact (Hok {| id := "n2"; label := "End Call"; index := 1 |}
               {| id := "n1"; label := "Start"; index := 0 |} eq_refl eq_refl).
  - destruct (@connect_resolution_policy
                (withTargetNodeId "zzz" (withSourceNodeId "n1" (commandOf connect_nodes)))
                twoNodes eq_refl) as [H _].
    destruct (H "n1" "zzz" eq_refl eq_refl eq_refl eq_refl) as (_ & Hko & _).
    apply Hko. right. reflexivity.
Defined.

(* ================================================================== *)
(** ** The remote attempt *)

Section RemoteFacts.

Variable JSON_parse : string -> option JSValue.

(** A body with a truthy [success] is an object. *)
Lemma success_object body :
  truthyValue (propOf body "success") = true ->
  exists fields, body = JObj fields
                 /\ truthyValue (lookupField "success" fields) = true.
Proof.
  destruct body as [ | | b | n | s | items | fields]; simpl; try discriminate.
  intros H. exists fields. split; [reflexivity | exact H].
Qed.

(** The text the source extracts is the text the response carries. *)
Lemma text_of_data data :
  match generatedText data with
  | Some text => bind (textOf data) (fun text =>
                   match text with
                   | Some text => bind (trimValue text) (fun t => Return (Some t))
                   | None => Return None
                   end) = Return (Some (JS.trim text))
  | None => forall t, bind (textOf data) (fun text =>
                        match text with
                        | Some text => bind (trimValue text) (fun t => Return (Some t))
                        | None => Return None
                        end) <> Return (Some t)
  end.
Proof.
  unfold generatedText, textOf, bind.
  destruct data as [ | | b | n | s | items | fields]; simpl;
    try reflexivity; try (intros; discriminate).
  - destruct items as [|first rest]; simpl; [intros; discriminate|].
    destruct first as [ | | b | n | s | items | fields]; simpl;
      try (intros; discriminate).
    destruct (lookupField "generated_text" fields) as [ | | [|] | n | s | l | f];
      simpl; try (intros; discriminate).
    + destruct (Z.eqb n 0); simpl; intros; discriminate.
    + destruct (JS.truthy s); simpl; [reflexivity | intros; discriminate].
  - destruct (lookupField "generated_text" fields) as [ | | [|] | n | s | l | f];
      simpl; try (intros; discriminate).
    + destruct (Z.eqb n 0); simpl; intros; discriminate.
    + destruct (JS.truthy s); simpl; [reflexivity | intros; discriminate].
Qed.

Lemma attempt_unfold remote nodes response fields :
  fetch remote = Return response -> json response = Return (JObj fields) ->
  truthyValue (lookupField "success" fields) = true ->
  attempt JSON_parse remote nodes =
  bind (textOf (lookupField "data" fields)) (fun text =>
    match text with
    | None => Return None
    | Some text =>
        bind (trimValue text) (fun trimmed =>
          match JSON_parse (CleanUp.jsonTextOf trimmed) with
          | Some command =>
              bind (validateValue command nodes) (fun validated =>
                Return (Some validated))
          | None => Throw SyntaxError
          end)
    end).
Proof.
  intros Hf Hj Hs. unfold attempt. rewrite Hf. simpl. rewrite Hj. simpl.
  rewrite Hs. reflexivity.
Qed.

(** A failed attempt yields no command. *)
Lemma failure_no_command remote nodes :
  RemoteFailure JSON_parse remote -> present (apiKey remote) = true ->
  forall command, attempt JSON_parse remote nodes <> Return (Some command).
Proof.
  intros [ Hk | e Hf | response e Hf Hj | response body Hf Hj Hs
         | response body Hf Hj Hs Ht | response body text Hf Hj Hs Ht Hp ] Hkey command.
  - congruence.
  - unfold attempt. rewrite Hf. discriminate.
  - unfold attempt. rewrite Hf. simpl. rewrite Hj. discriminate.
  - unfold attempt. rewrite Hf. simpl. rewrite Hj.
    destruct body as [ | | b | n | s | items | fields]; simpl in *;
      try discriminate.
    rewrite Hs. discriminate.
  - apply success_object in Hs. destruct Hs as (fields & -> & Hs).
    rewrite (attempt_unfold remote nodes Hf Hj Hs).
    simpl in Ht. pose proof (text_of_data (lookupField "data" fields)) as Hd.
    rewrite Ht in Hd.
    destruct (textOf (lookupField "data" fields)) as [[text|]|e]; simpl in *;
      try discriminate.
    destruct (trimValue text) as [trimmed|e] eqn:Et; simpl in *; [|discriminate].
    exfalso. eapply Hd. reflexivity.
  - apply success_object in Hs. destruct Hs as (fields & -> & Hs).
    rewrite (attempt_unfold remote nodes Hf Hj Hs).
    simpl in Ht. pose proof (text_of_data (lookupField "data" fields)) as Hd.
    rewrite Ht in Hd.
    destruct (textOf (lookupField "data" fields)) as [[v|]|e]; simpl in *;
      try discriminate.
    destruct (trimValue v) as [trimmed|e] eqn:Et; simpl in *; [|discriminate].
    injection Hd as ->. rewrite Hp. discriminate.
Qed.

(** When the text parses, the answer is what the validator returns, and
    the rule-based answer when the validator throws. *)
Lemma success_returns_value remote userInput nodes response fields text value :
  present (apiKey remote) = true ->
  fetch remote = Return response -> json response = Return (JObj fields) ->
  truthyValue (lookupField "success" fields) = true ->
  generatedText (lookupField "data" fields) = Some text ->
  JSON_parse (CleanUp.jsonTextOf (JS.trim text)) = Some value ->
  parseAICommand JSON_parse remote userInput nodes
  = match validateValue value nodes with
    | Return result => Return result
    | Throw _ => answer (getEnhancedMockResponse userInput nodes)
    end.
Proof.
  intros Hk Hf Hj Hs Ht Hp. unfold parseAICommand. rewrite Hk. simpl.
  rewrite (attempt_unfold remote nodes Hf Hj Hs).
  pose proof (text_of_data (lookupField "data" fields)) as Hd. rewrite Ht in Hd.
  destruct (textOf (lookupField "data" fields)) as [[v|]|e]; simpl in *;
    try discriminate.
  destruct (trimValue v) as [trimmed|e]; simpl in *; [|discriminate].
  injection Hd as ->. rewrite Hp.
  destruct (validateValue value nodes); reflexivity.
Qed.

End RemoteFacts.

(** The object of a command of the rule-based parser is read back as that
    command. *)
Lemma asCommand_valueOf command : asCommand (valueOf command) = Some command.
Proof.
  destruct command as [t a b c d e f].
  destruct t, a, b, c, d, e, f; reflexivity.
Qed.

(** C3.  Mandatory remote fallback: when the remote attempt fails, for lack
    of an API key, by a network error, a body that cannot be read, a
    non-success response, a response without text or a text that is no JSON,
    [parseAICommand] returns what the rule-based parser returns on the same
    input and nodes, throws nothing, and does what it does when no key is
    configured.  What it returns is the object of the command that
    [getEnhancedMockResponse] returns. *)
Theorem remote_fallback (JSON_parse : string -> option JSValue)
  (remote : Remote) (userInput : string) (nodes : list Node) :
  RemoteFailure JSON_parse remote ->
  parseAICommand JSON_parse remote userInput nodes
  = answer (getEnhancedMockResponse userInput nodes)
  /\ (forall e, parseAICommand JSON_parse remote userInput nodes <> Throw e)
  /\ parseAICommand JSON_parse remote userInput nodes
     = parseAICommand JSON_parse (unconfigured remote) userInput nodes
  /\ (exists command,
       getEnhancedMockResponse userInput nodes = Return command
       /\ parseAICommand JSON_parse remote userInput nodes
          = Return (valueOf command)
       /\ asCommand (valueOf command) = Some command).
Proof.
  intros Hfail.
  assert (parseAICommand JSON_parse remote userInput nodes
          = answer (getEnhancedMockResponse userInput nodes)) as Heq.
  { unfold parseAICommand. destruct (present (apiKey remote)) eqn:Hk;
      [|reflexivity]. simpl.
    pose proof (failure_no_command nodes Hfail Hk) as Hno.
    destruct (attempt JSON_parse remote nodes) as [[command|]|e];
      [exfalso; eapply Hno; reflexivity | reflexivity | reflexivity]. }
  split; [exact Heq|]. split.
  - intros e He. rewrite Heq in He.
    destruct (classify userInput nodes) as (c & Hc & _). rewrite Hc in He.
    discriminate He.
  - split; [rewrite Heq; reflexivity|].
    destruct (classify userInput nodes) as (c & Hc & _). exists c.
    split; [exact Hc|]. split; [|apply asCommand_valueOf].
    rewrite Heq, Hc. reflexivity.
Qed.

Lemma remote_fallback_witness :
  parseAICommand parseExample refusing "add a node" twoNodes
  = Return (valueOf (withNodeLabel "Node 3" (commandOf add_node))).
Proof.
  destruct (@remote_fallback parseExample refusing "add a node" twoNodes) as [H _].
  - eapply NonSuccess; reflexivity.
  - rewrite H. reflexivity.
Defined.

(** The connect trigger also matches inside "disconnect" and "unlink", so a
    disconnection that names its nodes is classified as a connection. *)
Example disconnect_is_shadowed_by_connect :
  RegExp.test "disconnect node 1 from node 2" connectTrigger = true
  /\ getEnhancedMockResponse "Disconnect node 1 from node 2" twoNodes
     = Return (withTargetNodeId "n2" (withSourceNodeId "n1" (commandOf connect_nodes)))
  /\ getEnhancedMockResponse "Disconnect 1 from 2" twoNodes
     = Return (withTargetNodeId "n2" (withSourceNodeId "n1" (commandOf disconnect_nodes))).
Proof. vm_compute. repeat split. Qed.

(* ================================================================== *)
(** * Further properties of the parser *)

(** ** Normalization of the input *)

Lemma lowerChar_idempotent c : JS.lowerChar (JS.lowerChar c) = JS.lowerChar c.
Proof. destruct c as [[] [] [] [] [] [] [] []]; vm_compute; reflexivity. Qed.

Lemma lowerChar_space c : JS.isSpace c = true -> JS.lowerChar c = c.
Proof. destruct c as [[] [] [] [] [] [] [] []]; vm_compute; congruence. Qed.

Lemma isSpace_lowerChar c : JS.isSpace (JS.lowerChar c) = JS.isSpace c.
Proof. destruct c as [[] [] [] [] [] [] [] []]; vm_compute; reflexivity. Qed.

Lemma toLowerCase_idempotent s :
  JS.toLowerCase (JS.toLowerCase s) = JS.toLowerCase s.
Proof.
  induction s as [|c t IH]; simpl; [reflexivity|].
  rewrite lowerChar_idempotent, IH. reflexivity.
Qed.

Lemma toLowerCase_app a b :
  JS.toLowerCase (a ++ b) = JS.toLowerCase a ++ JS.toLowerCase b.
Proof. induction a as [|c t IH]; simpl; [reflexivity | rewrite IH; reflexivity]. Qed.

Lemma blank_toLowerCase s : blank (JS.toLowerCase s) = blank s.
Proof.
  induction s as [|c t IH]; simpl; [reflexivity|].
  rewrite isSpace_lowerChar, IH. reflexivity.
Qed.

Lemma trimStart_blank w s : blank w = true -> JS.trimStart (w ++ s) = JS.trimStart s.
Proof.
  induction w as [|c t IH]; simpl; [reflexivity|].
  intros H. apply andb_true_iff in H. destruct H as [Hc Ht].
  rewrite Hc. apply IH, Ht.
Qed.

Lemma trimStart_blank_only w : blank w = true -> JS.trimStart w = EmptyString.
Proof.
  induction w as [|c t IH]; simpl; [reflexivity|].
  intros H. apply andb_true_iff in H. destruct H as [Hc Ht].
  rewrite Hc. apply IH, Ht.
Qed.

Lemma trimEnd_blank_only w : blank w = true -> JS.trimEnd w = EmptyString.
Proof.
  induction w as [|c t IH]; simpl; [reflexivity|].
  intros H. apply andb_true_iff in H. destruct H as [Hc Ht].
  rewrite (IH Ht), Hc. reflexivity.
Qed.

Lemma trimEnd_blank s w : blank w = true -> JS.trimEnd (s ++ w) = JS.trimEnd s.
Proof.
  intros Hw. induction s as [|c t IH]; simpl.
  - rewrite (trimEnd_blank_only w Hw). reflexivity.
  - rewrite IH. reflexivity.
Qed.

Lemma trimStart_app s w :
  blank w = true -> JS.trimEnd (JS.trimStart (s ++ w)) = JS.trimEnd (JS.trimStart s).
Proof.
  intros Hw. induction s as [|c t IH]; simpl.
  - rewrite (trimStart_blank_only w Hw). reflexivity.
  - destruct (JS.isSpace c); [exact IH|].
    change (String c (t ++ w)) with (String c t ++ w). apply trimEnd_blank, Hw.
Qed.

Lemma trim_surrounded w1 s w2 :
  blank w1 = true -> blank w2 = true -> JS.trim (w1 ++ s ++ w2) = JS.trim s.
Proof.
  intros H1 H2. unfold JS.trim. rewrite trimStart_blank by exact H1.
  apply trimStart_app, H2.
Qed.

(** X1.  The parser does not look at the letter case of its input nor at the
    white space around it: an input between two runs of white space, in any
    case, is parsed as its lower-cased text alone. *)
Theorem parser_ignores_case_and_margins (w1 s w2 : string) (nodes : list Node) :
  blank w1 = true -> blank w2 = true ->
  getEnhancedMockResponse (w1 ++ s ++ w2) nodes
  = getEnhancedMockResponse (JS.toLowerCase s) nodes.
Proof.
  intros H1 H2. unfold getEnhancedMockResponse. cbv zeta.
  rewrite toLowerCase_idempotent, !toLowerCase_app.
  rewrite trim_surrounded by (rewrite blank_toLowerCase; assumption).
  reflexivity.
Qed.

Lemma parser_ignores_case_and_margins_witness :
  getEnhancedMockResponse ("  " ++ "DELETE Node 2" ++ " ") twoNodes
  = Return (withNodeId "n2" (commandOf delete_node)).
Proof.
  rewrite (@parser_ignores_case_and_margins "  " "DELETE Node 2" " " twoNodes)
    by reflexivity.
  vm_compute. reflexivity.
Defined.

(** X2.  An input of white space only, the empty input included, is not
    understood, whatever the nodes: the answer is the [unknown] command that
    lists the shapes of the commands. *)
Theorem blank_input_is_not_understood (userInput : string) (nodes : list Node) :
  blank userInput = true ->
  getEnhancedMockResponse userInput nodes
  = Return (withMessage notUnderstood (commandOf unknown)).
Proof.
  intros Hb.
  assert (JS.trim (JS.toLowerCase userInput) = EmptyString) as Hin.
  { unfold JS.trim. rewrite <- (blank_toLowerCase userInput) in Hb.
    rewrite (trimStart_blank_only _ Hb). reflexivity. }
  unfold getEnhancedMockResponse. cbv zeta. rewrite Hin. run_patterns.
  reflexivity.
Qed.

Lemma blank_input_is_not_understood_witness :
  getEnhancedMockResponse (String "009" "  ") twoNodes
  = Return (withMessage notUnderstood (commandOf unknown)).
Proof. apply blank_input_is_not_understood. reflexivity. Defined.

(** ** What the parser can answer *)

(** The message of an [explain] answer and of an [unknown] answer. *)
Lemma parser_messages userInput nodes c :
  getEnhancedMockResponse userInput nodes = Return c ->
  (type c = explain ->
   message c = Some (if Nat.eqb (List.length nodes) 0 then emptyFlow
                     else flowStructure nodes))
  /\ (type c = unknown -> exists text, message c = Some text
                                       /\ In text (diagnostics nodes)).
Proof.
  unfold getEnhancedMockResponse, diagnostics. cbv zeta.
  set (input := JS.trim (JS.toLowerCase userInput)).
  destruct (RegExp.test input addTrigger).
  { destruct (addDetector_returns input nodes) as (c' & -> & Ht & _).
    intros H; injection H as <-. rewrite Ht. split; discriminate. }
  destruct (RegExp.test input deleteTrigger).
  { destruct (deleteDetector_returns input nodes) as (c' & -> & [[Ht _]| ->]);
      intros H; injection H as <-; [rewrite Ht; split; discriminate|].
    split; [discriminate|]. intros _. eexists. split; [reflexivity|].
    simpl. auto. }
  destruct (RegExp.test input updateTrigger).
  { destruct (updateDetector_returns input nodes) as (c' & -> & [(Ht & _)| ->]);
      intros H; injection H as <-; [rewrite Ht; split; discriminate|].
    split; [discriminate|]. intros _. eexists. split; [reflexivity|].
    simpl. auto. }
  destruct (RegExp.test input connectTrigger).
  { destruct (endpointsDetector_returns input nodes connect_nodes connectUsage)
      as (c' & -> & [(Ht & _)| ->]);
      intros H; injection H as <-; [rewrite Ht; split; discriminate|].
    split; [discriminate|]. intros _. eexists. split; [reflexivity|].
    simpl. auto. }
  destruct (RegExp.test input disconnectTrigger).
  { destruct (endpointsDetector_returns input nodes disconnect_nodes disconnectUsage)
      as (c' & -> & [(Ht & _)| ->]);
      intros H; injection H as <-; [rewrite Ht; split; discriminate|].
    split; [discriminate|]. intros _. eexists. split; [reflexivity|].
    simpl. auto. }
  destruct (RegExp.test input explainTrigger).
  { unfold explainDetector.
    destruct (Nat.eqb (List.length nodes) 0); intros H; injection H as <-;
      split; try discriminate; reflexivity. }
  intros H; injection H as <-. split; [discriminate|]. intros _.
  eexists. split; [reflexivity|]. simpl. tauto.
Qed.

(** X3.  Every [explain] and every [unknown] answer of the parser carries a
    message that is not empty: the description of the flow, or one of the
    five diagnostics. *)
Theorem answers_carry_a_message (userInput : string) (nodes : list Node)
  (c : AICommand) :
  getEnhancedMockResponse userInput nodes = Return c ->
  type c = explain \/ type c = unknown ->
  exists text, message c = Some text /\ JS.truthy text = true
               /\ (type c = unknown -> In text (diagnostics nodes)).
Proof.
  intros Hc Ht. destruct (parser_messages userInput nodes Hc) as [He Hu].
  destruct Ht as [Ht|Ht].
  - rewrite (He Ht). eexists. split; [reflexivity|]. split.
    + destruct (Nat.eqb (List.length nodes) 0); reflexivity.
    + rewrite Ht. discriminate.
  - destruct (Hu Ht) as (text & Hm & Hin). exists text.
    split; [exact Hm|]. split; [|intros _; exact Hin].
    unfold diagnostics in Hin. simpl in Hin.
    destruct Hin as [<-|[<-|[<-|[<-|[<-|[]]]]]]; reflexivity.
Qed.

Lemma answers_carry_a_message_witness :
  exists text, message (withMessage disconnectUsage (commandOf unknown)) = Some text
               /\ JS.truthy text = true.
Proof.
  destruct (@answers_carry_a_message "unlink them" twoNodes
              (withMessage disconnectUsage (commandOf unknown)) eq_refl
              (or_intror eq_refl)) as (text & Hm & Ht & _).
  exists text. split; assumption.
Defined.

(** X4.  On an empty flow the parser never asks to delete, update, connect
    or disconnect: its answer is an [add_node], an [explain] or an [unknown]
    command, and an [explain] answer says that the flow is empty. *)
Theorem empty_flow_answers (userInput : string) (c : AICommand) :
  getEnhancedMockResponse userInput [] = Return c ->
  (type c = add_node \/ type c = explain \/ type c = unknown)
  /\ (type c = explain -> message c = Some emptyFlow).
Proof.
  intros Hc. split.
  - destruct (classify userInput []) as (c' & Hc' & Hcl).
    rewrite Hc in Hc'. injection Hc' as <-.
    apply Classified_resolved in Hcl. unfold resolved, knownId in Hcl.
    destruct (type c); auto.
    + destruct Hcl as (n & [] & _).
    + destruct Hcl as (n & [] & _).
    + destruct Hcl as [(n & [] & _) _].
    + destruct Hcl as [(n & [] & _) _].
  - intros Ht. destruct (parser_messages userInput [] Hc) as [He _].
    exact (He Ht).
Qed.

Lemma empty_flow_answers_witness :
  message (withMessage emptyFlow (commandOf explain)) = Some emptyFlow.
Proof.
  destruct (@empty_flow_answers "What is this?"
              (withMessage emptyFlow (commandOf explain)) eq_refl) as [_ H].
  apply H. reflexivity.
Defined.

(** ** More on the validator *)

Lemma find_first_id nodes ref n :
  In n nodes -> id n = ref ->
  exists first, find (fun m => String.eqb (id m) ref) nodes = Some first
                /\ id first = ref.
Proof.
  intros Hin Hid.
  destruct (find (fun m => String.eqb (id m) ref) nodes) as [first|] eqn:E.
  - exists first. split; [reflexivity|]. eapply find_id_eq, E.
  - eapply find_none in E; [|exact Hin]. simpl in E.
    rewrite Hid, String.eqb_refl in E. discriminate.
Qed.

Lemma withNodeId_same command ref :
  nodeId command = Some ref -> withNodeId ref command = command.
Proof. destruct command; unfold withNodeId; simpl; intros ->; reflexivity. Qed.

Lemma validate_known_id draft nodes ref n :
  isDeleteOrUpdate (type draft) = true -> nodeId draft = Some ref ->
  In n nodes -> id n = ref -> validateAndResolveCommand draft nodes = draft.
Proof.
  intros Ht Hid Hin Hn. destruct (JS.truthy ref) eqn:Hr.
  - rewrite (@validate_node_reference nodes draft ref) by assumption.
    unfold resolveReference.
    destruct (@find_first_id nodes ref n Hin Hn) as (first & -> & Hf).
    rewrite Hf. apply withNodeId_same, Hid.
  - apply validate_unchanged. unfold referencesPresent.
    revert Ht. destruct (type draft); try discriminate; intros _;
      rewrite Hid; simpl; exact Hr.
Qed.

(** X5.  Identity comes first in the delete and update path: a draft whose
    reference is the id of a node is returned unchanged, whatever the labels
    of the nodes; and when no node has the reference as its id, a node whose
    label is the reference up to letter case is preferred to the fuzzy
    tiers, the first such node in sequence order. *)
Theorem identity_and_exact_label_first (draft : AICommand) (nodes : list Node)
  (ref : string) :
  isDeleteOrUpdate (type draft) = true -> nodeId draft = Some ref ->
  (forall n, In n nodes -> id n = ref ->
     validateAndResolveCommand draft nodes = draft)
  /\ (forall n,
        JS.truthy ref = true ->
        find (fun m => String.eqb (id m) ref) nodes = None ->
        find (fun m => String.eqb (JS.toLowerCase (label m)) (JS.toLowerCase ref))
          nodes = Some n ->
        validateAndResolveCommand draft nodes = withNodeId (id n) draft).
Proof.
  intros Ht Hid. split.
  - intros n Hin Hn. eapply validate_known_id; eassumption.
  - intros n Hr Hnone Hex.
    rewrite (@validate_node_reference nodes draft ref) by assumption.
    unfold resolveReference, nodeByLabel. rewrite Hnone, Hex. reflexivity.
Qed.

Lemma identity_and_exact_label_first_witness :
  validateAndResolveCommand (withNodeId "n2" (commandOf delete_node)) shadowNodes
  = withNodeId "n2" (commandOf delete_node)
  /\ validateAndResolveCommand (withNodeId "END" (commandOf delete_node)) shadowNodes
     = withNodeId "n2" (commandOf delete_node).
Proof.
  split.
  - destruct (@identity_and_exact_label_first
                (withNodeId "n2" (commandOf delete_node)) shadowNodes "n2"
                eq_refl eq_refl) as [H _].
    apply (H {| id := "n2"; label := "End"; index := 1 |}); simpl; auto.
  - destruct (@identity_and_exact_label_first
                (withNodeId "END" (commandOf delete_node)) shadowNodes "END"
                eq_refl eq_refl) as [_ H].
    apply (H {| id := "n2"; label := "End"; index := 1 |}); reflexivity.
Defined.

Lemma validate_unknown nodes text :
  validateAndResolveCommand (withMessage text (commandOf unknown)) nodes
  = withMessage text (commandOf unknown).
Proof. reflexivity. Qed.

(** X6.  Outside connections the validator is idempotent: validating the
    result of a validation changes nothing.  For connections it is not: an
    id written back can be the label of an earlier node. *)
Theorem validator_idempotent (draft : AICommand) (nodes : list Node) :
  (isConnectOrDisconnect (type draft) = false ->
   validateAndResolveCommand (validateAndResolveCommand draft nodes) nodes
   = validateAndResolveCommand draft nodes)
  /\ validateAndResolveCommand
       (validateAndResolveCommand crossedDraft crossedNodes) crossedNodes
     <> validateAndResolveCommand crossedDraft crossedNodes.
Proof.
  split; [|vm_compute; discriminate].
  intros Hc. destruct (referencesPresent draft) eqn:Hp.
  - destruct (isDeleteOrUpdate (type draft)) eqn:Hd.
    + unfold referencesPresent in Hp.
      assert (present (nodeId draft) = true) as Hpres
        by (revert Hd Hp; destruct (type draft); try discriminate; auto).
      apply present_some in Hpres. destruct Hpres as (ref & Hid & Hr).
      rewrite (@validate_node_reference nodes draft ref) by assumption.
      destruct (resolveReference ref nodes) as [node|] eqn:E;
        [|apply validate_unknown].
      apply resolveReference_In in E.
      apply (@validate_known_id (withNodeId (id node) draft) nodes (id node) node);
        [exact Hd | reflexivity | exact E | reflexivity].
    + assert (validateAndResolveCommand draft nodes = draft) as ->.
      { unfold validateAndResolveCommand. rewrite Hd. simpl.
        apply resolveEndpoints_other, Hc. }
      unfold validateAndResolveCommand. rewrite Hd. simpl.
      apply resolveEndpoints_other, Hc.
  - rewrite !(validate_unchanged nodes draft Hp). reflexivity.
Qed.

Lemma validator_idempotent_witness :
  validateAndResolveCommand
    (validateAndResolveCommand labelDraft twoNodes) twoNodes
  = withNodeId "n2" (commandOf delete_node).
Proof.
  destruct (validator_idempotent labelDraft twoNodes) as [H _].
  rewrite H by reflexivity. reflexivity.
Defined.

(** X7.  The validator either gives up the whole draft for an [unknown]
    command that carries nothing but its message, or keeps the type, the new
    label, the edge id and the message of the draft: an update keeps its new
    label through the resolution of its node. *)
Theorem validator_keeps_payload (draft : AICommand) (nodes : list Node) :
  (exists text, JS.truthy text = true
                /\ validateAndResolveCommand draft nodes
                   = withMessage text (commandOf unknown))
  \/ keepsPayload draft (validateAndResolveCommand draft nodes).
Proof.
  destruct (referencesPresent draft) eqn:Hp;
    [|right; rewrite (validate_unchanged nodes draft Hp); repeat split].
  unfold referencesPresent in Hp.
  destruct (isDeleteOrUpdate (type draft)) eqn:Hd.
  - assert (present (nodeId draft) = true) as Hpres
      by (revert Hd Hp; destruct (type draft); try discriminate; auto).
    apply present_some in Hpres. destruct Hpres as (ref & Hid & Hr).
    rewrite (@validate_node_reference nodes draft ref) by assumption.
    destruct (resolveReference ref nodes) as [node|].
    + right. repeat split.
    + left. eexists. split; [|reflexivity]. reflexivity.
  - destruct (isConnectOrDisconnect (type draft)) eqn:Hc.
    + assert ((present (sourceNodeId draft) && present (targetNodeId draft))%bool
              = true) as Hboth
        by (revert Hc Hp; destruct (type draft); try discriminate; auto).
      apply andb_true_iff in Hboth. destruct Hboth as [Hs Htg].
      apply present_some in Hs. destruct Hs as (source & Hs & Hts).
      apply present_some in Htg. destruct Htg as (target & Htg & Htt).
      rewrite (@validate_endpoints nodes draft source target) by assumption.
      destruct (nodeByIdOrLabel source nodes);
        [destruct (nodeByIdOrLabel target nodes)|];
        try (left; eexists; split; [|reflexivity]; reflexivity).
      right. repeat split.
    + right. unfold validateAndResolveCommand. rewrite Hd. simpl.
      rewrite (resolveEndpoints_other nodes draft Hc). repeat split.
Qed.

(** *** The validator on a value of the declared type *)

Lemma lookup_setField name k v : forall fields,
  lookupField name (setField k v fields)
  = if String.eqb k name then v else lookupField name fields.
Proof.
  induction fields as [|[k0 old] t IH]; [reflexivity|].
  cbn [setField]. destruct (String.eqb k0 k) eqn:E; cbn [lookupField].
  - apply String.eqb_eq in E. subst k0. destruct (String.eqb k name); reflexivity.
  - rewrite IH. destruct (String.eqb k0 name) eqn:E0; [|reflexivity].
    apply String.eqb_eq in E0. subst k0.
    rewrite String.eqb_sym, E. reflexivity.
Qed.

Lemma field_assign v k x name :
  (exists fields, v = JObj fields) ->
  field (assign v k x) name = if String.eqb k name then x else field v name.
Proof. intros [fields ->]. apply lookup_setField. Qed.

Lemma typeOfName_typeName t : typeOfName (typeName t) = Some t.
Proof. destruct t; reflexivity. Qed.

Lemma typeOfName_some name t : typeOfName name = Some t -> name = typeName t.
Proof.
  intros H. apply find_some in H. destruct H as [_ H].
  apply String.eqb_eq in H. symmetry. exact H.
Qed.

Lemma asCommand_object v c : asCommand v = Some c -> exists fields, v = JObj fields.
Proof.
  unfold asCommand. destruct v; simpl; try discriminate. intros _. eexists. reflexivity.
Qed.

Lemma asCommand_fields v c :
  asCommand v = Some c <->
  field v "type" = JStr (typeName (type c))
  /\ stringField (field v "nodeId") = Some (nodeId c)
  /\ stringField (field v "nodeLabel") = Some (nodeLabel c)
  /\ stringField (field v "sourceNodeId") = Some (sourceNodeId c)
  /\ stringField (field v "targetNodeId") = Some (targetNodeId c)
  /\ stringField (field v "edgeId") = Some (edgeId c)
  /\ stringField (field v "message") = Some (message c).
Proof.
  unfold asCommand. split.
  - destruct (field v "type") as [ | | | | name | | ]; try discriminate.
    destruct (typeOfName name) as [t|] eqn:Et; [|discriminate].
    apply typeOfName_some in Et. subst name.
    destruct (stringField (field v "nodeId")); [|discriminate].
    destruct (stringField (field v "nodeLabel")); [|discriminate].
    destruct (stringField (field v "sourceNodeId")); [|discriminate].
    destruct (stringField (field v "targetNodeId")); [|discriminate].
    destruct (stringField (field v "edgeId")); [|discriminate].
    destruct (stringField (field v "message")); [|discriminate].
    intros H. injection H as <-. repeat split.
  - intros (-> & -> & -> & -> & -> & -> & ->). rewrite typeOfName_typeName.
    destruct c. reflexivity.
Qed.

Lemma isString_typeName t u :
  isString (typeName u) (JStr (typeName t)) = CommandType_eqb t u.
Proof. destruct t, u; reflexivity. Qed.

Lemma truthy_stringField v x : stringField v = Some x -> truthyValue v = present x.
Proof. destruct v; simpl; intros H; try discriminate; injection H as <-; reflexivity. Qed.

Lemma asCommand_unknown text :
  asCommand (unknownValue text) = Some (withMessage text (commandOf unknown)).
Proof. reflexivity. Qed.

Lemma asCommand_nodeId v c x :
  asCommand v = Some c ->
  asCommand (assign v "nodeId" (JStr x)) = Some (withNodeId x c).
Proof.
  intros H. pose proof (asCommand_object v H) as Ho.
  apply asCommand_fields in H. apply asCommand_fields.
  rewrite !(@field_assign v "nodeId" (JStr x) _ Ho). exact
    (match H with
     | conj Ht (conj _ rest) => conj Ht (conj eq_refl rest)
     end).
Qed.

Lemma asCommand_sourceNodeId v c x :
  asCommand v = Some c ->
  asCommand (assign v "sourceNodeId" (JStr x)) = Some (withSourceNodeId x c).
Proof.
  intros H. pose proof (asCommand_object v H) as Ho.
  apply asCommand_fields in H. apply asCommand_fields.
  rewrite !(@field_assign v "sourceNodeId" (JStr x) _ Ho). exact
    (match H with
     | conj Ht (conj Hn (conj Hl (conj _ rest))) =>
         conj Ht (conj Hn (conj Hl (conj eq_refl rest)))
     end).
Qed.

Lemma asCommand_targetNodeId v c x :
  asCommand v = Some c ->
  asCommand (assign v "targetNodeId" (JStr x)) = Some (withTargetNodeId x c).
Proof.
  intros H. pose proof (asCommand_object v H) as Ho.
  apply asCommand_fields in H. apply asCommand_fields.
  rewrite !(@field_assign v "targetNodeId" (JStr x) _ Ho). exact
    (match H with
     | conj Ht (conj Hn (conj Hl (conj Hs (conj _ rest)))) =>
         conj Ht (conj Hn (conj Hl (conj Hs (conj eq_refl rest))))
     end).
Qed.

(** Lines 178-193 on a value of the declared type. *)
Lemma resolveEndpointsValue_typed v c nodes :
  asCommand v = Some c ->
  asCommand (resolveEndpointsValue v nodes) = Some (resolveEndpoints c nodes).
Proof.
  intros H. pose proof H as Hf. apply asCommand_fields in Hf.
  destruct Hf as (Ht & _ & _ & Hs & Htg & _).
  unfold resolveEndpointsValue, resolveEndpoints, isConnectOrDisconnect. cbv zeta.
  rewrite Ht.
  change "connect_nodes" with (typeName connect_nodes) at 1.
  change "disconnect_nodes" with (typeName disconnect_nodes) at 1.
  rewrite !isString_typeName.
  destruct (CommandType_eqb (type c) connect_nodes
            || CommandType_eqb (type c) disconnect_nodes)%bool; [|exact H].
  rewrite (truthy_stringField _ Hs), (truthy_stringField _ Htg).
  destruct (field v "sourceNodeId") as [ | | | | source | | ]; try discriminate Hs;
    injection Hs as Hs; rewrite <- Hs; cbn [present andb]; [exact H|].
  destruct (field v "targetNodeId") as [ | | | | target | | ]; try discriminate Htg;
    injection Htg as Htg; rewrite <- Htg; cbn [present].
  - rewrite andb_false_r. exact H.
  - destruct (JS.truthy source && JS.truthy target)%bool; [|exact H].
    unfold nodeByIdOrLabel. cbn [isString].
    destruct (find (fun n => (String.eqb (id n) source || String.eqb (label n) source)%bool)
                nodes) as [sourceNode|]; [|apply asCommand_unknown].
    destruct (find (fun n => (String.eqb (id n) target || String.eqb (label n) target)%bool)
                nodes) as [targetNode|]; [|apply asCommand_unknown].
    apply asCommand_targetNodeId, asCommand_sourceNodeId, H.
Qed.

(** Lines 133-196 on a value of the declared type: nothing is thrown, and
    the value returned is the command [validateAndResolveCommand] returns. *)
Lemma validateValue_typed v c nodes :
  asCommand v = Some c ->
  exists result, validateValue v nodes = Return result
                 /\ asCommand result = Some (validateAndResolveCommand c nodes).
Proof.
  intros H. pose proof H as Hf. apply asCommand_fields in Hf.
  destruct Hf as (Ht & Hn & _).
  destruct (asCommand_object v H) as [fields ->].
  unfold validateValue, validateAndResolveCommand, isDeleteOrUpdate.
  cbn [getProp bind]. cbn [field] in Ht. rewrite Ht. cbv zeta.
  change "delete_node" with (typeName delete_node) at 1.
  change "update_node" with (typeName update_node) at 1.
  rewrite !isString_typeName, (truthy_stringField _ Hn).
  destruct ((CommandType_eqb (type c) delete_node
             || CommandType_eqb (type c) update_node) && present (nodeId c))%bool
    eqn:Hguard.
  - apply andb_true_iff in Hguard. destruct Hguard as [_ Hp].
    destruct (field (JObj fields) "nodeId") as [ | | | | ref | | ] eqn:Ef;
      try discriminate Hn; injection Hn as Hn; rewrite <- Hn in *;
      [discriminate Hp|].
    cbn [isString].
    destruct (find (fun n => String.eqb (id n) ref) nodes).
    + eexists. split; [reflexivity | apply resolveEndpointsValue_typed, H].
    + destruct (nodeByLabel ref nodes) as [node|].
      * eexists. split; [reflexivity|].
        apply resolveEndpointsValue_typed, asCommand_nodeId, H.
      * eexists. split; [reflexivity | apply asCommand_unknown].
  - eexists. split; [reflexivity | apply resolveEndpointsValue_typed, H].
Qed.

(** A [delete_node] or [update_node] whose [nodeId] is truthy and no string
    makes the validator throw. *)
Lemma validateValue_untyped_reference v nodes :
  (isString "delete_node" (field v "type")
   || isString "update_node" (field v "type"))%bool = true ->
  truthyValue (field v "nodeId") = true ->
  stringField (field v "nodeId") = None ->
  validateValue v nodes = Throw TypeError.
Proof.
  intros Ht Hn Hs. unfold validateValue.
  destruct v as [ | | b | z | s | items | fields]; try discriminate Ht.
  cbn [getProp bind]. cbn [field] in *. rewrite Ht, Hn. cbn [andb].
  assert (find (fun n => isString (id n) (lookupField "nodeId" fields)) nodes = None)
    as ->.
  { destruct (lookupField "nodeId" fields); try discriminate Hs;
      induction nodes as [|node l IH]; simpl; auto. }
  destruct (lookupField "nodeId" fields); try discriminate Hs; reflexivity.
Qed.

(** X8.  When the remote attempt succeeds in parsing a value, that value
    goes through the validator before it is returned.  A value of the
    declared type comes back as the command the validator makes of it,
    resolved against the current nodes or a diagnostic when it carries its
    references.  A value that is no command is not checked: [null], and a
    deletion or update whose [nodeId] is truthy and no string, make the
    validator throw, and the rule-based answer is returned; a number, a
    string, a boolean or an array is returned as it is. *)
Theorem remote_command_is_validated (JSON_parse : string -> option JSValue)
  (remote : Remote) (userInput : string) (nodes : list Node)
  (response : Response) (fields : list (string * JSValue)) (text : string)
  (value : JSValue) :
  present (apiKey remote) = true ->
  fetch remote = Return response -> json response = Return (JObj fields) ->
  truthyValue (lookupField "success" fields) = true ->
  generatedText (lookupField "data" fields) = Some text ->
  JSON_parse (CleanUp.jsonTextOf (JS.trim text)) = Some value ->
  (forall command, asCommand value = Some command ->
     exists result,
       parseAICommand JSON_parse remote userInput nodes = Return result
       /\ asCommand result = Some (validateAndResolveCommand command nodes)
       /\ (referencesPresent command = true ->
           resolved nodes (validateAndResolveCommand command nodes)))
  /\ (value = JNull
       \/ ((isString "delete_node" (field value "type")
            || isString "update_node" (field value "type"))%bool = true
           /\ truthyValue (field value "nodeId") = true
           /\ stringField (field value "nodeId") = None) ->
      parseAICommand JSON_parse remote userInput nodes
      = answer (getEnhancedMockResponse userInput nodes))
  /\ (match value with
      | JBool _ | JNum _ | JStr _ | JArr _ => True
      | _ => False
      end ->
      parseAICommand JSON_parse remote userInput nodes = Return value).
Proof.
  intros Hk Hf Hj Hs Ht Hp.
  rewrite (@success_returns_value JSON_parse remote userInput nodes response fields
             text value Hk Hf Hj Hs Ht Hp).
  split; [|split].
  - intros command Hc.
    destruct (@validateValue_typed value command nodes Hc) as (result & -> & Hr).
    exists result. split; [reflexivity|]. split; [exact Hr|].
    intros Href. apply validate_resolved, Href.
  - intros [-> | (H1 & H2 & H3)]; [reflexivity|].
    rewrite (@validateValue_untyped_reference value nodes H1 H2 H3). reflexivity.
  - destruct value; intros []; reflexivity.
Qed.

Lemma remote_command_is_validated_witness :
  (exists result,
     parseAICommand parseExample answering "remove the last one" twoNodes
     = Return result
     /\ asCommand result = Some (withNodeId "n2" (commandOf delete_node)))
  /\ parseAICommand parseExample (answeringWith "null") "add a node" twoNodes
     = Return (valueOf (withNodeLabel "Node 3" (commandOf add_node)))
  /\ parseAICommand parseExample (answeringWith "5") "add a node" twoNodes
     = Return (JNum 5).
Proof.
  split; [|split].
  - destruct (@remote_command_is_validated parseExample
                answering "remove the last one" twoNodes
                {| json := Return (JObj (generated (deleteText "End Call"))) |}
                (generated (deleteText "End Call"))
                (deleteText "End Call") (deleteObject "End Call")
                eq_refl eq_refl eq_refl eq_refl eq_refl eq_refl) as [H _].
    destruct (H (withNodeId "End Call" (commandOf delete_node)) eq_refl)
      as (result & Hp & Ha & _).
    exists result. split; [exact Hp | exact Ha].
  - destruct (@remote_command_is_validated parseExample
                (answeringWith "null") "add a node" twoNodes
                {| json := Return (JObj (generated "null")) |}
                (generated "null") "null" JNull
                eq_refl eq_refl eq_refl eq_refl eq_refl eq_refl) as (_ & H & _).
    rewrite H; [reflexivity | left; reflexivity].
  - destruct (@remote_command_is_validated parseExample
                (answeringWith "5") "add a node" twoNodes
                {| json := Return (JObj (generated "5")) |}
                (generated "5") "5" (JNum 5)
                eq_refl eq_refl eq_refl eq_refl eq_refl eq_refl) as (_ & _ & H).
    apply H. exact I.
Defined.

(* ================================================================== *)
(** * Properties of the flow owner *)

Section FlowFacts.

Variable XYPosition : Type.
Local Abbreviation Flow := (Home.Flow XYPosition).
Local Abbreviation Chance := (Home.Chance XYPosition).

(** Filtering keeps the keys of a list distinct. *)
Lemma filter_keeps_distinct (A B : Type) (key : A -> B) (keep : A -> bool) :
  forall items, NoDup (map key items) -> NoDup (map key (filter keep items)).
Proof.
  intros items. induction items as [|x rest IH]; cbn; [trivial|].
  rewrite NoDup_cons_iff. intros [Hfresh Hrest].
  destruct (keep x); cbn; [|exact (IH Hrest)].
  apply NoDup_cons; [|exact (IH Hrest)].
  intros Hdup. apply Hfresh. apply in_map_iff in Hdup.
  destruct Hdup as (y & Hkey & Hy). apply filter_In in Hy.
  apply in_map_iff. exists y. tauto.
Qed.

Lemma NoDup_snoc (A : Type) (l : list A) (a : A) :
  NoDup l -> ~ In a l -> NoDup (l ++ [a]).
Proof.
  induction l as [|b l IH]; simpl; intros Hl Ha.
  - constructor; [intros [] | constructor].
  - inversion Hl as [|? ? Hb Hrest]; subst. constructor.
    + intros Hin. apply in_app_or in Hin. destruct Hin as [Hin|[Heq|[]]];
        [apply Hb, Hin | apply Ha; left; symmetry; exact Heq].
    + apply IH; [exact Hrest | intros Hin; apply Ha; right; exact Hin].
Qed.

Lemma filter_all (A : Type) (p : A -> bool) (l : list A) :
  (forall a, In a l -> p a = true) -> filter p l = l.
Proof.
  induction l as [|a l IH]; simpl; intros H; [reflexivity|].
  rewrite (H a (or_introl eq_refl)). f_equal. apply IH.
  intros b Hb. apply H. right. exact Hb.
Qed.

Lemma joins_ends s t edge :
  Home.joins (Some s) (Some t) edge = true <-> ends edge = (s, t).
Proof.
  unfold Home.joins, ends. rewrite andb_true_iff, !String.eqb_eq. split.
  - intros [-> ->]. reflexivity.
  - intros H. injection H as -> ->. split; reflexivity.
Qed.

Lemma no_edge_joins s t (l : list FlowEdge.t) :
  existsb (Home.joins (Some s) (Some t)) l = false -> ~ In (s, t) (map ends l).
Proof.
  intros H Hin. apply in_map_iff in Hin. destruct Hin as (edge & He & Hin).
  assert (existsb (Home.joins (Some s) (Some t)) l = true) as Ht
    by (apply existsb_exists; exists edge; split; [exact Hin | apply joins_ends, He]).
  congruence.
Qed.

Lemma ids_after_delete x (flow : Flow) y :
  In y (flowIds (Home.handleDeleteNode x flow)) <-> In y (flowIds flow) /\ y <> x.
Proof.
  unfold flowIds, Home.handleDeleteNode. simpl. rewrite !in_map_iff. split.
  - intros (n & <- & Hin). apply filter_In in Hin. destruct Hin as [Hin Hp].
    split; [exists n; split; [reflexivity | exact Hin]|].
    apply negb_true_iff, String.eqb_neq in Hp. exact Hp.
  - intros [(n & <- & Hin) Hne]. exists n. split; [reflexivity|].
    apply filter_In. split; [exact Hin|].
    apply negb_true_iff, String.eqb_neq. exact Hne.
Qed.

Lemma edges_after_delete x (flow : Flow) edge :
  In edge (Home.edges (Home.handleDeleteNode x flow))
  <-> In edge (Home.edges flow)
      /\ FlowEdge.source edge <> x /\ FlowEdge.target edge <> x.
Proof.
  unfold Home.handleDeleteNode. simpl. rewrite filter_In, andb_true_iff,
    !negb_true_iff, !String.eqb_neq. reflexivity.
Qed.

Lemma closed_after_delete x (flow : Flow) :
  edgesClosed flow -> edgesClosed (Home.handleDeleteNode x flow).
Proof.
  intros Hc edge H. apply edges_after_delete in H. destruct H as (Hin & Hs & Ht).
  destruct (Hc edge Hin) as [Hcs Hct].
  split; apply ids_after_delete; split; assumption.
Qed.

(** X9.  Deleting a node cascades: afterwards no node has the id and no edge
    starts or ends at it, every other node and edge is still there, a flow
    without dangling edges stays so, and deleting an id of no node changes
    nothing in such a flow. *)
Theorem delete_cascades (x : string) (flow : Flow) :
  ~ In x (flowIds (Home.handleDeleteNode x flow))
  /\ (forall edge, In edge (Home.edges (Home.handleDeleteNode x flow)) ->
        FlowEdge.source edge <> x /\ FlowEdge.target edge <> x)
  /\ (forall node, In node (Home.nodes flow) -> FlowNode.id node <> x ->
        In node (Home.nodes (Home.handleDeleteNode x flow)))
  /\ (forall edge, In edge (Home.edges flow) ->
        FlowEdge.source edge <> x -> FlowEdge.target edge <> x ->
        In edge (Home.edges (Home.handleDeleteNode x flow)))
  /\ (edgesClosed flow -> edgesClosed (Home.handleDeleteNode x flow))
  /\ (edgesClosed flow -> ~ In x (flowIds flow) ->
      Home.handleDeleteNode x flow = flow).
Proof.
  split; [|split; [|split; [|split; [|split]]]].
  - intros H. apply ids_after_delete in H. destruct H as [_ H]. apply H. reflexivity.
  - intros edge H. apply edges_after_delete in H. tauto.
  - intros node Hin Hne. unfold Home.handleDeleteNode. simpl.
    apply filter_In. split; [exact Hin|].
    apply negb_true_iff, String.eqb_neq, Hne.
  - intros edge Hin Hs Ht. apply edges_after_delete. tauto.
  - apply closed_after_delete.
  - intros Hc Hx. unfold Home.handleDeleteNode. destruct flow as [ns es]. simpl.
    f_equal.
    + apply filter_all. intros n Hn. apply negb_true_iff, String.eqb_neq.
      intros Heq. apply Hx. unfold flowIds. simpl. apply in_map_iff.
      exists n. split; assumption.
    + apply filter_all. intros edge He. destruct (Hc edge He) as [Hs Ht].
      apply andb_true_iff. split; apply negb_true_iff, String.eqb_neq;
        intros Heq; apply Hx; congruence.
Qed.

Lemma existsb_snoc (A : Type) (p : A -> bool) (l : list A) (a : A) :
  existsb p (l ++ [a]) = (existsb p l || p a)%bool.
Proof. rewrite existsb_app. simpl. rewrite orb_false_r. reflexivity. Qed.

Lemma joins_newEdge (chance : Chance) s t :
  Home.joins (Some s) (Some t) (Home.newEdge chance s t) = true.
Proof. apply joins_ends. reflexivity. Qed.

(** X10.  Asking twice for the same connection: when the component has
    rendered in between, the second call reads the edge the first one added
    and changes nothing, whatever ids are drawn; when the second call is made
    on the closure of the first, that edge is not read and a second edge with
    the same ends is added. *)
Theorem connect_twice (s t : string) (first second : Chance) (flow : Flow) :
  JS.truthy s = true -> JS.truthy t = true ->
  let once := Home.handleAICommand (connectCommand s t) first flow flow in
  Home.handleAICommand (connectCommand s t) second once once = once
  /\ (~ In (s, t) (map ends (Home.edges flow)) ->
      Home.handleAICommand (connectCommand s t) second flow once
      = {| Home.nodes := Home.nodes flow;
           Home.edges := (Home.edges flow
                          ++ [Home.newEdge first s t; Home.newEdge second s t])%list |}).
Proof.
  intros Hs Ht once. unfold once, Home.handleAICommand, connectCommand.
  cbn [type withTargetNodeId withSourceNodeId commandOf sourceNodeId targetNodeId].
  rewrite Hs, Ht. cbn [andb]. cbv zeta. split.
  - destruct (existsb (Home.joins (Some s) (Some t)) (Home.edges flow)) eqn:E;
      cbn [negb Home.edges].
    + rewrite E. reflexivity.
    + rewrite existsb_snoc, joins_newEdge, orb_true_r. reflexivity.
  - intros Hnone.
    assert (existsb (Home.joins (Some s) (Some t)) (Home.edges flow) = false) as E.
    { destruct (existsb (Home.joins (Some s) (Some t)) (Home.edges flow)) eqn:E;
        [|reflexivity].
      apply existsb_exists in E. destruct E as (edge & Hin & Hj).
      exfalso. apply Hnone. apply in_map_iff. exists edge.
      split; [apply joins_ends, Hj | exact Hin]. }
    rewrite E. cbn [negb Home.nodes Home.edges]. rewrite <- List.app_assoc.
    reflexivity.
Qed.

Lemma filter_snoc_out (A : Type) (p : A -> bool) (l : list A) (a : A) :
  (forall b, In b l -> p b = true) -> p a = false -> filter p (l ++ [a]) = l.
Proof.
  intros Hl Ha. rewrite filter_app. simpl. rewrite Ha, app_nil_r.
  apply filter_all, Hl.
Qed.

(** X11.  Disconnecting removes every edge from the source to the target and
    no other edge, whatever its closure holds; and when no such edge was
    there, connecting and then disconnecting gives the flow back, whatever
    the two closures hold. *)
Theorem disconnect_undoes_connect (s t : string) (first second : Chance)
  (seen seen' flow : Flow) :
  JS.truthy s = true -> JS.truthy t = true ->
  (forall edge,
     In edge (Home.edges
                (Home.handleAICommand (disconnectCommand s t) first seen flow))
     <-> In edge (Home.edges flow) /\ ends edge <> (s, t))
  /\ Home.nodes (Home.handleAICommand (disconnectCommand s t) first seen flow)
     = Home.nodes flow
  /\ (~ In (s, t) (map ends (Home.edges flow)) ->
      Home.handleAICommand (disconnectCommand s t) second seen'
        (Home.handleAICommand (connectCommand s t) first seen flow) = flow).
Proof.
  intros Hs Ht. unfold Home.handleAICommand, disconnectCommand, connectCommand.
  simpl. rewrite Hs, Ht. simpl. split; [|split; [reflexivity|]].
  - intros edge. rewrite filter_In, negb_true_iff. split.
    + intros [Hin Hj]. split; [exact Hin|]. intros He.
      apply joins_ends in He. unfold Home.joins in He. congruence.
    + intros [Hin Hne]. split; [exact Hin|].
      change (Home.joins (Some s) (Some t) edge = false).
      destruct (Home.joins (Some s) (Some t) edge) eqn:E; [|reflexivity].
      apply joins_ends in E. contradiction.
  - intros Hnone.
    assert (forall edge, In edge (Home.edges flow) ->
              negb (Home.joins (Some s) (Some t) edge) = true) as Hall.
    { intros edge Hin. apply negb_true_iff.
      destruct (Home.joins (Some s) (Some t) edge) eqn:E; [|reflexivity].
      exfalso. apply Hnone. apply in_map_iff. exists edge.
      split; [apply joins_ends, E | exact Hin]. }
    destruct flow as [ns es]. simpl in *.
    destruct (existsb (Home.joins (Some s) (Some t)) (Home.edges seen)); simpl.
    + f_equal. apply filter_all, Hall.
    + f_equal. apply filter_snoc_out; [exact Hall|].
      apply negb_false_iff. apply (joins_newEdge first).
Qed.

Lemma ids_after_update x text (flow : Flow) :
  flowIds (Home.handleUpdateNodeLabel x text flow) = flowIds flow.
Proof.
  unfold flowIds, Home.handleUpdateNodeLabel. simpl. rewrite map_map.
  apply map_ext. intros n. destruct (String.eqb (FlowNode.id n) x); reflexivity.
Qed.

Lemma wellFormed_same_ids (flow flow' : Flow) :
  flowIds flow' = flowIds flow -> Home.edges flow' = Home.edges flow ->
  wellFormed flow -> wellFormed flow'.
Proof.
  unfold wellFormed, uniqueIds, edgesClosed, simpleEdges.
  intros Hi He. rewrite Hi, He. tauto.
Qed.

Lemma wellFormed_delete x (flow : Flow) :
  wellFormed flow -> wellFormed (Home.handleDeleteNode x flow).
Proof.
  intros (Hu & Hc & Hs). split; [|split].
  - unfold uniqueIds, flowIds, Home.handleDeleteNode. simpl.
    apply filter_keeps_distinct, Hu.
  - apply closed_after_delete, Hc.
  - unfold simpleEdges, Home.handleDeleteNode. simpl. apply filter_keeps_distinct, Hs.
Qed.

Lemma wellFormed_connect s t (chance : Chance) (flow : Flow) :
  wellFormed flow -> In s (flowIds flow) -> In t (flowIds flow) ->
  existsb (Home.joins (Some s) (Some t)) (Home.edges flow) = false ->
  wellFormed {| Home.nodes := Home.nodes flow;
                Home.edges := Home.edges flow ++ [Home.newEdge chance s t] |}.
Proof.
  intros (Hu & Hc & Hs) His Hit Hex. split; [exact Hu|]. split.
  - intros edge Hin. simpl in Hin. apply in_app_or in Hin.
    destruct Hin as [Hin|[<-|[]]]; [apply Hc, Hin|]. split; assumption.
  - unfold simpleEdges. simpl. rewrite map_app. simpl.
    apply NoDup_snoc; [exact Hs | apply no_edge_joins, Hex].
Qed.

Lemma wellFormed_add text (chance : Chance) (flow : Flow) :
  wellFormed flow -> freshNode chance flow ->
  wellFormed {| Home.nodes := Home.nodes flow ++ [Home.newNode chance text];
                Home.edges := Home.edges flow |}.
Proof.
  intros (Hu & Hc & Hs) Hf. split; [|split; [|exact Hs]].
  - unfold uniqueIds, flowIds. simpl. rewrite map_app. simpl.
    apply NoDup_snoc; [exact Hu | exact Hf].
  - intros edge Hin. destruct (Hc edge Hin) as [H1 H2].
    unfold flowIds. simpl. rewrite map_app. split; apply in_or_app; left; assumption.
Qed.

Lemma wellFormed_disconnect s t (flow : Flow) :
  wellFormed flow ->
  wellFormed {| Home.nodes := Home.nodes flow;
                Home.edges := filter (fun edge => negb (Home.joins (Some s) (Some t) edge))
                                (Home.edges flow) |}.
Proof.
  intros (Hu & Hc & Hs). split; [exact Hu|]. split.
  - intros edge Hin. simpl in Hin. apply filter_In in Hin. apply Hc, Hin.
  - unfold simpleEdges. simpl. apply filter_keeps_distinct, Hs.
Qed.

Lemma knownId_in view (flow : Flow) x s :
  viewOf view flow -> knownId view x -> x = Some s -> In s (flowIds flow).
Proof.
  intros Hv (n & Hin & Hx) Hs. rewrite Hx in Hs. injection Hs as <-.
  rewrite <- Hv. apply in_map, Hin.
Qed.

(** A resolved command keeps a flow well formed, when its closure holds
    the edges of the flow. *)
Lemma resolved_command_keeps_wellFormed view command (chance : Chance)
  (seen flow : Flow) :
  viewOf view flow -> resolved view command ->
  wellFormed flow -> freshNode chance flow ->
  Home.edges seen = Home.edges flow ->
  wellFormed (Home.handleAICommand command chance seen flow).
Proof.
  intros Hv Hr Hw Hf Hseen. unfold Home.handleAICommand, resolved in *.
  destruct (type command).
  - apply wellFormed_add; assumption.
  - destruct (nodeId command) as [x|]; [|exact Hw].
    destruct (JS.truthy x); [apply wellFormed_delete, Hw | exact Hw].
  - destruct (nodeId command) as [x|]; [|exact Hw].
    destruct (nodeLabel command) as [text|]; [|exact Hw].
    destruct (JS.truthy x && JS.truthy text)%bool; [|exact Hw].
    eapply wellFormed_same_ids; [apply ids_after_update | reflexivity | exact Hw].
  - destruct Hr as [Hks Hkt].
    destruct (sourceNodeId command) as [s|] eqn:Es; [|exact Hw].
    destruct (targetNodeId command) as [t|] eqn:Et; [|exact Hw].
    destruct (JS.truthy s && JS.truthy t)%bool; [|exact Hw]. cbv zeta.
    rewrite Hseen.
    destruct (existsb (Home.joins (Some s) (Some t)) (Home.edges flow)) eqn:E;
      [exact Hw|]. simpl.
    apply wellFormed_connect; try assumption.
    + exact (knownId_in Hv Hks eq_refl).
    + exact (knownId_in Hv Hkt eq_refl).
  - destruct (sourceNodeId command) as [s|]; [|exact Hw].
    destruct (targetNodeId command) as [t|]; [|exact Hw].
    destruct (JS.truthy s && JS.truthy t)%bool; [|exact Hw].
    apply wellFormed_disconnect, Hw.
  - exact Hw.
  - exact Hw.
Qed.

(** A command without the references of its type does nothing. *)
Lemma unreferenced_command_does_nothing command (chance : Chance)
  (seen flow : Flow) :
  referencesPresent command = false ->
  Home.handleAICommand command chance seen flow = flow.
Proof.
  unfold referencesPresent, Home.handleAICommand, present.
  destruct (type command); try discriminate.
  - destruct (nodeId command) as [x|]; [|reflexivity]. intros ->. reflexivity.
  - destruct (nodeId command) as [x|]; [|reflexivity]. intros ->.
    destruct (nodeLabel command); reflexivity.
  - destruct (sourceNodeId command) as [s|]; [|reflexivity].
    destruct (targetNodeId command) as [t|]; [|reflexivity]. intros ->. reflexivity.
  - destruct (sourceNodeId command) as [s|]; [|reflexivity].
    destruct (targetNodeId command) as [t|]; [|reflexivity]. intros ->. reflexivity.
Qed.

(** A connection made on a closure that does not hold an edge of the flow
    doubles that edge. *)
Lemma stale_connect_doubles s t (chance : Chance) (seen flow : Flow) :
  JS.truthy s = true -> JS.truthy t = true ->
  In (s, t) (map ends (Home.edges flow)) ->
  ~ In (s, t) (map ends (Home.edges seen)) ->
  ~ simpleEdges (Home.handleAICommand (connectCommand s t) chance seen flow).
Proof.
  intros Hs Ht Hin Hnot. unfold Home.handleAICommand, connectCommand.
  cbn [type withTargetNodeId withSourceNodeId commandOf sourceNodeId targetNodeId].
  rewrite Hs, Ht. cbn [andb]. cbv zeta.
  assert (existsb (Home.joins (Some s) (Some t)) (Home.edges seen) = false) as E.
  { destruct (existsb (Home.joins (Some s) (Some t)) (Home.edges seen)) eqn:E;
      [|reflexivity].
    apply existsb_exists in E. destruct E as (edge & He & Hj).
    exfalso. apply Hnot. apply in_map_iff. exists edge.
    split; [apply joins_ends, Hj | exact He]. }
  rewrite E. cbn [negb]. unfold simpleEdges. cbn [Home.edges].
  rewrite map_app. cbn [map]. intros Hnd.
  apply NoDup_remove_2 in Hnd. apply Hnd. rewrite app_nil_r. exact Hin.
Qed.

(** X12.  Whatever the user types and whatever draft the remote model sends,
    applying the answer keeps the flow well formed: the ids of the nodes stay
    distinct, no edge dangles and no two edges join the same nodes the same
    way; provided the parser was given the nodes of the flow, the id drawn
    for a new node is new, and the closure of the handler holds the edges of
    the flow, as the callback of the last render does.  A draft that passes
    the validator without its references is ignored by the owner.  On a
    closure that misses an edge of the flow, connecting its ends again gives
    two edges with the same ends. *)
Theorem answers_keep_the_flow_well_formed (view : list Node) (seen flow : Flow)
  (chance : Chance) (userInput : string) (draft : AICommand) :
  viewOf view flow -> wellFormed flow -> freshNode chance flow ->
  (Home.edges seen = Home.edges flow ->
     (forall c, getEnhancedMockResponse userInput view = Return c ->
        wellFormed (Home.handleAICommand c chance seen flow))
     /\ wellFormed (Home.handleAICommand (validateAndResolveCommand draft view)
                      chance seen flow))
  /\ (forall s t, JS.truthy s = true -> JS.truthy t = true ->
        In (s, t) (map ends (Home.edges flow)) ->
        ~ In (s, t) (map ends (Home.edges seen)) ->
        ~ wellFormed (Home.handleAICommand (connectCommand s t) chance seen flow)).
Proof.
  intros Hv Hw Hf. split.
  - intros Hseen. split.
    + intros c Hc. destruct (classify userInput view) as (c' & Hc' & Hcl).
      rewrite Hc in Hc'. injection Hc' as <-.
      eapply resolved_command_keeps_wellFormed; try eassumption.
      eapply Classified_resolved, Hcl.
    + destruct (referencesPresent draft) eqn:Hp.
      * eapply resolved_command_keeps_wellFormed; try eassumption.
        apply validate_resolved, Hp.
      * rewrite (validate_unchanged view draft Hp).
        rewrite unreferenced_command_does_nothing by exact Hp. exact Hw.
  - intros s t Hs Ht Hin Hnot (_ & _ & Hsimple).
    exact (@stale_connect_doubles s t chance seen flow Hs Ht Hin Hnot Hsimple).
Qed.

(** X13.  A node added by a command never has an empty label: the command's
    label when it has one that is not empty, "Node " and the node count of
    the closure plus one otherwise; the node comes last, and the other nodes
    and the edges are untouched. *)
Theorem added_node_is_labelled (command : AICommand) (chance : Chance)
  (seen flow : Flow) :
  type command = add_node ->
  exists node,
    Home.handleAICommand command chance seen flow
    = {| Home.nodes := Home.nodes flow ++ [node]; Home.edges := Home.edges flow |}
    /\ JS.truthy (FlowNode.label node) = true
    /\ (forall text, nodeLabel command = Some text -> JS.truthy text = true ->
          FlowNode.label node = text)
    /\ (present (nodeLabel command) = false ->
          FlowNode.label node
          = "Node " ++ JS.showNat (List.length (Home.nodes seen) + 1)).
Proof.
  intros Ht. unfold Home.handleAICommand. rewrite Ht. cbv zeta.
  eexists. split; [reflexivity|]. simpl.
  destruct (nodeLabel command) as [text|]; simpl.
  - destruct (JS.truthy text) eqn:E; simpl.
    + split; [exact E|]. split; [intros ? H _; injection H as <-; reflexivity|].
      discriminate.
    + split; [reflexivity|]. split; [|reflexivity].
      intros ? H Hx. injection H as <-. congruence.
  - split; [reflexivity|]. split; [discriminate | reflexivity].
Qed.

(** X14.  Drawing a connection on the canvas does what the [connect_nodes]
    command does: with the same draw and the same closure [handleConnect]
    and the command give the same flow, and a connection that lacks an end
    changes nothing. *)
Theorem drawn_connection_is_connect_command (params : Connection.t)
  (chance : Chance) (seen flow : Flow) :
  (forall s t, Connection.source params = Some s -> Connection.target params = Some t ->
     Home.handleConnect params chance seen flow
     = Home.handleAICommand (connectCommand s t) chance seen flow)
  /\ ((present (Connection.source params) && present (Connection.target params))%bool
      = false -> Home.handleConnect params chance seen flow = flow).
Proof.
  split.
  - intros s t Hs Ht. unfold Home.handleConnect, Home.onConnect,
      Home.handleAICommand, connectCommand. rewrite Hs, Ht. simpl.
    destruct (JS.truthy s); simpl; [|reflexivity].
    destruct (JS.truthy t); simpl; [|reflexivity].
    rewrite andb_true_r.
    destruct (existsb (Home.joins (Some s) (Some t)) (Home.edges seen)); reflexivity.
  - intros H. unfold Home.handleConnect. rewrite H. reflexivity.
Qed.

End FlowFacts.

Lemma connect_twice_witness :
  Home.handleAICommand (connectCommand "n2" "n1") laterChance twoNodeFlow
    (Home.handleAICommand (connectCommand "n2" "n1") someChance
       twoNodeFlow twoNodeFlow)
  = {| Home.nodes := Home.nodes twoNodeFlow;
       Home.edges := (Home.edges twoNodeFlow
                      ++ [Home.newEdge someChance "n2" "n1";
                          Home.newEdge laterChance "n2" "n1"])%list |}.
Proof.
  destruct (@connect_twice (Z * Z) "n2" "n1" someChance laterChance twoNodeFlow
              eq_refl eq_refl) as [_ H].
  apply H. simpl. intros [H'|[]]. discriminate.
Defined.

Lemma disconnect_undoes_connect_witness :
  Home.handleAICommand (disconnectCommand "n2" "n1") laterChance twoNodeFlow
    (Home.handleAICommand (connectCommand "n2" "n1") someChance
       twoNodeFlow twoNodeFlow)
  = twoNodeFlow.
Proof.
  destruct (@disconnect_undoes_connect (Z * Z) "n2" "n1" someChance laterChance
              twoNodeFlow twoNodeFlow twoNodeFlow eq_refl eq_refl) as (_ & _ & H).
  apply H. simpl. intros [H'|[]]. discriminate.
Defined.

Lemma twoNodeFlow_wellFormed : wellFormed twoNodeFlow.
Proof.
  split; [|split].
  - unfold uniqueIds. simpl. repeat constructor; simpl; intuition discriminate.
  - intros edge [<-|[]]. simpl. auto.
  - unfold simpleEdges. simpl. repeat constructor. intros [].
Qed.

Lemma answers_keep_the_flow_well_formed_witness :
  wellFormed (Home.handleAICommand (withNodeId "n1" (commandOf delete_node))
                someChance twoNodeFlow twoNodeFlow).
Proof.
  destruct (@answers_keep_the_flow_well_formed (Z * Z) twoNodes twoNodeFlow
              twoNodeFlow someChance "delete node 1" (commandOf unknown)) as [H _].
  - reflexivity.
  - exact twoNodeFlow_wellFormed.
  - unfold freshNode. simpl. vm_compute. intros [H|[H|[]]]; discriminate.
  - destruct (H eq_refl) as [H' _]. apply H'. vm_compute. reflexivity.
Defined.

Lemma added_node_is_labelled_witness :
  exists node,
    Home.handleAICommand (withNodeLabel "" (commandOf add_node)) someChance
      twoNodeFlow twoNodeFlow
    = {| Home.nodes := Home.nodes twoNodeFlow ++ [node];
         Home.edges := Home.edges twoNodeFlow |}
    /\ FlowNode.label node = "Node 3".
Proof.
  destruct (@added_node_is_labelled (Z * Z) (withNodeLabel "" (commandOf add_node))
              someChance twoNodeFlow twoNodeFlow eq_refl)
    as (node & Hflow & _ & _ & Hdefault).
  exists node. split; [exact Hflow | apply Hdefault; reflexivity].
Defined.

Lemma drawn_connection_is_connect_command_witness :
  Home.handleConnect {| Connection.source := Some "n2"; Connection.target := Some "n1" |}
    someChance twoNodeFlow twoNodeFlow
  = Home.handleAICommand (connectCommand "n2" "n1") someChance
      twoNodeFlow twoNodeFlow.
Proof.
  destruct (@drawn_connection_is_connect_command (Z * Z)
              {| Connection.source := Some "n2"; Connection.target := Some "n1" |}
              someChance twoNodeFlow twoNodeFlow) as [H _].
  apply H; reflexivity.
Defined.

Lemma delete_cascades_witness :
  Home.handleDeleteNode "zzz" twoNodeFlow = twoNodeFlow
  /\ edgesClosed (Home.handleDeleteNode "n2" twoNodeFlow).
Proof.
  destruct (@delete_cascades (Z * Z) "zzz" twoNodeFlow) as (_ & _ & _ & _ & _ & H).
  destruct (@delete_cascades (Z * Z) "n2" twoNodeFlow) as (_ & _ & _ & _ & H' & _).
  pose proof twoNodeFlow_wellFormed as (_ & Hc & _). split.
  - apply H; [exact Hc|]. simpl. intros [E|[E|[]]]; discriminate.
  - apply H', Hc.
Defined.

(* ================================================================== *)
(** * Properties of the route *)

Section RouteFacts.

Variable messageOf : exn -> string.

Lemma orText_truthy x text :
  JS.truthy text = true -> truthyValue (Route.orText x text) = true.
Proof.
  intros H. unfold Route.orText. destruct (truthyValue x) eqn:E; [exact E | exact H].
Qed.

Lemma caught_shape text body :
  JS.truthy text = true ->
  (forall v, body = Return v ->
     (exists error, v = Route.failure error /\ truthyValue error = true)
     \/ (exists answer, v = Route.success answer)) ->
  exists v, Route.caught messageOf text body = Return v
            /\ ((exists error, v = Route.failure error /\ truthyValue error = true)
                \/ (exists answer, v = Route.success answer)).
Proof.
  intros Ht H. destruct body as [v|e]; simpl.
  - exists v. split; [reflexivity | apply H; reflexivity].
  - eexists. split; [reflexivity|]. left. eexists. split; [reflexivity|].
    apply orText_truthy, Ht.
Qed.

Lemma ask_shape server v :
  Route.ask server = Return v ->
  (exists error, v = Route.failure error /\ truthyValue error = true)
  \/ (exists answer response data,
        v = Route.success answer
        /\ Route.upstream server = Return response /\ Route.ok response = true
        /\ Route.json response = Return data
        /\ Route.textOfAnswer data = Return (Some answer)).
Proof.
  unfold Route.ask. destruct (Route.upstream server) as [response|e]; simpl;
    [|discriminate].
  destruct (Route.ok response) eqn:Hok; simpl.
  - destruct (Route.json response) as [data|e] eqn:Hjson; simpl; [|discriminate].
    destruct (Route.textOfAnswer data) as [[answer|]|e] eqn:E; simpl;
      try discriminate; intros H; injection H as <-.
    + right. exists answer, response, data.
      repeat split; try reflexivity; assumption.
    + left. eexists. split; reflexivity.
  - match goal with
    | |- bind (getProp ?d "error") _ = _ -> _ => destruct (getProp d "error") as [err|e]
    end; simpl; [|discriminate].
    intros H; injection H as <-. left. eexists. split; [reflexivity|].
    apply orText_truthy. reflexivity.
Qed.

Lemma POST_answers (server : Route.Server) :
  (exists body, Route.POST messageOf server = Return body
     /\ ((exists error, body = Route.failure error /\ truthyValue error = true)
         \/ (exists answer response data,
               body = Route.success answer /\ serverKey server = true
               /\ Route.upstream server = Return response
               /\ Route.ok response = true
               /\ Route.json response = Return data
               /\ Route.textOfAnswer data = Return (Some answer))))
  /\ (serverKey server = false ->
      forall request,
        Route.requestBody server = Return request ->
        request <> JNull -> request <> JUndefined ->
        Route.POST messageOf server
        = Return (Route.failure (JStr "API key not configured"))).
Proof.
  split.
  - unfold Route.POST.
    destruct (Route.requestBody server) as [request|e]; simpl;
      [|eexists; split; [reflexivity|]; left; eexists; split;
        [reflexivity | apply orText_truthy; reflexivity]].
    destruct (getProp request "prompt") as [prompt|e]; simpl;
      [|eexists; split; [reflexivity|]; left; eexists; split;
        [reflexivity | apply orText_truthy; reflexivity]].
    assert (present (if present (Route.publicKey server)
                     then Route.publicKey server else Route.secretKey server)
            = serverKey server) as Hkey
      by (unfold serverKey; destruct (present (Route.publicKey server)) eqn:E;
          [exact E | reflexivity]).
    rewrite Hkey. destruct (serverKey server); simpl;
      [|eexists; split; [reflexivity|]; left; eexists; split; reflexivity].
    destruct (Route.ask server) as [v|e] eqn:E; simpl.
    + exists v. split; [reflexivity|]. apply ask_shape in E.
      destruct E as [E|(answer & response & data & E)]; [left; exact E|].
      right. exists answer, response, data. tauto.
    + eexists. split; [reflexivity|]. left. eexists. split;
        [reflexivity | apply orText_truthy; reflexivity].
  - intros Hkey request Hr Hnull Hundef. unfold Route.POST. rewrite Hr. simpl.
    assert (present (if present (Route.publicKey server)
                     then Route.publicKey server else Route.secretKey server)
            = false) as ->.
    { unfold serverKey in Hkey. apply orb_false_iff in Hkey.
      destruct Hkey as [H1 H2]. rewrite H1. exact H2. }
    destruct request; simpl; try reflexivity; congruence.
Qed.

Lemma POST_shape server :
  exists body, Route.POST messageOf server = Return body
    /\ ((exists error, body = Route.failure error /\ truthyValue error = true)
        \/ (exists answer, body = Route.success answer)).
Proof.
  destruct (POST_answers server) as [(body & H & Hs) _].
  exists body. split; [exact H|].
  destruct Hs as [Hs|(answer & _ & _ & Hs & _)]; [left; exact Hs|].
  right. exists answer. exact Hs.
Qed.

(** X15.  The route always answers, with a body that is either a failure
    that carries an error that is not empty and [success: false], or
    [success: true] with the text of the provider; the latter only when a key
    is configured, the provider answered with an ok status and a body that
    could be read and that holds a text.  Without a key the answer is "API key
    not configured" and the provider's answer plays no part. *)
Theorem route_always_answers (server : Route.Server) :
  (exists body, Route.POST messageOf server = Return body
     /\ ((exists error, body = Route.failure error /\ truthyValue error = true)
         \/ (exists answer response data,
               body = Route.success answer /\ serverKey server = true
               /\ Route.upstream server = Return response
               /\ Route.ok response = true
               /\ Route.json response = Return data
               /\ Route.textOfAnswer data = Return (Some answer))))
  /\ (serverKey server = false ->
      forall request,
        Route.requestBody server = Return request ->
        request <> JNull -> request <> JUndefined ->
        Route.POST messageOf server
        = Return (Route.failure (JStr "API key not configured"))).
Proof. apply POST_answers. Qed.

End RouteFacts.

Section RouteToParser.

Variable JSON_parse : string -> option JSValue.
Variable messageOf : exn -> string.

Lemma attempt_via_route clientKey server nodes body :
  Route.POST messageOf server = Return body ->
  attempt JSON_parse (viaRoute messageOf clientKey server) nodes
  = attempt JSON_parse
      {| apiKey := clientKey;
         fetch := Return {| json := Return (Route.wire body) |} |} nodes.
Proof. intros H. unfold attempt, viaRoute. simpl. rewrite H. reflexivity. Qed.

Lemma attempt_on_failure clientKey nodes error command :
  truthyValue error = true ->
  attempt JSON_parse
    {| apiKey := clientKey;
       fetch := Return {| json := Return (Route.wire (Route.failure error)) |} |}
    nodes <> Return (Some command).
Proof.
  intros He. unfold attempt. simpl.
  destruct error; simpl in *; try discriminate.
Qed.

Lemma attempt_on_success clientKey nodes answered :
  attempt JSON_parse
    {| apiKey := clientKey;
       fetch := Return {| json := Return (Route.wire (Route.success answered)) |} |}
    nodes
  = match answered with
    | JStr s =>
        if JS.truthy s
        then match JSON_parse (CleanUp.jsonTextOf (JS.trim s)) with
             | Some value =>
                 bind (validateValue value nodes) (fun validated =>
                   Return (Some validated))
             | None => Throw SyntaxError
             end
        else Return None
    | JUndefined | JNull => Return None
    | JBool b => if b then Throw TypeError else Return None
    | JNum n => if Z.eqb n 0 then Return None else Throw TypeError
    | JArr _ | JObj _ => Throw TypeError
    end.
Proof.
  unfold attempt, textOf, trimValue.
  destruct answered as [ | | [|] | n | s | items | fields]; simpl; try reflexivity.
  - destruct (Z.eqb n 0); reflexivity.
  - destruct (JS.truthy s); cbn [bind]; [|reflexivity].
    destruct (JSON_parse (CleanUp.jsonTextOf (JS.trim s))); reflexivity.
Qed.

(** X16.  From the provider to the command: when the browser's request
    reaches the route, [parseAICommand] returns what the validator returns
    for the value parsed from the provider's text, if the route answers
    [success: true] with a text that is a string, not empty, and parses, and
    the validator does not throw; in every other case, a failure of the route
    included, it returns the answer of the rule-based parser. *)
Theorem route_to_parser (clientKey : option string) (server : Route.Server)
  (userInput : string) (nodes : list Node) (body : JSValue) :
  present clientKey = true ->
  Route.POST messageOf server = Return body ->
  parseAICommand JSON_parse (viaRoute messageOf clientKey server) userInput nodes
  = match answeredText body with
    | Some s =>
        match JSON_parse (CleanUp.jsonTextOf (JS.trim s)) with
        | Some value =>
            match validateValue value nodes with
            | Return result => Return result
            | Throw _ => answer (getEnhancedMockResponse userInput nodes)
            end
        | None => answer (getEnhancedMockResponse userInput nodes)
        end
    | None => answer (getEnhancedMockResponse userInput nodes)
    end.
Proof.
  intros Hk Hpost. unfold parseAICommand.
  change (apiKey (viaRoute messageOf clientKey server)) with clientKey.
  rewrite Hk. simpl negb. cbv iota.
  rewrite (attempt_via_route clientKey server nodes Hpost).
  destruct (POST_shape messageOf server) as (body' & Hpost' & Hshape).
  rewrite Hpost in Hpost'. injection Hpost' as <-.
  destruct Hshape as [(error & -> & He)|(answered & ->)].
  - unfold answeredText. simpl.
    pose proof (@attempt_on_failure clientKey nodes error) as Hno.
    destruct (attempt JSON_parse _ nodes) as [[command|]|e];
      [exfalso; eapply Hno; [exact He | reflexivity] | reflexivity | reflexivity].
  - rewrite attempt_on_success. unfold answeredText. simpl.
    destruct answered as [ | | [|] | n | s | items | fields]; simpl; try reflexivity.
    + destruct (Z.eqb n 0); reflexivity.
    + destruct (JS.truthy s); [|reflexivity].
      destruct (JSON_parse (CleanUp.jsonTextOf (JS.trim s))) as [value|];
        [|reflexivity].
      destruct (validateValue value nodes); reflexivity.
Qed.

End RouteToParser.

Lemma route_always_answers_witness :
  Route.POST noMessage keyless = Return (Route.failure (JStr "API key not configured")).
Proof.
  destruct (route_always_answers noMessage keyless) as [_ H].
  apply (H eq_refl (JObj [("prompt", JStr "add a node")])); [reflexivity | |];
    discriminate.
Defined.

Lemma route_to_parser_witness :
  parseAICommand parseExample
    (viaRoute noMessage (Some "key") served) "remove the last one" twoNodes
  = Return (deleteObject "n2").
Proof.
  rewrite (@route_to_parser parseExample noMessage (Some "key") served
             "remove the last one" twoNodes
             (Route.success (JStr (" " ++ deleteText "End Call" ++ " ")))
             eq_refl eq_refl).
  reflexivity.
Defined.

(* ================================================================== *)
(** * Properties of the clean-up of the remote text *)

Module CleanUpFacts.
Import RegExp RegExpFacts CleanUp.

Lemma length_app a b : String.length (a ++ b) = String.length a + String.length b.
Proof. induction a as [|c t IH]; simpl; [reflexivity | rewrite IH; reflexivity]. Qed.

Lemma app_assoc a b c : (a ++ b) ++ c = a ++ b ++ c.
Proof. induction a as [|x t IH]; simpl; [reflexivity | rewrite IH; reflexivity]. Qed.

Lemma app_empty a : a ++ EmptyString = a.
Proof. induction a as [|x t IH]; simpl; [reflexivity | rewrite IH; reflexivity]. Qed.

Lemma substring_skip pre n x :
  String.substring (String.length pre) n (pre ++ x) = String.substring 0 n x.
Proof. induction pre as [|c t IH]; simpl; [reflexivity | exact IH]. Qed.

Lemma substring_prefix a b :
  String.substring 0 (String.length a) (a ++ b) = a.
Proof.
  induction a as [|c t IH]; simpl; [destruct b; reflexivity|].
  rewrite IH. reflexivity.
Qed.

Lemma anyChar_step k s c t :
  rest s = String c t ->
  run false anyChar k s = k (MState t (S (pos s)) (caps s)).
Proof.
  intros H. simpl. unfold step. rewrite H. simpl.
  destruct (JS.isSpace c); reflexivity.
Qed.

Lemma closing_fails k t p caps :
  lacks "}" t = true -> run false (Chr "}") k (MState t p caps) = None.
Proof.
  intros H. simpl. unfold step. simpl. destruct t as [|c t]; [reflexivity|].
  simpl in H. apply andb_true_iff in H. destruct H as [H _].
  apply negb_true_iff in H. simpl. rewrite H. reflexivity.
Qed.

Lemma progress_next s k t caps :
  progress s k (MState t (S (pos s)) caps) = k (MState t (S (pos s)) caps).
Proof.
  unfold progress. change (pos (MState t (S (pos s)) caps)) with (S (pos s)).
  rewrite (proj2 (Nat.eqb_neq (S (pos s)) (pos s))) by lia. reflexivity.
Qed.

(** One turn of the greedy loop of [[\s\S]*]. *)
Lemma loop_turn k c t p caps fuel :
  starLoop true (run false anyChar) k (S fuel) (MState (String c t) p caps)
  = match starLoop true (run false anyChar) k fuel (MState t (S p) caps) with
    | Some res => Some res
    | None => k (MState (String c t) p caps)
    end.
Proof.
  change (starLoop true (run false anyChar) k (S fuel) (MState (String c t) p caps))
    with (choose true
            (fun _ => run false anyChar
                        (progress (MState (String c t) p caps)
                           (starLoop true (run false anyChar) k fuel))
                        (MState (String c t) p caps))
            (fun _ => k (MState (String c t) p caps))).
  unfold choose.
  rewrite (@anyChar_step _ (MState (String c t) p caps) c t eq_refl).
  rewrite (@progress_next (MState (String c t) p caps) _ t caps).
  reflexivity.
Qed.

(** After the last closing brace the loop of [[\s\S]*] finds nothing. *)
Lemma loop_without_closing k : forall t fuel p caps,
  lacks "}" t = true ->
  starLoop true (run false anyChar) (run false (Chr "}") k) fuel (MState t p caps)
  = None.
Proof.
  induction t as [|c t IH]; intros fuel p caps H.
  - destruct fuel; reflexivity.
  - destruct fuel as [|fuel]; [apply closing_fails, H|].
    rewrite loop_turn.
    assert (lacks "}" t = true) as Ht
      by (simpl in H; apply andb_true_iff in H; apply H).
    rewrite (IH fuel (S p) caps Ht). apply closing_fails, H.
Qed.

(** The greedy loop stops at the last closing brace. *)
Lemma loop_to_last_closing (f : mstate -> mstate) t : forall w fuel p caps,
  lacks "}" t = true ->
  String.length (w ++ "}" ++ t) <= fuel ->
  starLoop true (run false anyChar) (run false (Chr "}") (fun s => Some (f s)))
    fuel (MState (w ++ "}" ++ t) p caps)
  = Some (f (MState t (p + String.length w + 1) caps)).
Proof.
  induction w as [|c w IH]; intros fuel p caps Ht Hfuel.
  - destruct fuel as [|fuel]; [simpl in Hfuel; lia|].
    change (EmptyString ++ "}" ++ t) with (String "}" t).
    rewrite loop_turn, (loop_without_closing _ t fuel (S p) caps Ht).
    replace (p + String.length EmptyString + 1) with (S p) by (simpl; lia).
    reflexivity.
  - destruct fuel as [|fuel]; [simpl in Hfuel; lia|].
    change (String c w ++ "}" ++ t) with (String c (w ++ "}" ++ t)).
    rewrite loop_turn, (IH fuel (S p) caps Ht) by (simpl in *; lia).
    replace (S p + String.length w + 1) with (p + String.length (String c w) + 1)
      by (simpl; lia).
    reflexivity.
Qed.

(** The pattern of line 113 at one position. *)
Lemma braces_first c t i :
  run false (Group 0 (pattern braces)) Some (MState (String c t) i [])
  = if Ascii.eqb c "{"
    then starLoop true (run false anyChar)
           (run false (Chr "}") (fun s' => Some (setCap 0 (i, pos s') s')))
           (String.length t) (MState t (S i) [])
    else None.
Proof. reflexivity. Qed.

Lemma braces_at body post i :
  lacks "}" post = true ->
  run false (Group 0 (pattern braces)) Some
    (MState (braced body ++ post) i [])
  = Some (setCap 0 (i, i + String.length (braced body))
            (MState post (i + String.length (braced body)) [])).
Proof.
  intros Hpost. unfold braced. rewrite !app_assoc.
  change ("{" ++ body ++ "}" ++ post) with (String "{" (body ++ "}" ++ post)).
  rewrite braces_first. cbn [Ascii.eqb Bool.eqb].
  rewrite (@loop_to_last_closing
             (fun s' => setCap 0 (i, pos s') s') post body
             (String.length (body ++ "}" ++ post)) (S i) []
             Hpost (le_n _)).
  cbn [pos]. change ("{" ++ body ++ "}") with (String "{" (body ++ "}")).
  cbn [String.length]. rewrite length_app. cbn [String.length].
  replace (S i + String.length body + 1) with (i + S (String.length body + 1))
    by lia.
  reflexivity.
Qed.

Lemma search_skips pre : forall text i,
  lacks "{" pre = true ->
  search false (pattern braces) (pre ++ text) i
  = search false (pattern braces) text (i + String.length pre).
Proof.
  induction pre as [|c pre IH]; intros text i H.
  - simpl. rewrite Nat.add_0_r. reflexivity.
  - simpl in H. apply andb_true_iff in H. destruct H as [Hc Hpre].
    apply negb_true_iff in Hc.
    rewrite search_unfold.
    change (String c pre ++ text) with (String c (pre ++ text)).
    rewrite braces_first, Hc, (IH text (S i) Hpre). f_equal. simpl. lia.
Qed.

Lemma search_finds_nothing : forall text i,
  lacks "}" text = true -> search false (pattern braces) text i = None.
Proof.
  induction text as [|c text IH]; intros i H.
  - reflexivity.
  - assert (lacks "}" text = true) as Ht
      by (simpl in H; apply andb_true_iff in H; apply H).
    rewrite search_unfold, braces_first.
    destruct (Ascii.eqb c "{").
    + rewrite loop_without_closing by exact Ht. apply IH, Ht.
    + apply IH, Ht.
Qed.

(** What the pattern of line 113 matches. *)
Lemma braces_match pre body post :
  lacks "{" pre = true -> lacks "}" post = true ->
  option_map (fun m => group m 0) (match_ (pre ++ braced body ++ post) braces)
  = Some (Some (braced body)).
Proof.
  intros Hpre Hpost. unfold match_, exec.
  change (ignoreCase braces) with false.
  rewrite (search_skips pre (braced body ++ post) 0 Hpre).
  rewrite search_unfold, (braces_at body post (0 + String.length pre) Hpost).
  cbn [option_map]. unfold group, cap, setCap.
  cbn [matched subject caps setNth nth]. rewrite Nat.add_0_l.
  replace (String.length pre + String.length (braced body) - String.length pre)
    with (String.length (braced body)) by lia.
  rewrite substring_skip, substring_prefix. reflexivity.
Qed.

Lemma unfenced text :
  JS.startsWith text fence = false ->
  jsonTextOf text
  = match match_ text braces with
    | Some jsonMatch =>
        match group jsonMatch 0 with
        | Some whole => whole
        | None => text
        end
    | None => text
    end.
Proof. intros H. unfold jsonTextOf. rewrite H. reflexivity. Qed.

End CleanUpFacts.

(** X17.  Without a code fence, the text handed to [JSON.parse] is the part
    of the remote text from its first opening brace to its last closing
    brace: prose before and after a JSON object is dropped, whatever the
    object holds; a text with no closing brace goes to [JSON.parse] as it
    is. *)
Theorem object_is_extracted (pre body post text : string) :
  (lacks "{" pre = true -> lacks "}" post = true ->
   JS.startsWith (pre ++ braced body ++ post) CleanUp.fence = false ->
   CleanUp.jsonTextOf (pre ++ braced body ++ post) = braced body)
  /\ (lacks "}" text = true -> JS.startsWith text CleanUp.fence = false ->
      CleanUp.jsonTextOf text = text).
Proof.
  split.
  - intros Hpre Hpost Hf. rewrite (CleanUpFacts.unfenced _ Hf).
    pose proof (CleanUpFacts.braces_match pre body post Hpre Hpost) as H.
    destruct (RegExp.match_ (pre ++ braced body ++ post) CleanUp.braces) as [m|];
      [|discriminate].
    simpl in H. injection H as ->. reflexivity.
  - intros Ht Hf. rewrite (CleanUpFacts.unfenced _ Hf).
    unfold RegExp.match_, RegExp.exec. simpl RegExp.ignoreCase.
    rewrite (CleanUpFacts.search_finds_nothing text 0 Ht). reflexivity.
Qed.

Lemma object_is_extracted_witness :
  CleanUp.jsonTextOf ("Sure: " ++ braced "a: {b}" ++ " Done.") = braced "a: {b}"
  /\ CleanUp.jsonTextOf "no object here" = "no object here".
Proof.
  destruct (object_is_extracted "Sure: " "a: {b}" " Done." "no object here")
    as [H1 H2].
  split; [apply H1 | apply H2]; reflexivity.
Defined.

Module FenceFacts.
Import RegExp RegExpFacts CleanUp CleanUpFacts.

Lemma lacks_app c a b : lacks c (a ++ b) = (lacks c a && lacks c b)%bool.
Proof.
  induction a as [|x a IH]; simpl; [reflexivity|].
  rewrite IH, andb_assoc. reflexivity.
Qed.

Lemma removeAll_here r c t i :
  removeAll r (String c t) i 0
  = match run false (Group 0 r) Some (MState (String c t) i []) with
    | Some res =>
        match pos res - i with
        | O => String c (removeAll r t (S i) 0)
        | S k => removeAll r t (S i) k
        end
    | None => String c (removeAll r t (S i) 0)
    end.
Proof. reflexivity. Qed.

(** A fence starts with a backtick. *)
Lemma fence_needs_backtick r c t i :
  r = jsonFence \/ r = anyFence -> Ascii.eqb c "`" = false ->
  run false (Group 0 r) Some (MState (String c t) i []) = None.
Proof.
  intros [-> | ->] Hc.
  - change (run false (Group 0 jsonFence) Some (MState (String c t) i []))
      with (if Ascii.eqb c "`"
            then run false (Seq (lit "``json") (Opt true (Chr "010")))
                   (fun s' => Some (setCap 0 (i, pos s') s')) (MState t (S i) [])
            else None).
    rewrite Hc. reflexivity.
  - change (run false (Group 0 anyFence) Some (MState (String c t) i []))
      with (if Ascii.eqb c "`"
            then run false (Seq (lit "``") (Opt true (Chr "010")))
                   (fun s' => Some (setCap 0 (i, pos s') s')) (MState t (S i) [])
            else None).
    rewrite Hc. reflexivity.
Qed.

(** A text without backticks is kept as it is. *)
Lemma removeAll_keeps r : r = jsonFence \/ r = anyFence ->
  forall a b i, lacks "`" a = true ->
  removeAll r (a ++ b) i 0 = a ++ removeAll r b (i + String.length a) 0.
Proof.
  intros Hr. induction a as [|c a IH]; intros b i H.
  - simpl. rewrite Nat.add_0_r. reflexivity.
  - simpl in H. apply andb_true_iff in H. destruct H as [Hc Ha].
    apply negb_true_iff in Hc.
    change (String c a ++ b) with (String c (a ++ b)).
    rewrite removeAll_here, (@fence_needs_backtick r c (a ++ b) i Hr Hc), (IH b (S i) Ha).
    simpl. replace (i + S (String.length a)) with (S (i + String.length a)) by lia.
    reflexivity.
Qed.

Lemma json_pass_tail j : removeAll jsonFence (nl ++ "```") j 0 = nl ++ "```".
Proof. reflexivity. Qed.

Lemma any_pass_tail j : removeAll anyFence (nl ++ "```") j 0 = nl.
Proof.
  change (removeAll anyFence (nl ++ "```") j 0)
    with (String "010"
            (match S (S (S (S j))) - S j with
             | O => String "`" (removeAll anyFence "``" (S (S j)) 0)
             | S k => removeAll anyFence "``" (S (S j)) k
             end)).
  replace (S (S (S (S j))) - S j) with 3 by lia. reflexivity.
Qed.

Lemma trimEnd_last s c :
  JS.isSpace c = false ->
  JS.trimEnd (s ++ String c EmptyString) = s ++ String c EmptyString.
Proof.
  intros Hc. induction s as [|a s IH]; simpl.
  - rewrite Hc. reflexivity.
  - rewrite IH. destruct s; reflexivity.
Qed.

Lemma trim_braced body : JS.trim (braced body ++ nl) = braced body.
Proof.
  unfold JS.trim, braced.
  change (JS.trimStart (("{" ++ body ++ "}") ++ nl)) with (("{" ++ body ++ "}") ++ nl).
  rewrite trimEnd_blank by reflexivity.
  rewrite <- (app_assoc "{" body "}"). apply trimEnd_last. reflexivity.
Qed.

Lemma lacks_braced body : lacks "`" body = true -> lacks "`" (braced body) = true.
Proof. intros H. unfold braced. simpl. rewrite lacks_app, H. reflexivity. Qed.

(** The two passes of line 109 on an object followed by its closing fence. *)
Lemma json_pass body j :
  lacks "`" body = true ->
  removeAll jsonFence (braced body ++ nl ++ "```") j 0 = braced body ++ nl ++ "```".
Proof.
  intros Hb.
  rewrite (@removeAll_keeps jsonFence (or_introl eq_refl) (braced body)
             (nl ++ "```") j (lacks_braced body Hb)).
  rewrite json_pass_tail. reflexivity.
Qed.

Lemma any_pass body j :
  lacks "`" body = true ->
  removeAll anyFence (braced body ++ nl ++ "```") j 0 = braced body ++ nl.
Proof.
  intros Hb.
  rewrite (@removeAll_keeps anyFence (or_intror eq_refl) (braced body)
             (nl ++ "```") j (lacks_braced body Hb)).
  rewrite any_pass_tail. reflexivity.
Qed.

Lemma braced_alone body :
  match match_ (braced body) braces with
  | Some jsonMatch =>
      match group jsonMatch 0 with
      | Some whole => whole
      | None => braced body
      end
  | None => braced body
  end = braced body.
Proof.
  pose proof (braces_match EmptyString body EmptyString eq_refl eq_refl) as H.
  change (EmptyString ++ braced body ++ EmptyString)
    with (braced body ++ EmptyString) in H.
  rewrite app_empty in H.
  destruct (match_ (braced body) braces) as [m|]; [|reflexivity].
  simpl in H. injection H as ->. reflexivity.
Qed.

End FenceFacts.

(** X18.  A JSON object in a code fence is unwrapped: the opening fence,
    with or without its [json] tag, the closing fence and the line breaks
    around the object are removed, and the object alone goes to
    [JSON.parse]. *)
Theorem fenced_object_is_unwrapped (body : string) :
  lacks "`" body = true ->
  CleanUp.jsonTextOf ("```json" ++ nl ++ braced body ++ nl ++ "```") = braced body
  /\ CleanUp.jsonTextOf ("```" ++ nl ++ braced body ++ nl ++ "```") = braced body.
Proof.
  intros Hb. unfold CleanUp.jsonTextOf. split.
  - change (JS.startsWith ("```json" ++ nl ++ braced body ++ nl ++ "```") CleanUp.fence)
      with true. cbv iota zeta.
    change (CleanUp.removeAll CleanUp.jsonFence
              ("```json" ++ nl ++ braced body ++ nl ++ "```") 0 0)
      with (CleanUp.removeAll CleanUp.jsonFence (braced body ++ nl ++ "```") 8 0).
    rewrite (FenceFacts.json_pass body 8 Hb), (FenceFacts.any_pass body 0 Hb).
    rewrite FenceFacts.trim_braced. apply FenceFacts.braced_alone.
  - change (JS.startsWith ("```" ++ nl ++ braced body ++ nl ++ "```") CleanUp.fence)
      with true. cbv iota zeta.
    change (CleanUp.removeAll CleanUp.jsonFence
              ("```" ++ nl ++ braced body ++ nl ++ "```") 0 0)
      with ("```" ++ nl
            ++ CleanUp.removeAll CleanUp.jsonFence (braced body ++ nl ++ "```") 4 0).
    rewrite (FenceFacts.json_pass body 4 Hb).
    change (CleanUp.removeAll CleanUp.anyFence
              ("```" ++ nl ++ braced body ++ nl ++ "```") 0 0)
      with (CleanUp.removeAll CleanUp.anyFence (braced body ++ nl ++ "```") 4 0).
    rewrite (FenceFacts.any_pass body 4 Hb).
    rewrite FenceFacts.trim_braced. apply FenceFacts.braced_alone.
Qed.

Lemma fenced_object_is_unwrapped_witness :
  CleanUp.jsonTextOf ("```json" ++ nl ++ braced " type: delete_node " ++ nl ++ "```")
  = braced " type: delete_node ".
Proof. apply fenced_object_is_unwrapped. reflexivity. Defined.

(* ================================================================== *)
(** ** Numerals *)

Module NumeralFacts.

Lemma digit_cases c :
  JS.isDigit c = true ->
  In c ["0"; "1"; "2"; "3"; "4"; "5"; "6"; "7"; "8"; "9"]%char.
Proof.
  destruct c as [[] [] [] [] [] [] [] []]; intros H;
    try (vm_compute in H; discriminate H); simpl; tauto.
Qed.

Lemma digit_no_space c : JS.isDigit c = true -> JS.isSpace c = false.
Proof.
  intros H. apply digit_cases in H.
  repeat (destruct H as [<- | H]; [reflexivity|]). destruct H.
Qed.

Lemma digit_lower c : JS.isDigit c = true -> JS.lowerChar c = c.
Proof.
  intros H. apply digit_cases in H.
  repeat (destruct H as [<- | H]; [reflexivity|]). destruct H.
Qed.

Lemma digit_value c :
  JS.isDigit c = true -> (0 <= JS.digitValue c <= 9)%Z.
Proof.
  intros H. apply digit_cases in H.
  repeat (destruct H as [<- | H]; [vm_compute; split; discriminate|]). destruct H.
Qed.

Lemma every_app p a b : every p (a ++ b) = (every p a && every p b)%bool.
Proof.
  induction a as [|c a IH]; simpl; [reflexivity|].
  rewrite IH, andb_assoc. reflexivity.
Qed.

Lemma numeral_every d : numeral d = true -> every JS.isDigit d = true.
Proof. unfold numeral. intros H. apply andb_true_iff in H. apply H. Qed.

Lemma numeral_head d :
  numeral d = true ->
  exists c t, d = String c t /\ JS.isDigit c = true /\ every JS.isDigit t = true.
Proof.
  unfold numeral. destruct d as [|c t]; [discriminate|]. simpl.
  intros H. apply andb_true_iff in H. destruct H as [Hc H].
  apply andb_true_iff in H. exists c, t. tauto.
Qed.

Lemma toLowerCase_digits d : every JS.isDigit d = true -> JS.toLowerCase d = d.
Proof.
  induction d as [|c t IH]; simpl; [reflexivity|].
  intros H. apply andb_true_iff in H. destruct H as [Hc Ht].
  rewrite (digit_lower c Hc), (IH Ht). reflexivity.
Qed.

Lemma trimEnd_digits d : every JS.isDigit d = true -> JS.trimEnd d = d.
Proof.
  induction d as [|c t IH]; simpl; [reflexivity|].
  intros H. apply andb_true_iff in H. destruct H as [Hc Ht].
  rewrite (IH Ht), (digit_no_space c Hc). destruct t; reflexivity.
Qed.

Lemma trimEnd_kept a b :
  JS.trimEnd b = b -> b <> EmptyString -> JS.trimEnd (a ++ b) = a ++ b.
Proof.
  intros Hb Hne. induction a as [|c a IH]; simpl; [exact Hb|].
  rewrite IH. destruct (a ++ b) eqn:E; [|reflexivity].
  destruct a; [simpl in E; contradiction | discriminate].
Qed.

(** A numeral at the end of a text stops [trimEnd]. *)
Lemma trimEnd_numeral a d : numeral d = true -> JS.trimEnd (a ++ d) = a ++ d.
Proof.
  intros H. apply trimEnd_kept.
  - apply trimEnd_digits, numeral_every, H.
  - destruct d; [discriminate H | discriminate].
Qed.

(** *** [parseInt] reads back what the template rendering writes *)

Lemma digits_of_uint u : every JS.isDigit (NilEmpty.string_of_uint u) = true.
Proof. induction u; simpl; try reflexivity; exact IHu. Qed.

Lemma to_uint_not_nil n : Nat.to_uint n <> Decimal.Nil.
Proof.
  intros H. pose proof (DecimalNat.Unsigned.of_to n) as E. rewrite H in E.
  simpl in E. subst n. discriminate H.
Qed.

Lemma showNat_numeral n : numeral (JS.showNat n) = true.
Proof.
  unfold numeral, JS.showNat. rewrite digits_of_uint, andb_true_r.
  pose proof (to_uint_not_nil n) as H.
  destruct (Nat.to_uint n); try reflexivity. contradiction.
Qed.

Lemma digitsAcc_of_uint u : forall a,
  JS.digitsAcc (NilEmpty.string_of_uint u) (Some (Z.of_nat a))
  = Some (Z.of_nat (Nat.of_uint_acc u a)).
Proof.
  induction u; intros a; [reflexivity|..];
    cbn [NilEmpty.string_of_uint JS.digitsAcc Nat.of_uint_acc];
    match goal with
    | |- (if ?b then _ else _) = _ => change b with true
    end; cbv iota; rewrite <- IHu; do 2 f_equal; rewrite Nat.tail_mul_spec;
    match goal with
    | |- context [JS.digitValue ?c] =>
        let v := eval vm_compute in (JS.digitValue c) in
        change (JS.digitValue c) with v
    end; lia.
Qed.

Lemma digitsAcc_showNat n :
  JS.digitsAcc (JS.showNat n) None = Some (Z.of_nat n).
Proof.
  unfold JS.showNat. rewrite <- (DecimalNat.Unsigned.of_to n) at 2.
  unfold Nat.of_uint. pose proof (to_uint_not_nil n) as H.
  destruct (Nat.to_uint n) as [|u|u|u|u|u|u|u|u|u|u]; [contradiction|..];
    simpl; rewrite <- digitsAcc_of_uint; reflexivity.
Qed.

Lemma parseInt_showNat n : JS.parseInt (Some (JS.showNat n)) = Some (Z.of_nat n).
Proof.
  unfold JS.parseInt. pose proof (showNat_numeral n) as H.
  apply numeral_head in H. destruct H as (c & t & E & Hc & Ht).
  rewrite <- (digitsAcc_showNat n), E.
  change (JS.trimStart (String c t))
    with (if JS.isSpace c then JS.trimStart t else String c t).
  rewrite (digit_no_space c Hc).
  apply digit_cases in Hc.
  repeat (destruct Hc as [<- | Hc]; [reflexivity|]). destruct Hc.
Qed.

End NumeralFacts.

(* ================================================================== *)
(** ** Greedy loops over one character *)

Module LoopFacts.
Import RegExp RegExpFacts CleanUpFacts.

Section OneCharacter.

(** The body of the loop reads one character of the class [P]. *)
Variable body : matcher.
Variable P : ascii -> bool.
Hypothesis body_reads : forall k s, body k s = step P k s.

Lemma turn k c t p caps fuel :
  starLoop true body k (S fuel) (MState (String c t) p caps)
  = if P c
    then match starLoop true body k fuel (MState t (S p) caps) with
         | Some res => Some res
         | None => k (MState (String c t) p caps)
         end
    else k (MState (String c t) p caps).
Proof.
  change (starLoop true body k (S fuel) (MState (String c t) p caps))
    with (choose true
            (fun _ => body (progress (MState (String c t) p caps)
                              (starLoop true body k fuel))
                        (MState (String c t) p caps))
            (fun _ => k (MState (String c t) p caps))).
  unfold choose. rewrite body_reads. unfold step. cbn [rest pos RegExp.caps].
  destruct (P c); [|reflexivity].
  rewrite (@progress_next (MState (String c t) p caps) _ t caps). reflexivity.
Qed.

Lemma at_end k p caps fuel :
  starLoop true body k fuel (MState EmptyString p caps)
  = k (MState EmptyString p caps).
Proof.
  destruct fuel as [|fuel]; [reflexivity|].
  change (starLoop true body k (S fuel) (MState EmptyString p caps))
    with (choose true
            (fun _ => body (progress (MState EmptyString p caps)
                              (starLoop true body k fuel))
                        (MState EmptyString p caps))
            (fun _ => k (MState EmptyString p caps))).
  unfold choose. rewrite body_reads. reflexivity.
Qed.

(** The loop stops where the class stops. *)
Lemma stops k w p caps fuel :
  headIs P w = false ->
  starLoop true body k fuel (MState w p caps) = k (MState w p caps).
Proof.
  intros H. destruct w as [|c t]; [apply at_end|].
  destruct fuel as [|fuel]; [reflexivity|].
  simpl in H. rewrite turn, H. reflexivity.
Qed.

(** A match found further on is the match of the loop. *)
Lemma takes k res w : forall u fuel p caps,
  every P u = true ->
  starLoop true body k fuel (MState w (p + String.length u) caps) = Some res ->
  starLoop true body k (String.length u + fuel) (MState (u ++ w) p caps) = Some res.
Proof.
  induction u as [|c u IH]; intros fuel p caps Hu H.
  - simpl. rewrite Nat.add_0_r in H. exact H.
  - simpl in Hu. apply andb_true_iff in Hu. destruct Hu as [Hc Hu].
    change (String.length (String c u) + fuel) with (S (String.length u + fuel)).
    change (String c u ++ w) with (String c (u ++ w)).
    rewrite turn, Hc, (IH fuel (S p) caps Hu); [reflexivity|].
    rewrite <- H. do 2 f_equal. simpl. lia.
Qed.

(** The loop over a text of the class that ends where the class stops. *)
Lemma takes_all k res u w p caps :
  every P u = true -> headIs P w = false ->
  k (MState w (p + String.length u) caps) = Some res ->
  starLoop true body k (String.length (u ++ w)) (MState (u ++ w) p caps) = Some res.
Proof.
  intros Hu Hw H. rewrite length_app. apply takes; [exact Hu|].
  rewrite stops by exact Hw. exact H.
Qed.

(** Where the continuation finds nothing, the loop finds nothing. *)
Lemma fails k : forall t fuel p caps,
  nowhere k t p caps -> starLoop true body k fuel (MState t p caps) = None.
Proof.
  induction t as [|c t IH]; intros fuel p caps [H Ht].
  - rewrite at_end. exact H.
  - destruct fuel as [|fuel]; [exact H|].
    rewrite turn, (IH fuel (S p) caps Ht), H. destruct (P c); reflexivity.
Qed.

(** The greedy loop stops at the last position where the continuation
    matches. *)
Lemma takes_to_last k res u c t p caps :
  every P u = true ->
  k (MState (String c t) (p + String.length u) caps) = Some res ->
  nowhere k t (S (p + String.length u)) caps ->
  starLoop true body k (String.length (u ++ String c t))
    (MState (u ++ String c t) p caps) = Some res.
Proof.
  intros Hu H Ht. rewrite length_app. apply takes; [exact Hu|].
  change (String.length (String c t)) with (S (String.length t)).
  rewrite turn, (fails k t _ _ _ Ht), H. destruct (P c); reflexivity.
Qed.

(** A match of the continuation somewhere ahead is enough for the loop to
    find a match. *)
Lemma finds k w : forall u fuel p caps,
  every P u = true ->
  isSome (k (MState w (p + String.length u) caps)) = true ->
  isSome (starLoop true body k (String.length u + fuel) (MState (u ++ w) p caps))
  = true.
Proof.
  induction u as [|c u IH]; intros fuel p caps Hu H.
  - simpl. rewrite Nat.add_0_r in H.
    destruct fuel as [|fuel]; [exact H|].
    change (starLoop true body k (S fuel) (MState w p caps))
      with (choose true
              (fun _ => body (progress (MState w p caps)
                                (starLoop true body k fuel)) (MState w p caps))
              (fun _ => k (MState w p caps))).
    unfold choose. destruct (body _ _); [reflexivity | exact H].
  - simpl in Hu. apply andb_true_iff in Hu. destruct Hu as [Hc Hu].
    change (String.length (String c u) + fuel) with (S (String.length u + fuel)).
    change (String c u ++ w) with (String c (u ++ w)).
    rewrite turn, Hc.
    assert (isSome (starLoop true body k (String.length u + fuel)
                      (MState (u ++ w) (S p) caps)) = true) as E.
    { apply IH; [exact Hu|]. rewrite <- H. do 3 f_equal. simpl. lia. }
    destruct (starLoop true body k (String.length u + fuel)
                (MState (u ++ w) (S p) caps)); [reflexivity | discriminate E].
Qed.

End OneCharacter.

(** The three classes the patterns loop over. *)
Lemma dot_reads ic k s :
  run ic Dot k s = step (fun c => negb (JS.isLineTerminator c)) k s.
Proof. reflexivity. Qed.

Lemma space_reads ic k s : run ic space k s = step JS.isSpace k s.
Proof.
  simpl. unfold step. destruct (rest s) as [|c t]; [reflexivity|].
  simpl. rewrite orb_false_r. reflexivity.
Qed.

Lemma digit_reads ic k s : run ic digit k s = step JS.isDigit k s.
Proof.
  simpl. unfold step. destruct (rest s) as [|c t]; [reflexivity|].
  simpl. rewrite orb_false_r. reflexivity.
Qed.

(** [\d+] reads a whole numeral. *)
Lemma numeral_read ic k res d w p caps :
  numeral d = true -> headIs JS.isDigit w = false ->
  k (MState w (p + String.length d) caps) = Some res ->
  run ic (Plus digit) k (MState (d ++ w) p caps) = Some res.
Proof.
  intros Hd Hw H. apply NumeralFacts.numeral_head in Hd.
  destruct Hd as (c & t & -> & Hc & Ht).
  change (run ic (Plus digit) k (MState (String c t ++ w) p caps))
    with (run ic digit (run ic (Star true digit) k) (MState (String c (t ++ w)) p caps)).
  rewrite digit_reads. unfold step. cbn [rest pos RegExp.caps]. rewrite Hc.
  change (run ic (Star true digit) k (MState (t ++ w) (S p) caps))
    with (starLoop true (run ic digit) k (String.length (t ++ w))
            (MState (t ++ w) (S p) caps)).
  apply (@takes_all (run ic digit) JS.isDigit (digit_reads ic) k res t w (S p) caps Ht Hw).
  rewrite <- H. do 2 f_equal. simpl. lia.
Qed.

(** A search leaves behind the characters no match starts with. *)
Lemma search_past ic r (P : ascii -> bool) :
  (forall c t i, P c = true ->
     run ic (Group 0 r) Some (MState (String c t) i []) = None) ->
  forall u w i, every P u = true ->
  search ic r (u ++ w) i = search ic r w (i + String.length u).
Proof.
  intros Hr. induction u as [|c u IH]; intros w i Hu.
  - simpl. rewrite Nat.add_0_r. reflexivity.
  - simpl in Hu. apply andb_true_iff in Hu. destruct Hu as [Hc Hu].
    change (String c u ++ w) with (String c (u ++ w)).
    rewrite search_unfold, (Hr c (u ++ w) i Hc), (IH w (S i) Hu).
    f_equal. simpl. lia.
Qed.

Lemma search_none ic r (P : ascii -> bool) :
  (forall c t i, P c = true ->
     run ic (Group 0 r) Some (MState (String c t) i []) = None) ->
  (forall i, run ic (Group 0 r) Some (MState EmptyString i []) = None) ->
  forall u i, every P u = true -> search ic r u i = None.
Proof.
  intros Hr He u i Hu. rewrite <- (app_empty u), (search_past ic r P Hr) by exact Hu.
  rewrite search_unfold, He. reflexivity.
Qed.

Lemma test_search input re :
  test input re = isSome (search (ignoreCase re) (pattern re) input 0).
Proof.
  unfold test, match_, exec.
  destruct (search (ignoreCase re) (pattern re) input 0); reflexivity.
Qed.

Lemma search_here ic r s i :
  isSome (run ic (Group 0 r) Some (MState s i [])) = true ->
  isSome (search ic r s i) = true.
Proof.
  intros H. rewrite search_unfold.
  destruct (run ic (Group 0 r) Some (MState s i [])); [reflexivity | discriminate H].
Qed.

End LoopFacts.

(* ================================================================== *)
(** ** Commands that name nodes by number *)

Module OrdinalFacts.
Import RegExp RegExpFacts CleanUpFacts NumeralFacts LoopFacts.

Lemma run_group ic n r k s :
  run ic (Group n r) k s = run ic r (fun s' => k (setCap n (pos s, pos s') s')) s.
Proof. reflexivity. Qed.

Lemma run_seq ic r1 r2 k s : run ic (Seq r1 r2) k s = run ic r1 (run ic r2 k) s.
Proof. reflexivity. Qed.

Lemma run_star ic r k s :
  run ic (Star true r) k s
  = starLoop true (run ic r) k (String.length (rest s)) s.
Proof. reflexivity. Qed.

Lemma alt_first ic r1 r2 k s res :
  run ic r1 k s = Some res -> run ic (Alt r1 r2) k s = Some res.
Proof. intros H. simpl. rewrite H. reflexivity. Qed.

Lemma alt_found ic r1 r2 k s :
  isSome (run ic r1 k s) = true -> isSome (run ic (Alt r1 r2) k s) = true.
Proof. intros H. simpl. destruct (run ic r1 k s); [reflexivity | discriminate H]. Qed.

Lemma char_read ic c k t p caps :
  run ic (Chr c) k (MState (String c t) p caps) = k (MState t (S p) caps).
Proof.
  simpl. unfold step. cbn [rest pos RegExp.caps itemMatches].
  rewrite N.eqb_refl, Ascii.eqb_refl. destruct ic; reflexivity.
Qed.

(** A literal reads itself. *)
Lemma lit_read ic k t caps : forall w p,
  run ic (lit w) k (MState (w ++ t) p caps)
  = k (MState t (p + String.length w) caps).
Proof.
  induction w as [|c w IH]; intros p.
  - simpl. rewrite Nat.add_0_r. reflexivity.
  - destruct w as [|c' w].
    + change (lit (String c EmptyString)) with (Chr c).
      change (String c EmptyString ++ t) with (String c t).
      rewrite char_read. do 2 f_equal. simpl. lia.
    + change (lit (String c (String c' w))) with (Seq (Chr c) (lit (String c' w))).
      change (String c (String c' w) ++ t) with (String c (String c' w ++ t)).
      rewrite run_seq, char_read, IH. do 2 f_equal. simpl. lia.
Qed.

Lemma nowhere_digits k caps :
  (forall c t p, JS.isDigit c = true -> k (MState (String c t) p caps) = None) ->
  (forall p, k (MState EmptyString p caps) = None) ->
  forall d p, every JS.isDigit d = true -> nowhere k d p caps.
Proof.
  intros Hd He. induction d as [|c d IH]; intros p H.
  - split; [apply He | exact I].
  - simpl in H. apply andb_true_iff in H. destruct H as [Hc H].
    split; [apply Hd, Hc | apply IH, H].
Qed.

Ltac by_digit H :=
  apply digit_cases in H;
  repeat (destruct H as [<- | H]; [reflexivity|]); destruct H.

(** No match of a trigger or of a numbered reference starts with a digit,
    nor at the end of the input. *)
Lemma digit_starts_nothing re c t i :
  In re [Patterns.addTrigger; Patterns.deleteTrigger; Patterns.updateTrigger;
         Patterns.connectTrigger; Patterns.nodeNumber; Patterns.twoNodeNumbers] ->
  JS.isDigit c = true ->
  run (ignoreCase re) (Group 0 (pattern re)) Some (MState (String c t) i []) = None.
Proof.
  intros Hre H.
  repeat (destruct Hre as [<- | Hre]; [by_digit H|]). destruct Hre.
Qed.

Lemma end_starts_nothing re i :
  In re [Patterns.addTrigger; Patterns.deleteTrigger; Patterns.updateTrigger;
         Patterns.connectTrigger; Patterns.nodeNumber; Patterns.twoNodeNumbers] ->
  run (ignoreCase re) (Group 0 (pattern re)) Some (MState EmptyString i []) = None.
Proof.
  intros Hre.
  repeat (destruct Hre as [<- | Hre]; [reflexivity|]). destruct Hre.
Qed.

Lemma digits_hold_nothing re d i :
  In re [Patterns.addTrigger; Patterns.deleteTrigger; Patterns.updateTrigger;
         Patterns.connectTrigger; Patterns.nodeNumber; Patterns.twoNodeNumbers] ->
  every JS.isDigit d = true ->
  search (ignoreCase re) (pattern re) d i = None.
Proof.
  intros Hre Hd. apply (@search_none (ignoreCase re) (pattern re) JS.isDigit).
  - intros c t j. apply digit_starts_nothing, Hre.
  - intros j. apply end_starts_nothing, Hre.
  - exact Hd.
Qed.

Lemma numeral_no_space d w : numeral d = true -> headIs JS.isSpace (d ++ w) = false.
Proof.
  intros H. apply numeral_head in H. destruct H as (c & t & -> & Hc & _).
  simpl. apply digit_no_space, Hc.
Qed.

(** [(?:node|step|state)\s*] on the word [node] and a space. *)
Lemma node_word_read R k res x p caps :
  headIs JS.isSpace x = false ->
  run true R k (MState x (p + 5) caps) = Some res ->
  run true (Seq Patterns.nodeWord (Seq (Star true space) R)) k
    (MState ("node " ++ x) p caps) = Some res.
Proof.
  intros Hx H. rewrite run_seq. apply alt_first.
  change ("node " ++ x) with ("node" ++ " " ++ x).
  rewrite lit_read, run_seq, run_star. cbn [rest String.length].
  apply (@takes_all (run true space) JS.isSpace (space_reads true) _ res
           " " x (p + 4) caps eq_refl Hx).
  cbn [String.length]. replace (p + 4 + 1) with (p + 5) by lia. exact H.
Qed.

(** [(\d+)] on a numeral. *)
Lemma digits_group_read ic g k res d w p caps :
  numeral d = true -> headIs JS.isDigit w = false ->
  k (setCap g (p, p + String.length d) (MState w (p + String.length d) caps))
  = Some res ->
  run ic (Group g (Plus digit)) k (MState (d ++ w) p caps) = Some res.
Proof.
  intros Hd Hw H. rewrite run_group.
  apply numeral_read; [exact Hd | exact Hw | exact H].
Qed.

Lemma node_word_refuses R k c t p caps :
  JS.isDigit c = true ->
  run true (Seq Patterns.nodeWord R) k (MState (String c t) p caps) = None.
Proof. intros H. by_digit H. Qed.

Lemma substring_all s : String.substring 0 (String.length s) s = s.
Proof. rewrite <- (app_empty s) at 2. apply substring_prefix. Qed.

Lemma substring_middle pre x post i n :
  i = String.length pre -> n = String.length x ->
  String.substring i n (pre ++ x ++ post) = x.
Proof. intros -> ->. rewrite substring_skip. apply substring_prefix. Qed.

Lemma group_text input n i j res text :
  cap n res = Some (i, j) ->
  String.substring i (j - i) input = text ->
  group {| matched := res; subject := input |} n = Some text.
Proof.
  intros Hc Ht. unfold group. cbn [matched subject]. rewrite Hc, Ht. reflexivity.
Qed.

(** The lower-cased and trimmed input of a sentence that ends in a
    numeral. *)
Lemma sentence_normalized a d :
  numeral d = true -> headIs JS.isSpace (JS.toLowerCase a) = false ->
  JS.trim (JS.toLowerCase (a ++ d)) = JS.toLowerCase a ++ d.
Proof.
  intros Hd Ha. rewrite toLowerCase_app, (toLowerCase_digits d (numeral_every d Hd)).
  unfold JS.trim.
  assert (JS.trimStart (JS.toLowerCase a ++ d) = JS.toLowerCase a ++ d) as ->.
  { destruct (JS.toLowerCase a) as [|c t].
    - apply numeral_head in Hd. destruct Hd as (c & t & -> & Hc & _).
      simpl. rewrite (digit_no_space c Hc). reflexivity.
    - simpl in *. rewrite Ha. reflexivity. }
  apply trimEnd_numeral, Hd.
Qed.


(** *** [delete node N] *)

Lemma delete_not_add d :
  numeral d = true -> test ("delete node " ++ d) Patterns.addTrigger = false.
Proof.
  intros Hd. rewrite test_search.
  change (search (ignoreCase Patterns.addTrigger) (pattern Patterns.addTrigger)
            ("delete node " ++ d) 0)
    with (search (ignoreCase Patterns.addTrigger) (pattern Patterns.addTrigger) d 12).
  rewrite digits_hold_nothing; [reflexivity | simpl; tauto | apply numeral_every, Hd].
Qed.

Lemma delete_triggered d : test ("delete node " ++ d) Patterns.deleteTrigger = true.
Proof.
  rewrite test_search. apply search_here.
  change (pattern Patterns.deleteTrigger)
    with (Seq (Group 1 (Alt (lit "delete")
                          (alts ["remove"; "drop"; "eliminate"; "get rid of"])))
            (Seq (Star true Dot) (Group 2 Patterns.nodeWord))).
  change (ignoreCase Patterns.deleteTrigger) with false.
  rewrite run_group, run_seq, run_group. apply alt_found.
  change ("delete node " ++ d) with ("delete" ++ " " ++ "node " ++ d).
  rewrite lit_read, run_seq, run_star. unfold setCap. cbn [rest pos RegExp.caps].
  rewrite length_app.
  apply (@finds (run false Dot) _ (dot_reads false)); reflexivity.
Qed.

Lemma delete_number_found d :
  numeral d = true ->
  match_ ("delete node " ++ d) Patterns.nodeNumber
  = Some {| matched :=
              MState EmptyString (12 + String.length d)
                [Some (7, 12 + String.length d); Some (12, 12 + String.length d)];
            subject := "delete node " ++ d |}.
Proof.
  intros Hd. unfold match_, exec.
  change (search (ignoreCase Patterns.nodeNumber) (pattern Patterns.nodeNumber)
            ("delete node " ++ d) 0)
    with (search true (pattern Patterns.nodeNumber) ("node " ++ d) 7).
  rewrite search_unfold.
  change (pattern Patterns.nodeNumber)
    with (Seq Patterns.nodeWord (Seq (Star true space) (Group 1 (Plus digit)))).
  rewrite run_group, <- (app_empty d) at 1.
  erewrite node_word_read; [reflexivity | apply numeral_no_space, Hd|].
  apply digits_group_read; [exact Hd | reflexivity | reflexivity].
Qed.


(** The sentence of the help text, with any numeral that names a node. *)
Lemma delete_numbered d nodes node :
  numeral d = true ->
  byOrdinal nodes (JS.parseInt (Some d)) = Some node ->
  getEnhancedMockResponse ("Delete node " ++ d) nodes
  = Return (withNodeId (id node) (commandOf delete_node)).
Proof.
  intros Hd Hn. unfold getEnhancedMockResponse.
  rewrite (sentence_normalized "Delete node " d Hd eq_refl).
  change (JS.toLowerCase "Delete node ") with "delete node ". cbv zeta.
  rewrite (delete_not_add d Hd), (delete_triggered d).
  unfold deleteDetector. rewrite (delete_number_found d Hd).
  cbn [JS.orElse]. unfold nodeAtOrdinal.
  rewrite (@group_text ("delete node " ++ d) 1 12 (12 + String.length d) _ d).
  - rewrite Hn. reflexivity.
  - reflexivity.
  - rewrite <- (app_empty d) at 2.
    apply (substring_middle "delete node " d EmptyString); [reflexivity | lia].
Qed.

Lemma nth_by_ordinal nodes n :
  byOrdinal nodes (Some (Z.of_nat (S n))) = nth_error nodes n.
Proof.
  unfold byOrdinal, JS.at_. cbn [option_map].
  replace (Z.of_nat (S n) - 1)%Z with (Z.of_nat n) by lia.
  rewrite (proj2 (Z.ltb_ge (Z.of_nat n) 0)) by lia.
  rewrite Nat2Z.id. reflexivity.
Qed.

(** *** Sentences with two numbered nodes *)

Lemma alt_found_later ic r1 r2 k s :
  isSome (run ic r2 k s) = true -> isSome (run ic (Alt r1 r2) k s) = true.
Proof. intros H. simpl. destruct (run ic r1 k s); [reflexivity | exact H]. Qed.

Lemma alts_found ic v k s : forall ws,
  In v ws -> isSome (run ic (lit v) k s) = true ->
  isSome (run ic (alts ws) k s) = true.
Proof.
  induction ws as [|w ws IH]; intros Hv H; [destruct Hv|].
  destruct ws as [|w' ws].
  - destruct Hv as [-> | []]. exact H.
  - change (alts (w :: w' :: ws)) with (Alt (lit w) (alts (w' :: ws))).
    destruct Hv as [-> | Hv]; [apply alt_found, H | apply alt_found_later, IH; assumption].
Qed.

(** Any of the four verbs of the connect trigger, followed by a numbered
    node, sets it off. *)
Lemma connect_found v w i :
  In v ["connect"; "link"; "join"; "attach"] ->
  isSome (search false (pattern Patterns.connectTrigger) (v ++ " node " ++ w) i)
  = true.
Proof.
  intros Hv. apply search_here.
  change (pattern Patterns.connectTrigger)
    with (Seq (Group 1 (alts ["connect"; "link"; "join"; "attach"]))
            (Seq (Star true Dot) (Group 2 Patterns.nodeWord))).
  rewrite run_group, run_seq, run_group. apply (@alts_found false v); [exact Hv|].
  rewrite lit_read, run_seq, run_star. unfold setCap. cbn [rest pos RegExp.caps].
  change (" node " ++ w) with (" " ++ "node " ++ w). rewrite length_app.
  apply (@finds (run false Dot) _ (dot_reads false)); reflexivity.
Qed.

Section TwoOrdinals.

(** The sentence is [verb], [node N], [mid], [node M], in lower case. *)
Variables verb mid : string.

Hypothesis verb_no_earlier_trigger : forall re,
  In re [Patterns.addTrigger; Patterns.deleteTrigger; Patterns.updateTrigger] ->
  forall w i,
  search (ignoreCase re) (pattern re) (verb ++ "node " ++ w) i
  = search (ignoreCase re) (pattern re) w (String.length (verb ++ "node ") + i).

Hypothesis mid_no_earlier_trigger : forall re,
  In re [Patterns.addTrigger; Patterns.deleteTrigger; Patterns.updateTrigger] ->
  forall w i,
  search (ignoreCase re) (pattern re) (mid ++ "node " ++ w) i
  = search (ignoreCase re) (pattern re) w (String.length (mid ++ "node ") + i).

Hypothesis verb_connects : forall w,
  test (verb ++ "node " ++ w) Patterns.connectTrigger = true.

Hypothesis verb_without_node : forall w,
  search true (pattern Patterns.twoNodeNumbers) (verb ++ "node " ++ w) 0
  = search true (pattern Patterns.twoNodeNumbers) ("node " ++ w)
      (String.length verb).

Hypothesis mid_on_one_line :
  every (fun c => negb (JS.isLineTerminator c)) mid = true.

Hypothesis mid_no_digit : forall w, headIs JS.isDigit (mid ++ w) = false.

Lemma earlier_in_all re :
  In re [Patterns.addTrigger; Patterns.deleteTrigger; Patterns.updateTrigger] ->
  In re [Patterns.addTrigger; Patterns.deleteTrigger; Patterns.updateTrigger;
         Patterns.connectTrigger; Patterns.nodeNumber; Patterns.twoNodeNumbers].
Proof. simpl. tauto. Qed.

Lemma no_earlier_trigger re d1 d2 :
  In re [Patterns.addTrigger; Patterns.deleteTrigger; Patterns.updateTrigger] ->
  numeral d1 = true -> numeral d2 = true ->
  test (verb ++ "node " ++ d1 ++ mid ++ "node " ++ d2) re = false.
Proof.
  intros Hre H1 H2. rewrite test_search, (@verb_no_earlier_trigger re Hre).
  rewrite (@search_past (ignoreCase re) (pattern re) JS.isDigit
             (fun c t i => @digit_starts_nothing re c t i (@earlier_in_all re Hre))
             d1 _ _ (numeral_every d1 H1)).
  rewrite (@mid_no_earlier_trigger re Hre).
  rewrite digits_hold_nothing;
    [reflexivity | apply earlier_in_all, Hre | apply numeral_every, H2].
Qed.

Lemma two_numbers_found d1 d2 :
  numeral d1 = true -> numeral d2 = true ->
  match_ (verb ++ "node " ++ d1 ++ mid ++ "node " ++ d2) Patterns.twoNodeNumbers
  = Some {| matched :=
              let p1 := String.length verb + 5 in
              let p2 := p1 + String.length d1 + String.length mid + 5 in
              MState EmptyString (p2 + String.length d2)
                [Some (String.length verb, p2 + String.length d2);
                 Some (p1, p1 + String.length d1);
                 Some (p2, p2 + String.length d2)];
            subject := verb ++ "node " ++ d1 ++ mid ++ "node " ++ d2 |}.
Proof.
  intros H1 H2. unfold match_, exec.
  change (ignoreCase Patterns.twoNodeNumbers) with true.
  rewrite verb_without_node, search_unfold.
  change (pattern Patterns.twoNodeNumbers)
    with (Seq Patterns.nodeWord
            (Seq (Star true space)
               (Seq (Group 1 (Plus digit))
                  (Seq (Star true Dot)
                     (Seq Patterns.nodeWord
                        (Seq (Star true space) (Group 2 (Plus digit)))))))).
  rewrite run_group.
  erewrite node_word_read; [reflexivity | apply numeral_no_space, H1|].
  rewrite run_seq.
  apply digits_group_read; [exact H1 | apply mid_no_digit|].
  rewrite run_seq, run_star. unfold setCap at 1. cbn [rest pos RegExp.caps setNth].
  change (mid ++ "node " ++ d2) with (mid ++ String "n" ("ode " ++ d2)).
  apply (@takes_to_last (run true Dot) _ (dot_reads true)).
  - exact mid_on_one_line.
  - change (String "n" ("ode " ++ d2)) with ("node " ++ d2).
    rewrite <- (app_empty d2) at 1.
    apply node_word_read; [apply numeral_no_space, H2|].
    apply digits_group_read; [exact H2 | reflexivity | reflexivity].
  - repeat (split; [reflexivity|]).
    apply nowhere_digits.
    + intros c t p. apply node_word_refuses.
    + reflexivity.
    + apply numeral_every, H2.
Qed.

(** Both numerals are looked up; without one of the two nodes the answer is
    the usage message. *)
Lemma two_numbers_looked_up t usage d1 d2 nodes :
  numeral d1 = true -> numeral d2 = true ->
  endpointsDetector t usage (verb ++ "node " ++ d1 ++ mid ++ "node " ++ d2) nodes
  = match byOrdinal nodes (JS.parseInt (Some d1)),
          byOrdinal nodes (JS.parseInt (Some d2)) with
    | Some source, Some target =>
        Return (withTargetNodeId (id target)
                  (withSourceNodeId (id source) (commandOf t)))
    | _, _ => Return (withMessage usage (commandOf unknown))
    end.
Proof.
  intros H1 H2. unfold endpointsDetector.
  rewrite (two_numbers_found d1 d2 H1 H2). cbn [JS.orElse]. unfold nodeAtOrdinal.
  match goal with
  | |- context [group ?m 1] =>
      assert (group m 1 = Some d1) as G1; [|assert (group m 2 = Some d2) as G2]
  end.
  - eapply group_text; [reflexivity|]. cbv zeta.
    replace (verb ++ "node " ++ d1 ++ mid ++ "node " ++ d2)
      with ((verb ++ "node ") ++ d1 ++ mid ++ "node " ++ d2)
      by (rewrite !app_assoc; reflexivity).
    apply substring_middle; [rewrite !length_app; simpl; lia | lia].
  - eapply group_text; [reflexivity|]. cbv zeta.
    replace (verb ++ "node " ++ d1 ++ mid ++ "node " ++ d2)
      with ((verb ++ "node " ++ d1 ++ mid ++ "node ") ++ d2 ++ EmptyString)
      by (rewrite app_empty, !app_assoc; reflexivity).
    apply substring_middle; [rewrite !length_app; simpl; lia | lia].
  - rewrite G1, G2. reflexivity.
Qed.

Lemma two_numbers_resolved t usage d1 d2 nodes source target :
  numeral d1 = true -> numeral d2 = true ->
  byOrdinal nodes (JS.parseInt (Some d1)) = Some source ->
  byOrdinal nodes (JS.parseInt (Some d2)) = Some target ->
  endpointsDetector t usage (verb ++ "node " ++ d1 ++ mid ++ "node " ++ d2) nodes
  = Return (withTargetNodeId (id target)
              (withSourceNodeId (id source) (commandOf t))).
Proof.
  intros H1 H2 Hs Ht.
  rewrite (@two_numbers_looked_up t usage d1 d2 nodes H1 H2), Hs, Ht. reflexivity.
Qed.

(** The sentence, as the user types it with a capital or not, goes to the
    connect detector, which looks up the two numbered nodes. *)
Lemma sentence_looked_up Verb d1 d2 nodes :
  JS.toLowerCase Verb = verb -> JS.toLowerCase mid = mid ->
  headIs JS.isSpace (verb ++ "node ") = false ->
  numeral d1 = true -> numeral d2 = true ->
  getEnhancedMockResponse (Verb ++ "node " ++ d1 ++ mid ++ "node " ++ d2) nodes
  = match byOrdinal nodes (JS.parseInt (Some d1)),
          byOrdinal nodes (JS.parseInt (Some d2)) with
    | Some source, Some target =>
        Return (withTargetNodeId (id target)
                  (withSourceNodeId (id source) (commandOf connect_nodes)))
    | _, _ => Return (withMessage connectUsage (commandOf unknown))
    end.
Proof.
  intros HV Hm Hv H1 H2. unfold getEnhancedMockResponse.
  assert (JS.trim (JS.toLowerCase (Verb ++ "node " ++ d1 ++ mid ++ "node " ++ d2))
          = verb ++ "node " ++ d1 ++ mid ++ "node " ++ d2) as ->.
  { replace (Verb ++ "node " ++ d1 ++ mid ++ "node " ++ d2)
      with ((Verb ++ "node " ++ d1 ++ mid ++ "node ") ++ d2)
      by (rewrite !app_assoc; reflexivity).
    assert (JS.toLowerCase (Verb ++ "node " ++ d1 ++ mid ++ "node ")
            = verb ++ "node " ++ d1 ++ mid ++ "node ") as E.
    { rewrite !toLowerCase_app, HV, Hm, (toLowerCase_digits d1 (numeral_every d1 H1)).
      reflexivity. }
    rewrite sentence_normalized, E, !app_assoc; [reflexivity | exact H2|].
    rewrite E. destruct verb; exact Hv. }
  cbv zeta.
  rewrite !no_earlier_trigger by (simpl; tauto || assumption).
  rewrite verb_connects.
  apply two_numbers_looked_up; assumption.
Qed.

(** With both nodes in the list it is a [connect_nodes] command. *)
Lemma sentence_connects Verb d1 d2 nodes source target :
  JS.toLowerCase Verb = verb -> JS.toLowerCase mid = mid ->
  headIs JS.isSpace (verb ++ "node ") = false ->
  numeral d1 = true -> numeral d2 = true ->
  byOrdinal nodes (JS.parseInt (Some d1)) = Some source ->
  byOrdinal nodes (JS.parseInt (Some d2)) = Some target ->
  getEnhancedMockResponse (Verb ++ "node " ++ d1 ++ mid ++ "node " ++ d2) nodes
  = Return (withTargetNodeId (id target)
              (withSourceNodeId (id source) (commandOf connect_nodes))).
Proof.
  intros HV Hm Hv H1 H2 Hs Ht.
  rewrite (@sentence_looked_up Verb d1 d2 nodes HV Hm Hv H1 H2), Hs, Ht.
  reflexivity.
Qed.

End TwoOrdinals.

(** The verbs and the words between the two nodes for which the section is
    used.  The last two verbs hold a verb of the connect trigger. *)
Lemma verbs_no_earlier_trigger Verb re :
  In Verb ["Connect "; "Link "; "Join "; "Attach "; "Disconnect "; "Unlink "] ->
  In re [Patterns.addTrigger; Patterns.deleteTrigger; Patterns.updateTrigger] ->
  forall w i,
  search (ignoreCase re) (pattern re) (JS.toLowerCase Verb ++ "node " ++ w) i
  = search (ignoreCase re) (pattern re) w
      (String.length (JS.toLowerCase Verb ++ "node ") + i).
Proof.
  intros HV Hre w i.
  repeat (destruct HV as [<- | HV];
          [repeat (destruct Hre as [<- | Hre]; [reflexivity|]); destruct Hre|]).
  destruct HV.
Qed.

Lemma mids_no_earlier_trigger mid re :
  In mid [" to "; " and "; " with "; " from "] ->
  In re [Patterns.addTrigger; Patterns.deleteTrigger; Patterns.updateTrigger] ->
  forall w i,
  search (ignoreCase re) (pattern re) (mid ++ "node " ++ w) i
  = search (ignoreCase re) (pattern re) w (String.length (mid ++ "node ") + i).
Proof.
  intros Hm Hre w i.
  repeat (destruct Hm as [<- | Hm];
          [repeat (destruct Hre as [<- | Hre]; [reflexivity|]); destruct Hre|]).
  destruct Hm.
Qed.

Lemma verbs_connect Verb w :
  In Verb ["Connect "; "Link "; "Join "; "Attach "; "Disconnect "; "Unlink "] ->
  test (JS.toLowerCase Verb ++ "node " ++ w) Patterns.connectTrigger = true.
Proof.
  intros HV. rewrite test_search.
  change (ignoreCase Patterns.connectTrigger) with false.
  destruct HV as [<- | [<- | [<- | [<- | [<- | [<- | []]]]]]].
  - apply (@connect_found "connect" w 0). simpl. tauto.
  - apply (@connect_found "link" w 0). simpl. tauto.
  - apply (@connect_found "join" w 0). simpl. tauto.
  - apply (@connect_found "attach" w 0). simpl. tauto.
  - change (search false (pattern Patterns.connectTrigger)
              (JS.toLowerCase "Disconnect " ++ "node " ++ w) 0)
      with (search false (pattern Patterns.connectTrigger)
              ("connect" ++ " node " ++ w) 3).
    apply connect_found. simpl. tauto.
  - change (search false (pattern Patterns.connectTrigger)
              (JS.toLowerCase "Unlink " ++ "node " ++ w) 0)
      with (search false (pattern Patterns.connectTrigger)
              ("link" ++ " node " ++ w) 2).
    apply connect_found. simpl. tauto.
Qed.

Lemma verbs_without_node Verb w :
  In Verb ["Connect "; "Link "; "Join "; "Attach "; "Disconnect "; "Unlink "] ->
  search true (pattern Patterns.twoNodeNumbers)
    (JS.toLowerCase Verb ++ "node " ++ w) 0
  = search true (pattern Patterns.twoNodeNumbers) ("node " ++ w)
      (String.length (JS.toLowerCase Verb)).
Proof.
  intros HV. repeat (destruct HV as [<- | HV]; [reflexivity|]). destruct HV.
Qed.

(** A sentence of one of these verbs and two numbered nodes is a
    [connect_nodes] command. *)
Lemma verb_phrase Verb mid d1 d2 nodes source target :
  In Verb ["Connect "; "Link "; "Join "; "Attach "; "Disconnect "; "Unlink "] ->
  In mid [" to "; " and "; " with "; " from "] ->
  numeral d1 = true -> numeral d2 = true ->
  byOrdinal nodes (JS.parseInt (Some d1)) = Some source ->
  byOrdinal nodes (JS.parseInt (Some d2)) = Some target ->
  getEnhancedMockResponse (Verb ++ "node " ++ d1 ++ mid ++ "node " ++ d2) nodes
  = Return (withTargetNodeId (id target)
              (withSourceNodeId (id source) (commandOf connect_nodes))).
Proof.
  intros HV Hm H1 H2 Hs Ht.
  apply (@sentence_connects (JS.toLowerCase Verb) mid); try assumption.
  - intros re Hre. apply verbs_no_earlier_trigger; assumption.
  - intros re Hre. apply mids_no_earlier_trigger; assumption.
  - intros w. apply verbs_connect, HV.
  - intros w. apply verbs_without_node, HV.
  - repeat (destruct Hm as [<- | Hm]; [reflexivity|]). destruct Hm.
  - intros w. repeat (destruct Hm as [<- | Hm]; [reflexivity|]). destruct Hm.
  - reflexivity.
  - repeat (destruct Hm as [<- | Hm]; [reflexivity|]). destruct Hm.
  - repeat (destruct HV as [<- | HV]; [reflexivity|]). destruct HV.
Qed.

(** *** [disconnect N from M] *)

Lemma every_weaken (P Q : ascii -> bool) d :
  (forall c, P c = true -> Q c = true) -> every P d = true -> every Q d = true.
Proof.
  intros HPQ. induction d as [|c d IH]; simpl; [reflexivity|].
  intros H. apply andb_true_iff in H. destruct H as [Hc H].
  rewrite (HPQ c Hc), (IH H). reflexivity.
Qed.

Lemma digit_on_line c :
  JS.isDigit c = true -> negb (JS.isLineTerminator c) = true.
Proof. intros H. by_digit H. Qed.

Lemma digits_lack a d :
  JS.isDigit a = false -> every JS.isDigit d = true -> lacks a d = true.
Proof.
  intros Ha. induction d as [|c d IH]; simpl; [reflexivity|].
  intros H. apply andb_true_iff in H. destruct H as [Hc H].
  rewrite (IH H), andb_true_r. apply negb_true_iff.
  destruct (Ascii.eqb c a) eqn:E; [|reflexivity].
  apply Ascii.eqb_eq in E. congruence.
Qed.

Lemma numeral_last d c :
  every JS.isDigit d = true -> JS.isDigit c = true ->
  numeral (d ++ String c EmptyString) = true.
Proof.
  intros Hd Hc. unfold numeral. rewrite every_app, Hd. simpl. rewrite Hc.
  destruct d as [|a d]; simpl; [rewrite Hc; reflexivity|].
  simpl in Hd. apply andb_true_iff in Hd. destruct Hd as [-> _]. reflexivity.
Qed.

Lemma lit_refuses b w a k t p caps :
  Ascii.eqb a b = false ->
  run false (lit (String b w)) k (MState (String a t) p caps) = None.
Proof.
  intros H. destruct w as [|b' w].
  - simpl. unfold step. cbn [rest itemMatches]. rewrite H. reflexivity.
  - change (lit (String b (String b' w))) with (Seq (Chr b) (lit (String b' w))).
    rewrite run_seq. simpl. unfold step. cbn [rest itemMatches]. rewrite H.
    reflexivity.
Qed.

(** No node word starts where there is neither [n] nor [s]. *)
Lemma node_word_nowhere g k caps : forall x p,
  lacks "n" x = true -> lacks "s" x = true ->
  nowhere (run false (Group g Patterns.nodeWord) k) x p caps.
Proof.
  induction x as [|a x IH]; intros p Hn Hs.
  - split; [reflexivity | exact I].
  - simpl in Hn, Hs. apply andb_true_iff in Hn, Hs.
    destruct Hn as [Hn Hn'], Hs as [Hs Hs'].
    apply negb_true_iff in Hn, Hs. split; [|apply IH; assumption].
    rewrite run_group.
    change Patterns.nodeWord with (Alt (lit "node") (Alt (lit "step") (lit "state"))).
    cbn [run]. fold (lit "node") (lit "step") (lit "state").
    rewrite !lit_refuses by assumption. reflexivity.
Qed.

(** [disconnect] holds [connect], but without a node word after it the
    connect trigger finds nothing. *)
Lemma connect_without_node_word x i :
  lacks "n" x = true -> lacks "s" x = true ->
  run false (Group 0 (pattern Patterns.connectTrigger)) Some
    (MState ("connect" ++ x) i []) = None.
Proof.
  intros Hn Hs.
  change (pattern Patterns.connectTrigger)
    with (Seq (Group 1 (Alt (lit "connect") (alts ["link"; "join"; "attach"])))
            (Seq (Star true Dot) (Group 2 Patterns.nodeWord))).
  rewrite run_group, run_seq, run_group.
  change (run false (Alt (lit "connect") (alts ["link"; "join"; "attach"])) ?k ?s)
    with (match run false (lit "connect") k s with
          | Some res => Some res
          | None => run false (alts ["link"; "join"; "attach"]) k s
          end).
  rewrite lit_read, run_seq, run_star. unfold setCap. cbn [rest pos RegExp.caps].
  rewrite (@fails (run false Dot) _ (dot_reads false)).
  - reflexivity.
  - apply node_word_nowhere; assumption.
Qed.

Lemma bare_verb_skipped re w i :
  In re [Patterns.addTrigger; Patterns.deleteTrigger; Patterns.updateTrigger;
         Patterns.twoNodeNumbers; Patterns.twoNumbers] ->
  search (ignoreCase re) (pattern re) ("disconnect " ++ w) i
  = search (ignoreCase re) (pattern re) w (11 + i).
Proof.
  intros Hre. repeat (destruct Hre as [<- | Hre]; [reflexivity|]). destruct Hre.
Qed.

Lemma bare_mid_skipped re w i :
  In re [Patterns.addTrigger; Patterns.deleteTrigger; Patterns.updateTrigger;
         Patterns.connectTrigger; Patterns.twoNodeNumbers] ->
  search (ignoreCase re) (pattern re) (" from " ++ w) i
  = search (ignoreCase re) (pattern re) w (6 + i).
Proof.
  intros Hre. repeat (destruct Hre as [<- | Hre]; [reflexivity|]). destruct Hre.
Qed.

(** Without a node word, neither an earlier trigger nor the pattern of two
    numbered nodes matches the sentence. *)
Lemma bare_sentence_unmatched re d1 d2 :
  In re [Patterns.addTrigger; Patterns.deleteTrigger; Patterns.updateTrigger;
         Patterns.twoNodeNumbers] ->
  numeral d1 = true -> every JS.isDigit d2 = true ->
  search (ignoreCase re) (pattern re) ("disconnect " ++ d1 ++ " from " ++ d2) 0
  = None.
Proof.
  intros Hre H1 H2.
  assert (In re [Patterns.addTrigger; Patterns.deleteTrigger; Patterns.updateTrigger;
                 Patterns.connectTrigger; Patterns.nodeNumber;
                 Patterns.twoNodeNumbers]) as Hall by (simpl in *; tauto).
  rewrite bare_verb_skipped by (simpl in *; tauto).
  rewrite (@search_past (ignoreCase re) (pattern re) JS.isDigit
             (fun c t i => @digit_starts_nothing re c t i Hall)
             d1 _ _ (numeral_every d1 H1)).
  rewrite bare_mid_skipped by (simpl in *; tauto).
  apply digits_hold_nothing; assumption.
Qed.

Lemma bare_sentence_not_connect d1 d2 :
  numeral d1 = true -> every JS.isDigit d2 = true ->
  search false (pattern Patterns.connectTrigger)
    ("disconnect " ++ d1 ++ " from " ++ d2) 0 = None.
Proof.
  intros H1 H2.
  assert (forall a, JS.isDigit a = false -> Ascii.eqb " " a = false ->
                    lacks a " from " = true ->
                    lacks a (" " ++ d1 ++ " from " ++ d2) = true) as Hlacks.
  { intros a Ha Hsp Hfrom.
    change (" " ++ d1 ++ " from " ++ d2) with (String " " (d1 ++ " from " ++ d2)).
    cbn [lacks]. rewrite Hsp, !FenceFacts.lacks_app, Hfrom.
    rewrite !digits_lack by (assumption || apply numeral_every, H1). reflexivity. }
  change (search false (pattern Patterns.connectTrigger)
            ("disconnect " ++ d1 ++ " from " ++ d2) 0)
    with (search false (pattern Patterns.connectTrigger)
            ("connect" ++ " " ++ d1 ++ " from " ++ d2) 3).
  rewrite search_unfold, connect_without_node_word by (apply Hlacks; reflexivity).
  change (match "connect" ++ " " ++ d1 ++ " from " ++ d2 with
          | EmptyString => None
          | String _ t => search false (pattern Patterns.connectTrigger) t 4
          end)
    with (search false (pattern Patterns.connectTrigger)
            (d1 ++ " from " ++ d2) 11).
  rewrite (@search_past false (pattern Patterns.connectTrigger) JS.isDigit
             (fun c t i => @digit_starts_nothing Patterns.connectTrigger c t i
                             (or_intror (or_intror (or_intror (or_introl eq_refl)))))
             d1 _ _ (numeral_every d1 H1)).
  rewrite (@bare_mid_skipped Patterns.connectTrigger) by (simpl; tauto).
  apply (@digits_hold_nothing Patterns.connectTrigger); [simpl; tauto | exact H2].
Qed.

Lemma disconnect_triggered w :
  test ("disconnect " ++ w) Patterns.disconnectTrigger = true.
Proof.
  rewrite test_search. apply search_here.
  change (pattern Patterns.disconnectTrigger)
    with (Group 1
            (Alt (lit "disconnect")
               (altr [lit "unlink";
                      seqs [lit "remove"; Patterns.anything; lit "connection"];
                      seqs [lit "delete"; Patterns.anything; lit "edge"];
                      seqs [lit "break"; Patterns.anything; lit "connection"]]))).
  change (ignoreCase Patterns.disconnectTrigger) with false.
  rewrite !run_group. apply alt_found.
  change ("disconnect " ++ w) with ("disconnect" ++ " " ++ w).
  rewrite lit_read. reflexivity.
Qed.

(** [(\d+).*(\d+)]: the first numeral whole, and of the second its last
    digit only, the greedy [.*] taking the others. *)
Lemma two_bare_numbers_found d1 d c :
  numeral d1 = true -> every JS.isDigit d = true -> JS.isDigit c = true ->
  match_ ("disconnect " ++ d1 ++ " from " ++ d ++ String c EmptyString)
    Patterns.twoNumbers
  = Some {| matched :=
              let p2 := 11 + String.length d1 + String.length (" from " ++ d) in
              MState EmptyString (p2 + 1)
                [Some (11, p2 + 1); Some (11, 11 + String.length d1);
                 Some (p2, p2 + 1)];
            subject := "disconnect " ++ d1 ++ " from " ++ d ++ String c EmptyString |}.
Proof.
  intros H1 Hd Hc. unfold match_, exec.
  rewrite bare_verb_skipped by (simpl; tauto). rewrite search_unfold.
  change (pattern Patterns.twoNumbers)
    with (Seq (Group 1 (Plus digit)) (Seq (Star true Dot) (Group 2 (Plus digit)))).
  change (ignoreCase Patterns.twoNumbers) with false.
  rewrite run_group, run_seq.
  erewrite digits_group_read; [reflexivity | exact H1 | reflexivity|].
  rewrite run_seq, run_star. unfold setCap at 1. cbn [rest pos RegExp.caps setNth].
  rewrite <- (app_assoc " from " d (String c EmptyString)).
  apply (@takes_to_last (run false Dot) _ (dot_reads false)).
  - rewrite every_app. apply andb_true_iff. split; [reflexivity|].
    apply (@every_weaken JS.isDigit (fun a => negb (JS.isLineTerminator a)) d
             digit_on_line Hd).
  - rewrite <- (app_empty (String c EmptyString)).
    apply digits_group_read; [|reflexivity|reflexivity].
    unfold numeral. simpl. rewrite Hc. reflexivity.
  - split; [reflexivity | exact I].
Qed.

Lemma disconnect_numbered d1 d c nodes source target :
  numeral d1 = true -> every JS.isDigit d = true -> JS.isDigit c = true ->
  byOrdinal nodes (JS.parseInt (Some d1)) = Some source ->
  byOrdinal nodes (JS.parseInt (Some (String c EmptyString))) = Some target ->
  getEnhancedMockResponse
    ("Disconnect " ++ d1 ++ " from " ++ d ++ String c EmptyString) nodes
  = Return (withTargetNodeId (id target)
              (withSourceNodeId (id source) (commandOf disconnect_nodes))).
Proof.
  intros H1 Hd Hc Hs Ht. unfold getEnhancedMockResponse.
  pose proof (numeral_last d c Hd Hc) as H2.
  assert (JS.trim (JS.toLowerCase
                     ("Disconnect " ++ d1 ++ " from " ++ d ++ String c EmptyString))
          = "disconnect " ++ d1 ++ " from " ++ d ++ String c EmptyString) as ->.
  { replace ("Disconnect " ++ d1 ++ " from " ++ d ++ String c EmptyString)
      with (("Disconnect " ++ d1 ++ " from ") ++ d ++ String c EmptyString)
      by (rewrite !app_assoc; reflexivity).
    rewrite sentence_normalized; [|exact H2|reflexivity].
    rewrite !toLowerCase_app, (toLowerCase_digits d1 (numeral_every d1 H1)).
    rewrite !app_assoc. reflexivity. }
  cbv zeta. rewrite !test_search.
  rewrite !bare_sentence_unmatched
    by (simpl; tauto || assumption || apply numeral_every, H2).
  change (ignoreCase Patterns.connectTrigger) with false.
  rewrite bare_sentence_not_connect by (assumption || apply numeral_every, H2).
  rewrite <- test_search, disconnect_triggered. cbn [isSome].
  unfold endpointsDetector, match_ at 1, exec.
  rewrite bare_sentence_unmatched
    by (simpl; tauto || assumption || apply numeral_every, H2).
  cbn [option_map JS.orElse]. rewrite (two_bare_numbers_found d1 d c H1 Hd Hc).
  unfold nodeAtOrdinal.
  match goal with
  | |- context [group ?m 1] =>
      assert (group m 1 = Some d1) as G1;
      [|assert (group m 2 = Some (String c EmptyString)) as G2]
  end.
  - eapply group_text; [reflexivity|]. cbv zeta.
    apply (substring_middle "disconnect " d1); [reflexivity | lia].
  - eapply group_text; [reflexivity|]. cbv zeta.
    replace ("disconnect " ++ d1 ++ " from " ++ d ++ String c EmptyString)
      with (("disconnect " ++ d1 ++ " from " ++ d) ++ String c EmptyString ++ EmptyString)
      by (rewrite !app_assoc; reflexivity).
    apply substring_middle; [rewrite !length_app; simpl; lia | simpl; lia].
  - rewrite G1, G2, Hs, Ht. reflexivity.
Qed.

End OrdinalFacts.


(** X19.  The sentence of the help text, [Delete node N]: for every [N]
    from 1 to the number of nodes, written in decimal, the parser answers
    with the deletion of the [N]-th node of the list. *)
Theorem delete_by_number (n : nat) (nodes : list Node) (node : Node) :
  nth_error nodes n = Some node ->
  getEnhancedMockResponse ("Delete node " ++ JS.showNat (S n)) nodes
  = Return (withNodeId (id node) (commandOf delete_node)).
Proof.
  intros H. apply OrdinalFacts.delete_numbered.
  - apply NumeralFacts.showNat_numeral.
  - rewrite NumeralFacts.parseInt_showNat, OrdinalFacts.nth_by_ordinal. exact H.
Qed.

Lemma delete_by_number_witness :
  getEnhancedMockResponse ("Delete node " ++ JS.showNat 2) twoNodes
  = Return (withNodeId "n2" (commandOf delete_node)).
Proof.
  apply (@delete_by_number 1 twoNodes {| id := "n2"; label := "End Call"; index := 1 |}).
  reflexivity.
Defined.

(** X20.  The sentence of the usage message, [Connect node N to node M],
    and its variants with the other verbs of the connect trigger and with
    [and] or [with] between the nodes: for every [N] and [M] from 1 to the
    number of nodes the parser answers with the connection from the [N]-th
    node to the [M]-th node. *)
Theorem connect_by_numbers (Verb mid : string) (n m : nat) (nodes : list Node)
  (source target : Node) :
  In Verb ["Connect "; "Link "; "Join "; "Attach "] ->
  In mid [" to "; " and "; " with "] ->
  nth_error nodes n = Some source -> nth_error nodes m = Some target ->
  getEnhancedMockResponse
    (Verb ++ "node " ++ JS.showNat (S n) ++ mid ++ "node " ++ JS.showNat (S m)) nodes
  = Return (withTargetNodeId (id target)
              (withSourceNodeId (id source) (commandOf connect_nodes))).
Proof.
  intros HV Hm Hs Ht. apply OrdinalFacts.verb_phrase.
  - simpl in *. tauto.
  - simpl in *. tauto.
  - apply NumeralFacts.showNat_numeral.
  - apply NumeralFacts.showNat_numeral.
  - rewrite NumeralFacts.parseInt_showNat, OrdinalFacts.nth_by_ordinal. exact Hs.
  - rewrite NumeralFacts.parseInt_showNat, OrdinalFacts.nth_by_ordinal. exact Ht.
Qed.

Lemma connect_by_numbers_witness :
  getEnhancedMockResponse
    ("Connect " ++ "node " ++ JS.showNat 2 ++ " to " ++ "node " ++ JS.showNat 1)
    twoNodes
  = Return (withTargetNodeId "n1" (withSourceNodeId "n2" (commandOf connect_nodes))).
Proof.
  apply (@connect_by_numbers "Connect " " to " 1 0 twoNodes
           {| id := "n2"; label := "End Call"; index := 1 |}
           {| id := "n1"; label := "Start"; index := 0 |});
    [left; reflexivity | left; reflexivity | reflexivity | reflexivity].
Defined.

(** X21.  A sentence that asks to disconnect two numbered nodes is read as
    a connection: [disconnect] holds [connect] and [unlink] holds [link], the
    connect detector comes first, and for every [N] and [M] from 1 to the
    number of nodes the answer to [Disconnect node N from node M] is a
    [connect_nodes] command from the [N]-th node to the [M]-th node. *)
Theorem disconnect_sentence_connects (Verb mid : string) (n m : nat)
  (nodes : list Node) (source target : Node) :
  In Verb ["Disconnect "; "Unlink "] ->
  In mid [" from "; " and "] ->
  nth_error nodes n = Some source -> nth_error nodes m = Some target ->
  getEnhancedMockResponse
    (Verb ++ "node " ++ JS.showNat (S n) ++ mid ++ "node " ++ JS.showNat (S m)) nodes
  = Return (withTargetNodeId (id target)
              (withSourceNodeId (id source) (commandOf connect_nodes))).
Proof.
  intros HV Hm Hs Ht. apply OrdinalFacts.verb_phrase.
  - simpl in *. tauto.
  - simpl in *. tauto.
  - apply NumeralFacts.showNat_numeral.
  - apply NumeralFacts.showNat_numeral.
  - rewrite NumeralFacts.parseInt_showNat, OrdinalFacts.nth_by_ordinal. exact Hs.
  - rewrite NumeralFacts.parseInt_showNat, OrdinalFacts.nth_by_ordinal. exact Ht.
Qed.

Lemma disconnect_sentence_connects_witness :
  getEnhancedMockResponse
    ("Disconnect " ++ "node " ++ JS.showNat 1 ++ " from " ++ "node " ++ JS.showNat 2)
    twoNodes
  = Return (withTargetNodeId "n2" (withSourceNodeId "n1" (commandOf connect_nodes))).
Proof.
  apply (@disconnect_sentence_connects "Disconnect " " from " 0 1 twoNodes
           {| id := "n1"; label := "Start"; index := 0 |}
           {| id := "n2"; label := "End Call"; index := 1 |});
    [left; reflexivity | left; reflexivity | reflexivity | reflexivity].
Defined.

(** X22.  Without node words the disconnect detector is reached, and its
    second pattern reads the target from the last digit alone: for every [N]
    from 1 to the number of nodes and every [M] from 1 to 9, the answer to
    [Disconnect N from dM] is the disconnection of the [N]-th node from the
    [M]-th node, whatever digits [d] stand before [M]. *)
Theorem disconnect_by_bare_numbers (n m : nat) (d : string) (nodes : list Node)
  (source target : Node) :
  nth_error nodes n = Some source -> nth_error nodes m = Some target ->
  m < 9 -> every JS.isDigit d = true ->
  getEnhancedMockResponse
    ("Disconnect " ++ JS.showNat (S n) ++ " from " ++ d ++ JS.showNat (S m)) nodes
  = Return (withTargetNodeId (id target)
              (withSourceNodeId (id source) (commandOf disconnect_nodes))).
Proof.
  intros Hs Ht Hm Hd.
  assert (exists c, JS.showNat (S m) = String c EmptyString /\ JS.isDigit c = true)
    as (c & E & Hc).
  { do 9 (destruct m as [|m]; [eexists; split; reflexivity|]). lia. }
  rewrite E. apply OrdinalFacts.disconnect_numbered.
  - apply NumeralFacts.showNat_numeral.
  - exact Hd.
  - exact Hc.
  - rewrite NumeralFacts.parseInt_showNat, OrdinalFacts.nth_by_ordinal. exact Hs.
  - rewrite <- E, NumeralFacts.parseInt_showNat, OrdinalFacts.nth_by_ordinal.
    exact Ht.
Qed.

Lemma disconnect_by_bare_numbers_witness :
  getEnhancedMockResponse
    ("Disconnect " ++ JS.showNat 1 ++ " from " ++ "1" ++ JS.showNat 2) twoNodes
  = Return (withTargetNodeId "n2" (withSourceNodeId "n1" (commandOf disconnect_nodes))).
Proof.
  apply (@disconnect_by_bare_numbers 0 1 "1" twoNodes
           {| id := "n1"; label := "Start"; index := 0 |}
           {| id := "n2"; label := "End Call"; index := 1 |});
    [reflexivity | reflexivity | lia | reflexivity].
Defined.

(* ================================================================== *)
(** ** The update sentence *)

Module UpdateFacts.
Import RegExp RegExpFacts CleanUpFacts NumeralFacts LoopFacts OrdinalFacts.

Lemma ahead_refl s : ahead s s.
Proof. exists EmptyString. reflexivity. Qed.

Lemma ahead_trans s1 s2 s3 : ahead s1 s2 -> ahead s2 s3 -> ahead s1 s3.
Proof.
  intros [p1 H1] [p2 H2]. exists (p1 ++ p2). rewrite H1, H2, app_assoc. reflexivity.
Qed.

Lemma step_ahead p k s res :
  step p k s = Some res -> exists s', k s' = Some res /\ ahead s s'.
Proof.
  unfold step. destruct (rest s) as [|c t] eqn:E; [discriminate|].
  destruct (p c); [|discriminate]. intros H.
  exists (MState t (S (pos s)) (caps s)). split; [exact H|].
  exists (String c EmptyString). rewrite E. reflexivity.
Qed.

(** A match enters its continuation on a tail of the input. *)
Lemma run_ahead ic r : forall k s res,
  run ic r k s = Some res -> exists s', k s' = Some res /\ ahead s s'.
Proof.
  induction r as [ | a | | neg items | r1 IH1 r2 IH2 | r1 IH1 r2 IH2
                 | greedy r' IH | greedy r' IH | n r' IH | ]; intros k s res; simpl.
  - intros H. exists s. split; [exact H | apply ahead_refl].
  - apply step_ahead.
  - apply step_ahead.
  - apply step_ahead.
  - intros H. apply IH1 in H. destruct H as (s1 & H1 & A1).
    apply IH2 in H1. destruct H1 as (s2 & H2 & A2).
    exists s2. split; [exact H2 | eapply ahead_trans; eassumption].
  - destruct (run ic r1 k s) as [res1|] eqn:E1.
    + intros H. injection H as <-. apply IH1, E1.
    + apply IH2.
  - generalize (String.length (rest s)). intros fuel. revert s.
    induction fuel as [|fuel IHf]; intros s H; simpl in H.
    + exists s. split; [exact H | apply ahead_refl].
    + apply choose_cases in H. destruct H as [H|H].
      * apply IH in H. destruct H as (s1 & H1 & A1).
        apply progress_some, IHf in H1. destruct H1 as (s2 & H2 & A2).
        exists s2. split; [exact H2 | eapply ahead_trans; eassumption].
      * exists s. split; [exact H | apply ahead_refl].
  - intros H. apply choose_cases in H. destruct H as [H|H].
    + apply IH in H. destruct H as (s1 & H1 & A1).
      apply progress_some in H1. exists s1. split; assumption.
    + exists s. split; [exact H | apply ahead_refl].
  - intros H. apply IH in H. destruct H as (s1 & H1 & A1).
    exists (setCap n (pos s, pos s1) s1). split; [exact H1 | exact A1].
  - destruct (rest s); [|discriminate]. intros H.
    exists s. split; [exact H | apply ahead_refl].
Qed.

Lemma includes_tail w : forall pre t,
  JS.includes (pre ++ t) w = false -> JS.startsWith t w = false.
Proof.
  induction pre as [|c pre IH]; intros t H.
  - destruct t; simpl in H; apply orb_false_iff in H; apply H.
  - change (String c pre ++ t) with (String c (pre ++ t)) in H. simpl in H.
    apply orb_false_iff in H. apply IH, H.
Qed.

Lemma lit_needs_prefix k caps : forall w t p,
  JS.startsWith t w = false -> run false (lit w) k (MState t p caps) = None.
Proof.
  induction w as [|b w IH]; intros t p H; [destruct t; discriminate H|].
  destruct t as [|a t].
  - destruct w; reflexivity.
  - simpl in H. apply andb_false_iff in H.
    destruct (Ascii.eqb a b) eqn:E.
    + apply Ascii.eqb_eq in E. subst a.
      destruct H as [H|H]; [rewrite Ascii.eqb_refl in H; discriminate H|].
      destruct w as [|b' w]; [destruct t; discriminate H|].
      change (lit (String b (String b' w))) with (Seq (Chr b) (lit (String b' w))).
      rewrite run_seq, char_read. apply IH, H.
    + apply lit_refuses, E.
Qed.

(** No node word starts on a tail of a text that includes none. *)
Lemma no_node_word_ahead y k pre t p caps :
  JS.includes y "node" = false -> JS.includes y "step" = false ->
  JS.includes y "state" = false -> y = pre ++ t ->
  run false Patterns.nodeWord k (MState t p caps) = None.
Proof.
  intros H1 H2 H3 ->.
  change Patterns.nodeWord with (Alt (lit "node") (Alt (lit "step") (lit "state"))).
  cbn [run]. fold (lit "node") (lit "step") (lit "state").
  rewrite !lit_needs_prefix by (eapply includes_tail; eassumption). reflexivity.
Qed.

(** A trigger that asks for a node word finds nothing in such a text. *)
Lemma no_trigger_without_node_word re y :
  In re [Patterns.addTrigger; Patterns.deleteTrigger] ->
  JS.includes y "node" = false -> JS.includes y "step" = false ->
  JS.includes y "state" = false ->
  forall t pre i, y = pre ++ t -> search false (pattern re) t i = None.
Proof.
  intros Hre H1 H2 H3.
  assert (forall t pre i, y = pre ++ t ->
            run false (Group 0 (pattern re)) Some (MState t i []) = None) as Hrun.
  { intros t pre i Hy.
    destruct (run false (Group 0 (pattern re)) Some (MState t i [])) as [res|] eqn:E;
      [exfalso|reflexivity].
    assert (exists V, pattern re
                      = Seq (Group 1 V)
                          (Seq (Star true Dot) (Group 2 Patterns.nodeWord)))
      as [V HV]
      by (destruct Hre as [<- | [<- | []]]; eexists; reflexivity).
    rewrite HV, run_group, run_seq in E.
    apply run_ahead in E. destruct E as (s1 & E & [p1 A1]).
    rewrite run_seq in E. apply run_ahead in E. destruct E as (s2 & E & [p2 A2]).
    rewrite run_group in E. destruct s2 as [t2 q2 c2]. cbn [rest] in *.
    rewrite (@no_node_word_ahead y _ (pre ++ p1 ++ p2) t2 q2 c2 H1 H2 H3) in E;
      [discriminate E|].
    rewrite Hy, A1, A2, !app_assoc. reflexivity. }
  induction t as [|c t IH]; intros pre i Hy; rewrite search_unfold, (Hrun _ pre i Hy).
  - reflexivity.
  - apply (IH (pre ++ String c EmptyString)). rewrite Hy, app_assoc. reflexivity.
Qed.

Lemma plus_read ic r (P : ascii -> bool) k res c u w p caps :
  (forall k s, run ic r k s = step P k s) ->
  P c = true -> every P u = true -> headIs P w = false ->
  k (MState w (p + S (String.length u)) caps) = Some res ->
  run ic (Plus r) k (MState (String c u ++ w) p caps) = Some res.
Proof.
  intros Hr Hc Hu Hw H. unfold Plus.
  change (String c u ++ w) with (String c (u ++ w)).
  rewrite run_seq, Hr. unfold step. cbn [rest pos RegExp.caps]. rewrite Hc, run_star.
  cbn [rest].
  apply (@takes_all (run ic r) P Hr k res u w (S p) caps Hu Hw).
  rewrite <- H. do 2 f_equal. lia.
Qed.

Lemma opt_absent ic r (P : ascii -> bool) k x p caps :
  (forall k s, run ic r k s = step P k s) -> headIs P x = false ->
  run ic (Opt true r) k (MState x p caps) = k (MState x p caps).
Proof.
  intros Hr Hx. simpl. unfold optional, choose. rewrite Hr. unfold step. cbn [rest].
  destruct x as [|c t]; [reflexivity|]. simpl in Hx. rewrite Hx. reflexivity.
Qed.

Lemma quote_char c :
  existsb (itemMatches true c) [IChar "034"; IChar "'"]
  = (Ascii.eqb c "034" || Ascii.eqb c "'")%bool.
Proof. destruct c as [[] [] [] [] [] [] [] []]; reflexivity. Qed.

Lemma quote_reads k s :
  run true quote k s
  = step (fun c => (Ascii.eqb c "034" || Ascii.eqb c "'")%bool) k s.
Proof.
  change (run true quote k s)
    with (step (fun c => xorb false
                           (existsb (itemMatches true c) [IChar "034"; IChar "'"]))
            k s).
  unfold step. destruct (rest s) as [|c t]; [reflexivity|].
  rewrite quote_char. reflexivity.
Qed.

Lemma notQuote_reads k s :
  run true notQuote k s
  = step (fun c => negb (Ascii.eqb c "034" || Ascii.eqb c "'")) k s.
Proof.
  change (run true notQuote k s)
    with (step (fun c => xorb true
                           (existsb (itemMatches true c) [IChar "034"; IChar "'"]))
            k s).
  unfold step. destruct (rest s) as [|c t]; [reflexivity|].
  rewrite quote_char. reflexivity.
Qed.

Lemma no_quote_every y :
  lacks "034" y = true -> lacks "'" y = true ->
  every (fun c => negb (Ascii.eqb c "034" || Ascii.eqb c "'")) y = true.
Proof.
  induction y as [|c y IH]; simpl; [reflexivity|].
  intros H1 H2. apply andb_true_iff in H1, H2.
  destruct H1 as [H1 H1'], H2 as [H2 H2']. apply negb_true_iff in H1, H2.
  rewrite H1, H2, (IH H1' H2'). reflexivity.
Qed.

Lemma update_verb_skipped re w i :
  In re [Patterns.addTrigger; Patterns.deleteTrigger; Patterns.updateLabelPhrase] ->
  search (ignoreCase re) (pattern re) ("update node " ++ w) i
  = search (ignoreCase re) (pattern re) w (12 + i).
Proof.
  intros Hre. repeat (destruct Hre as [<- | Hre]; [reflexivity|]). destruct Hre.
Qed.

Lemma update_mid_skipped re w i :
  In re [Patterns.addTrigger; Patterns.deleteTrigger] ->
  search (ignoreCase re) (pattern re) (" to " ++ w) i
  = search (ignoreCase re) (pattern re) w (4 + i).
Proof.
  intros Hre. repeat (destruct Hre as [<- | Hre]; [reflexivity|]). destruct Hre.
Qed.

Lemma label_phrase_no_digit c t i :
  JS.isDigit c = true ->
  run true (Group 0 (pattern Patterns.updateLabelPhrase)) Some
    (MState (String c t) i []) = None.
Proof. intros H. by_digit H. Qed.

(** Neither the add nor the delete trigger matches the update sentence. *)
Lemma update_not_earlier re d y :
  In re [Patterns.addTrigger; Patterns.deleteTrigger] ->
  numeral d = true ->
  JS.includes y "node" = false -> JS.includes y "step" = false ->
  JS.includes y "state" = false ->
  test ("update node " ++ d ++ " to " ++ y) re = false.
Proof.
  intros Hre Hd H1 H2 H3. rewrite test_search.
  assert (ignoreCase re = false) as Hic
    by (destruct Hre as [<- | [<- | []]]; reflexivity).
  rewrite update_verb_skipped by (simpl in *; tauto).
  rewrite (@search_past (ignoreCase re) (pattern re) JS.isDigit
             (fun c t i => @digit_starts_nothing re c t i
                             ltac:(simpl in *; tauto))
             d _ _ (numeral_every d Hd)).
  rewrite update_mid_skipped by exact Hre.
  rewrite Hic, (@no_trigger_without_node_word re y Hre H1 H2 H3 y EmptyString);
    reflexivity.
Qed.

Lemma update_triggered w :
  test ("update node " ++ w) Patterns.updateTrigger = true.
Proof.
  rewrite test_search. apply search_here.
  change (pattern Patterns.updateTrigger)
    with (Seq (Group 1 (Alt (lit "update")
                          (alts ["change"; "edit"; "modify"; "rename"])))
            (Seq (Star true Dot) (Group 2 Patterns.nodeWord))).
  change (ignoreCase Patterns.updateTrigger) with false.
  rewrite run_group, run_seq, run_group. apply alt_found.
  change ("update node " ++ w) with ("update" ++ " " ++ "node " ++ w).
  rewrite lit_read, run_seq, run_star. unfold setCap. cbn [rest pos RegExp.caps].
  rewrite length_app.
  apply (@finds (run false Dot) _ (dot_reads false)); reflexivity.
Qed.

Lemma update_number_found d w :
  numeral d = true -> headIs JS.isDigit w = false ->
  match_ ("update node " ++ d ++ w) Patterns.nodeNumber
  = Some {| matched :=
              MState w (12 + String.length d)
                [Some (7, 12 + String.length d); Some (12, 12 + String.length d)];
            subject := "update node " ++ d ++ w |}.
Proof.
  intros Hd Hw. unfold match_, exec.
  change (search (ignoreCase Patterns.nodeNumber) (pattern Patterns.nodeNumber)
            ("update node " ++ d ++ w) 0)
    with (search true (pattern Patterns.nodeNumber) ("node " ++ d ++ w) 7).
  rewrite search_unfold.
  change (pattern Patterns.nodeNumber)
    with (Seq Patterns.nodeWord (Seq (Star true space) (Group 1 (Plus digit)))).
  rewrite run_group.
  erewrite node_word_read; [reflexivity | apply numeral_no_space, Hd|].
  apply digits_group_read; [exact Hd | exact Hw | reflexivity].
Qed.

(** The new label is what follows [to] and the white space after it. *)
Lemma label_phrase_found d y :
  numeral d = true -> JS.truthy y = true -> headIs JS.isSpace y = false ->
  lacks "034" y = true -> lacks "'" y = true ->
  exists m,
    match_ ("update node " ++ d ++ " to " ++ y) Patterns.updateLabelPhrase = Some m
    /\ group m 1 = Some y.
Proof.
  intros Hd Hy Hsp Hq1 Hq2. unfold match_, exec.
  change (ignoreCase Patterns.updateLabelPhrase) with true.
  rewrite (@update_verb_skipped Patterns.updateLabelPhrase) by (simpl; tauto).
  rewrite (@search_past true (pattern Patterns.updateLabelPhrase) JS.isDigit
             label_phrase_no_digit d _ _ (numeral_every d Hd)).
  change (search true (pattern Patterns.updateLabelPhrase) (" to " ++ y)
            (12 + 0 + String.length d))
    with (search true (pattern Patterns.updateLabelPhrase) ("to " ++ y)
            (S (12 + 0 + String.length d))).
  rewrite search_unfold.
  assert (exists res i j,
            run true (Group 0 (pattern Patterns.updateLabelPhrase)) Some
              (MState ("to " ++ y) (S (12 + 0 + String.length d)) []) = Some res
            /\ cap 1 res = Some (i, j)
            /\ i = 16 + String.length d /\ j = i + String.length y)
    as (res & i & j & Hrun & Hcap & Hi & Hj).
  { destruct y as [|c u]; [discriminate Hy|].
    pose proof (no_quote_every (String c u) Hq1 Hq2) as Hall.
    simpl in Hall. apply andb_true_iff in Hall. destruct Hall as [Hc Hu].
    do 3 eexists. split; [|split; [|split]].
    - change (pattern Patterns.updateLabelPhrase)
        with (Seq (Alt (lit "to")
                     (alts ["say"; "says"; "with"; "as"; "named"; "called"]))
                (Seq (Plus space)
                   (Seq (Opt true quote)
                      (Seq (Group 1 (Plus notQuote)) (Opt true quote))))).
      rewrite run_group, run_seq. apply alt_first.
      change ("to " ++ String c u) with ("to" ++ " " ++ String c u).
      rewrite lit_read, run_seq.
      apply (@plus_read true space JS.isSpace _ _ " " EmptyString (String c u)
               _ _ (space_reads true) eq_refl eq_refl Hsp).
      rewrite run_seq, (@opt_absent true quote _ _ _ _ _ quote_reads).
      + rewrite run_seq, run_group, <- (app_empty (String c u)).
        apply (@plus_read true notQuote _ _ _ c u EmptyString _ _
                 notQuote_reads Hc Hu eq_refl).
        unfold setCap. cbn [rest pos RegExp.caps].
        rewrite (@opt_absent true quote _ _ _ _ _ quote_reads) by reflexivity.
        reflexivity.
      + simpl. apply negb_true_iff in Hc. exact Hc.
    - reflexivity.
    - simpl. lia.
    - simpl. lia. }
  rewrite Hrun. eexists. split; [reflexivity|].
  eapply group_text; [exact Hcap|]. subst i j.
  replace ("update node " ++ d ++ " to " ++ y)
    with (("update node " ++ d ++ " to ") ++ y ++ EmptyString)
    by (rewrite app_empty, !app_assoc; reflexivity).
  apply substring_middle; [rewrite !length_app; simpl; lia | lia].
Qed.

Lemma plain_label y :
  plainLabel y = true ->
  JS.truthy y = true /\ headIs JS.isSpace y = false /\ JS.trimEnd y = y
  /\ lacks "034" y = true /\ lacks "'" y = true
  /\ JS.includes y "node" = false /\ JS.includes y "step" = false
  /\ JS.includes y "state" = false.
Proof.
  unfold plainLabel. intros H.
  repeat (apply andb_true_iff in H; destruct H as [H ?]).
  repeat match goal with
         | H : negb _ = true |- _ => apply negb_true_iff in H
         | H : String.eqb _ _ = true |- _ => apply String.eqb_eq in H
         end.
  repeat split; assumption.
Qed.

(** The update sentence with any numeral that names a node. *)
Lemma update_numbered d Y nodes node :
  numeral d = true -> plainLabel (JS.toLowerCase Y) = true ->
  byOrdinal nodes (JS.parseInt (Some d)) = Some node ->
  getEnhancedMockResponse ("Update node " ++ d ++ " to " ++ Y) nodes
  = Return (withNodeLabel (JS.toLowerCase Y)
              (withNodeId (id node) (commandOf update_node))).
Proof.
  intros Hd HY Hn. apply plain_label in HY.
  destruct HY as (Ht & Hsp & Hend & Hq1 & Hq2 & N1 & N2 & N3).
  unfold getEnhancedMockResponse.
  assert (JS.trim (JS.toLowerCase ("Update node " ++ d ++ " to " ++ Y))
          = "update node " ++ d ++ " to " ++ JS.toLowerCase Y) as ->.
  { rewrite !toLowerCase_app, (toLowerCase_digits d (numeral_every d Hd)).
    unfold JS.trim.
    change (JS.trimStart (JS.toLowerCase "Update node " ++ d
                          ++ JS.toLowerCase " to " ++ JS.toLowerCase Y))
      with ("update node " ++ d ++ " to " ++ JS.toLowerCase Y).
    replace ("update node " ++ d ++ " to " ++ JS.toLowerCase Y)
      with (("update node " ++ d ++ " to ") ++ JS.toLowerCase Y)
      by (rewrite !app_assoc; reflexivity).
    apply trimEnd_kept; [exact Hend|].
    destruct (JS.toLowerCase Y); [discriminate Ht | discriminate]. }
  cbv zeta.
  rewrite !update_not_earlier by (simpl; tauto || assumption).
  rewrite update_triggered. unfold updateDetector.
  rewrite (update_number_found d (" to " ++ JS.toLowerCase Y) Hd eq_refl).
  destruct (label_phrase_found d (JS.toLowerCase Y) Hd Ht Hsp Hq1 Hq2)
    as (m & Hm & Hg).
  rewrite Hm. cbn [JS.orElse]. rewrite Hg. unfold nodeAtOrdinal.
  match goal with
  | |- context [group ?m0 1] => assert (group m0 1 = Some d) as G1
  end.
  { eapply group_text; [reflexivity|].
    apply (substring_middle "update node " d); [reflexivity | lia]. }
  rewrite G1, Hn. unfold trimOf, JS.trim.
  assert (JS.trimStart (JS.toLowerCase Y) = JS.toLowerCase Y) as ->.
  { destruct (JS.toLowerCase Y) as [|c t]; [reflexivity|].
    simpl in *. rewrite Hsp. reflexivity. }
  rewrite Hend. reflexivity.
Qed.

End UpdateFacts.

(** X23.  The update sentence, [Update node N to Y]: for every [N] from 1
    to the number of nodes and every label [Y] whose lower-cased text is
    plain, the parser answers with the update of the [N]-th node, and the new
    label is the whole text after [to] in lower case.  So the sentence of the
    usage message, [Update node 1 to say Welcome], sets the label
    [say welcome]. *)
Theorem update_by_number (n : nat) (Y : string) (nodes : list Node) (node : Node) :
  nth_error nodes n = Some node -> plainLabel (JS.toLowerCase Y) = true ->
  getEnhancedMockResponse ("Update node " ++ JS.showNat (S n) ++ " to " ++ Y) nodes
  = Return (withNodeLabel (JS.toLowerCase Y)
              (withNodeId (id node) (commandOf update_node))).
Proof.
  intros Hn HY. apply UpdateFacts.update_numbered.
  - apply NumeralFacts.showNat_numeral.
  - exact HY.
  - rewrite NumeralFacts.parseInt_showNat, OrdinalFacts.nth_by_ordinal. exact Hn.
Qed.

Lemma update_by_number_witness :
  getEnhancedMockResponse ("Update node " ++ JS.showNat 1 ++ " to " ++ "say Welcome")
    twoNodes
  = Return (withNodeLabel "say welcome" (withNodeId "n1" (commandOf update_node))).
Proof.
  apply (@update_by_number 0 "say Welcome" twoNodes
           {| id := "n1"; label := "Start"; index := 0 |});
    reflexivity.
Defined.

(* ================================================================== *)
(** ** The handlers of the toolbar and the generated ids *)

Section OwnerFacts.

Variable XYPosition : Type.
Local Abbreviation Flow := (Home.Flow XYPosition).
Local Abbreviation Chance := (Home.Chance XYPosition).

Lemma relabel_id text (node : FlowNode.t XYPosition) :
  FlowNode.id (Home.relabel text node) = FlowNode.id node.
Proof. reflexivity. Qed.

Lemma map_unchanged (A : Type) (f : A -> A) (l : list A) :
  (forall a, In a l -> f a = a) -> map f l = l.
Proof.
  induction l as [|a l IH]; intros H; simpl; [reflexivity|].
  rewrite (H a (or_introl eq_refl)), IH; [reflexivity|].
  intros b Hb. apply H. right. exact Hb.
Qed.

(** X24.  Updating a label touches nothing else: the ids of the nodes, in
    order, and the edges are as before; every node with the id carries the
    new label; the nodes with another id are the same before and after; an
    id of no node changes nothing; and of two updates of the same id the
    second wins. *)
Theorem update_relabels_only (x text : string) (flow : Flow) :
  flowIds (Home.handleUpdateNodeLabel x text flow) = flowIds flow
  /\ Home.edges (Home.handleUpdateNodeLabel x text flow) = Home.edges flow
  /\ (forall node, In node (Home.nodes (Home.handleUpdateNodeLabel x text flow)) ->
        FlowNode.id node = x -> FlowNode.label node = text)
  /\ (forall node, FlowNode.id node <> x ->
        (In node (Home.nodes (Home.handleUpdateNodeLabel x text flow))
         <-> In node (Home.nodes flow)))
  /\ (~ In x (flowIds flow) -> Home.handleUpdateNodeLabel x text flow = flow)
  /\ (forall text', Home.handleUpdateNodeLabel x text'
                      (Home.handleUpdateNodeLabel x text flow)
                    = Home.handleUpdateNodeLabel x text' flow).
Proof.
  destruct flow as [nodes edges]. unfold Home.handleUpdateNodeLabel, flowIds.
  cbn [Home.nodes Home.edges].
  split; [|split; [reflexivity|split; [|split; [|split]]]].
  - rewrite map_map. apply map_ext. intros node.
    destruct (String.eqb (FlowNode.id node) x); reflexivity.
  - intros node Hin Hx. apply in_map_iff in Hin. destruct Hin as (old & <- & _).
    destruct (String.eqb (FlowNode.id old) x) eqn:E; [reflexivity|].
    apply String.eqb_neq in E. contradiction.
  - intros node Hx. split; intros Hin.
    + apply in_map_iff in Hin. destruct Hin as (old & Hold & Hin).
      destruct (String.eqb (FlowNode.id old) x) eqn:E.
      * apply String.eqb_eq in E. subst node. rewrite relabel_id in Hx.
        contradiction.
      * subst node. exact Hin.
    + apply in_map_iff. exists node. split; [|exact Hin].
      apply String.eqb_neq in Hx. rewrite Hx. reflexivity.
  - intros Hx. f_equal. apply map_unchanged. intros node Hin.
    destruct (String.eqb (FlowNode.id node) x) eqn:E; [|reflexivity].
    apply String.eqb_eq in E. exfalso. apply Hx. apply in_map_iff.
    exists node. split; assumption.
  - intros text'. f_equal. rewrite map_map. apply map_ext. intros node.
    destruct (String.eqb (FlowNode.id node) x) eqn:E.
    + rewrite relabel_id, E. reflexivity.
    + rewrite E. reflexivity.
Qed.

Lemma addEach_nodes : forall (chances : list Chance) (flow : Flow),
  flowLabels (addEach chances flow)
  = (flowLabels flow
     ++ defaultLabels (List.length (Home.nodes flow)) (List.length chances))%list
  /\ Home.edges (addEach chances flow) = Home.edges flow.
Proof.
  induction chances as [|chance chances IH]; intros flow.
  - unfold defaultLabels. simpl. rewrite app_nil_r. split; reflexivity.
  - change (addEach (chance :: chances) flow)
      with (addEach chances (Home.handleAddNode chance flow flow)).
    destruct (IH (Home.handleAddNode chance flow flow)) as [-> ->].
    split; [|reflexivity].
    unfold flowLabels, defaultLabels, Home.handleAddNode, Home.defaultLabel.
    cbn [Home.nodes List.length seq map].
    rewrite map_app, List.length_app, <- List.app_assoc.
    cbn [map List.length app Home.newNode FlowNode.label].
    replace (List.length (Home.nodes flow) + 1) with (S (List.length (Home.nodes flow)))
      by lia.
    reflexivity.
Qed.

(** X25.  The button of the toolbar does what an [add_node] command
    without a label does on the same closure, and it numbers its nodes by
    the count of the nodes: pressed for each of [chances], each press on the
    callback of the last render, it appends nodes labelled
    [Node k+1], [Node k+2], ... to a flow of [k] nodes and leaves the edges;
    after a confirmed clearing the labels are [Node 1], [Node 2], ... and
    there is no edge; a clearing that is not confirmed changes nothing. *)
Theorem toolbar_numbers_its_nodes (chances : list Chance) (seen flow : Flow)
  (chance : Chance) :
  Home.handleAddNode chance seen flow
  = Home.handleAICommand (commandOf add_node) chance seen flow
  /\ flowLabels (addEach chances flow)
     = (flowLabels flow
        ++ defaultLabels (List.length (Home.nodes flow)) (List.length chances))%list
  /\ Home.edges (addEach chances flow) = Home.edges flow
  /\ flowLabels (addEach chances (Home.handleClearAll true flow))
     = defaultLabels 0 (List.length chances)
  /\ Home.edges (addEach chances (Home.handleClearAll true flow)) = []
  /\ Home.handleClearAll false flow = flow.
Proof.
  split; [reflexivity|].
  destruct (addEach_nodes chances flow) as [H1 H2].
  destruct (addEach_nodes chances (Home.handleClearAll true flow)) as [H3 H4].
  repeat split; assumption.
Qed.

End OwnerFacts.

Lemma dash_after_digits a : forall b x y,
  every JS.isDigit a = true -> every JS.isDigit b = true ->
  a ++ "-" ++ x = b ++ "-" ++ y -> a = b.
Proof.
  induction a as [|c a IH]; intros [|c' b] x y Ha Hb H; simpl in *.
  - reflexivity.
  - injection H as <- _. discriminate Hb.
  - injection H as -> _. discriminate Ha.
  - injection H as <- H. apply andb_true_iff in Ha, Hb.
    rewrite (IH b x y (proj2 Ha) (proj2 Hb) H). reflexivity.
Qed.

Lemma clock_rendering_differs now1 now2 x y :
  now1 <> now2 ->
  NilEmpty.string_of_uint (N.to_uint now1) ++ "-" ++ x
  <> NilEmpty.string_of_uint (N.to_uint now2) ++ "-" ++ y.
Proof.
  intros Hne H. apply Hne. apply dash_after_digits in H;
    try apply NumeralFacts.digits_of_uint.
  apply DecimalN.Unsigned.to_uint_inj.
  pose proof (NilEmpty.usu (N.to_uint now1)) as E1.
  pose proof (NilEmpty.usu (N.to_uint now2)) as E2.
  rewrite H in E1. congruence.
Qed.

(** X26.  The generated ids: a node id is never an edge id, whatever the
    clock and the random numbers; and two node ids, and two edge ids, drawn
    at different readings of the clock differ, whatever the random numbers. *)
Theorem generated_ids_differ (now1 now2 : N) (r1 r2 : string) :
  Utils.generateNodeId now1 r1 <> Utils.generateEdgeId now2 r2
  /\ (now1 <> now2 ->
      Utils.generateNodeId now1 r1 <> Utils.generateNodeId now2 r2
      /\ Utils.generateEdgeId now1 r1 <> Utils.generateEdgeId now2 r2).
Proof.
  unfold Utils.generateNodeId, Utils.generateEdgeId. split.
  - intros H. discriminate H.
  - intros Hne. split.
    + intros H. simpl in H. injection H as H.
      exact (clock_rendering_differs _ _ Hne H).
    + intros H. simpl in H. injection H as H.
      exact (clock_rendering_differs _ _ Hne H).
Qed.

Lemma generated_ids_differ_witness :
  Utils.generateNodeId 1 "0.abcdefghijk" <> Utils.generateEdgeId 1 "0.abcdefghijk"
  /\ Utils.generateNodeId 1 "0.abcdefghijk" <> Utils.generateNodeId 2 "0.abcdefghijk".
Proof.
  destruct (@generated_ids_differ 1 2 "0.abcdefghijk" "0.abcdefghijk") as [_ H].
  split.
  - exact (proj1 (@generated_ids_differ 1 1 "0.abcdefghijk" "0.abcdefghijk")).
  - apply H. discriminate.
Defined.

(* ================================================================== *)
(** ** Ordinals in the sentences of the parser *)

Module ResolutionFacts.
Import RegExp RegExpFacts CleanUpFacts NumeralFacts LoopFacts OrdinalFacts UpdateFacts.




(** *** [delete node N] when the number names no node *)





(** *** [delete node -N] *)






(** *** [connect node N to node M] *)


End ResolutionFacts.

(* ================================================================== *)
(** * The claims, concluded *)



